(** * The structural wire codec of [minecraft/protocol]

    A shallow embedding of the item-stack, entity-link, enchantment and skin
    codecs of the [protocol] package, and of the primitive readers and writers
    they are built from, together with the properties the specification states
    about them. *)

From Stdlib.Strings Require Import Byte String.
From Stdlib Require Import ZArith List Bool Lia.
Import ListNotations.
Local Open Scope Z_scope.

(** ** Bytes and buffers *)

(** A [bytes.Buffer] is the list of its unread bytes: reading takes bytes from
    the front, writing appends at the back. *)
Definition buf := list byte.

Definition byte_val (b : byte) : Z := Z.of_N (Byte.to_N b).

Definition byte_of (z : Z) : byte :=
  match Byte.of_N (Z.to_N (z mod 256)) with
  | Some b => b
  | None => x00
  end.

(** Go's fixed-width integer conversions, written out on [Z]. *)
Definition wrap_u (bits z : Z) : Z := z mod 2 ^ bits.

Definition wrap_s (bits z : Z) : Z :=
  (z + 2 ^ (bits - 1)) mod 2 ^ bits - 2 ^ (bits - 1).

Definition in_u (bits z : Z) : Prop := 0 <= z < 2 ^ bits.
Definition in_s (bits z : Z) : Prop := - 2 ^ (bits - 1) <= z < 2 ^ (bits - 1).

(** ** Errors *)

(** Modelled from the spec: the error types [LimitHitError] and
    [NegativeCountError] are not under src/.  These are the kinds of the
    taxonomy of section 4.5; [LIMIT] and [NEGATIVE] keep the fields the
    readers fill in. *)
Inductive error : Type :=
| EOF
| MALFORMED
| LIMIT (limit : Z) (type : string)
| NEGATIVE (type : string)
| UNKNOWN_PACKET
| INVARIANT.

Definition is_limit (e : option error) : bool :=
  match e with
  | Some (LIMIT _ _) => true
  | _ => false
  end.

(** Modelled from the spec: [wrap] is not under src/.  "Each error carries a
    short call-site tag suitable for logging": wrapping adds the tag and keeps
    the kind, which is all that is modelled here. *)
Definition wrap (e : error) : error := e.

(** Modelled from the spec: the constant [lowerLimit] is not under src/.
    "LOWER_LIMIT ~ 512". *)
Definition lowerLimit : Z := 512.

(** Modelled from the spec: the constant [higherLimit] is not under src/.
    "HIGHER_LIMIT ~ 64*1024". *)
Definition higherLimit : Z := 64 * 1024.

(** ** Readers

    A Go reader [func(src *bytes.Buffer, x *T) error] mutates the buffer and
    the pointee and returns an error.  It becomes a function from the buffer
    and the old pointee to the error, the new pointee and the new buffer; all
    three are defined whether or not the call fails. *)
Definition Decoder (X : Type) : Type := buf -> X -> option error * X * buf.

Definition dec_err {X} (r : option error * X * buf) : option error := fst (fst r).
Definition dec_val {X} (r : option error * X * buf) : X := snd (fst r).
Definition dec_src {X} (r : option error * X * buf) : buf := snd r.

(** [field get set d] is the call [d(src, &x.f)] for the field [f] of [x]. *)
Definition field {X A} (get : X -> A) (set : A -> X -> X) (d : Decoder A)
  : Decoder X :=
  fun src x =>
    let '(e, a, s) := d src (get x) in (e, set a x, s).

(** The first non-nil error of two. *)
Definition first_err (e1 e2 : option error) : option error :=
  match e1 with
  | Some _ => e1
  | None => e2
  end.

(** Modelled from the spec: [chainErr] is not under src/.  It composes
    "many small field reads/writes" and returns the first error.  At every
    call site its arguments are the calls [r(src, &x.f)] themselves, which Go
    evaluates left to right before [chainErr] runs: every reader of the chain
    runs, also after an earlier one has failed. *)
Fixpoint chainErr {X} (ds : list (Decoder X)) : Decoder X :=
  fun src x =>
    match ds with
    | [] => (None, x, src)
    | d :: ds' =>
        let '(e1, x1, s1) := d src x in
        let '(e2, x2, s2) := chainErr ds' s1 x1 in
        (first_err e1 e2, x2, s2)
    end.

(** The loop [for i := 0; i < len(cells); i++ { if err := d(src, &cells[i]);
    err != nil { return w(err) } }] over a slice [cells]. *)
Fixpoint read_each {X} (w : error -> error) (d : Decoder X) (cells : list X)
  (src : buf) : option error * list X * buf :=
  match cells with
  | [] => (None, [], src)
  | c :: cs =>
      match d src c with
      | (Some e, c', s) => (Some (w e), c' :: cs, s)
      | (None, c', s) =>
          let '(e, cs', s') := read_each w d cs s in (e, c' :: cs', s')
      end
  end.

(** [make([]T, n)]: a slice of [n] zero values. *)
Definition make {X} (zero : X) (n : Z) : list X := repeat zero (Z.to_nat n).

(** *** Fixed-width reads and writes ([encoding/binary], little endian) *)

Fixpoint le_bytes (n : nat) (z : Z) : list byte :=
  match n with
  | O => []
  | S n' => byte_of z :: le_bytes n' (Z.shiftr z 8)
  end.

Fixpoint le_value (bs : list byte) : Z :=
  match bs with
  | [] => 0
  | b :: bs' => byte_val b + 256 * le_value bs'
  end.

(** [binary.Read] fills a value of [n] bytes with [io.ReadFull]: with fewer
    than [n] bytes left it takes what is left and fails ([io.EOF] or
    [io.ErrUnexpectedEOF], both of kind [EOF]), and the value is not set. *)
Definition read_fixed (n : nat) (conv : Z -> Z) : Decoder Z :=
  fun src x =>
    if (length src <? n)%nat then (Some EOF, x, [])
    else (None, conv (le_value (firstn n src)), skipn n src).

Definition read_uint32 : Decoder Z := read_fixed 4 (fun z => z).
Definition read_int32 : Decoder Z := read_fixed 4 (wrap_s 32).
Definition read_int16 : Decoder Z := read_fixed 2 (wrap_s 16).

Definition read_byte : Decoder byte :=
  fun src x =>
    match src with
    | [] => (Some EOF, x, [])
    | b :: s => (None, b, s)
    end.

Definition read_bool : Decoder bool :=
  fun src x =>
    match src with
    | [] => (Some EOF, x, [])
    | b :: s => (None, negb (byte_val b =? 0), s)
    end.

Definition write_uint32 (z : Z) : list byte := le_bytes 4 z.
Definition write_int32 (z : Z) : list byte := le_bytes 4 z.
Definition write_int16 (z : Z) : list byte := le_bytes 2 z.
Definition write_byte (b : byte) : list byte := [b].
Definition write_bool (b : bool) : list byte := [if b then x01 else x00].

(** *** Varints *)

(** Modelled from the spec: the varint readers and writers are not under
    src/.  "Varints are LEB128 with at most ceil(bits/7) bytes.  On decode:
    read bytes until one has its high bit clear, accumulating low-7 bits
    shifted by 7*i.  A non-terminating sequence of ceil(bits/7) bytes still
    carrying the continuation bit is a fatal OVERFLOW error", which the
    taxonomy files under [MALFORMED].  A short cursor is [EOF]. *)
Fixpoint varuint_loop (bits : Z) (n : nat) (i v : Z) (src : buf) (x : Z)
  : option error * Z * buf :=
  match n with
  | O => (Some MALFORMED, x, src)
  | S n' =>
      match src with
      | [] => (Some EOF, x, [])
      | b :: s =>
          let v' := wrap_u bits (Z.lor v (Z.shiftl (Z.land (byte_val b) 127) i)) in
          if Z.land (byte_val b) 128 =? 0 then (None, v', s)
          else varuint_loop bits n' (i + 7) v' s x
      end
  end.

(** Modelled from the spec: [Varuint32], at most ceil(32/7) = 5 bytes. *)
Definition Varuint32 : Decoder Z := varuint_loop 32 5 0 0.

(** Modelled from the spec: [Varuint64], at most ceil(64/7) = 10 bytes. *)
Definition Varuint64 : Decoder Z := varuint_loop 64 10 0 0.

(** Modelled from the spec: "Signed varints apply zig-zag to the unsigned
    magnitude", the mapping "(n << 1) XOR (n >> k-1)" on [k] bits. *)
Definition zigzag (bits x : Z) : Z :=
  wrap_u bits (Z.lxor (Z.shiftl x 1) (Z.shiftr x (bits - 1))).

(** Modelled from the spec: the inverse of the zig-zag mapping. *)
Definition unzigzag (ux : Z) : Z :=
  Z.lxor (Z.shiftr ux 1) (- Z.land ux 1).

(** Modelled from the spec: a signed varint is the unsigned one, read into a
    local, then mapped back. *)
Definition varint_of (d : Decoder Z) : Decoder Z :=
  fun src x =>
    match d src 0 with
    | (Some e, _, s) => (Some e, x, s)
    | (None, ux, s) => (None, unzigzag ux, s)
    end.

(** Modelled from the spec: [Varint32]. *)
Definition Varint32 : Decoder Z := varint_of Varuint32.

(** Modelled from the spec: [Varint64]. *)
Definition Varint64 : Decoder Z := varint_of Varuint64.

(** Modelled from the spec: "Encoding uses the minimum number of bytes for the
    unsigned form".  [n] is ceil(bits/7), the most bytes a value can take. *)
Fixpoint put_varuint (n : nat) (ux : Z) : list byte :=
  match n with
  | O => []
  | S n' =>
      if ux <? 128 then [byte_of ux]
      else byte_of (Z.lor ux 128) :: put_varuint n' (Z.shiftr ux 7)
  end.

(** Modelled from the spec: [WriteVaruint32]. *)
Definition WriteVaruint32 (x : Z) : list byte := put_varuint 5 x.

(** Modelled from the spec: [WriteVaruint64]. *)
Definition WriteVaruint64 (x : Z) : list byte := put_varuint 10 x.

(** Modelled from the spec: [WriteVarint32]. *)
Definition WriteVarint32 (x : Z) : list byte := put_varuint 5 (zigzag 32 x).

(** Modelled from the spec: [WriteVarint64]. *)
Definition WriteVarint64 (x : Z) : list byte := put_varuint 10 (zigzag 64 x).

(** *** Strings and byte slices *)

(** A Go [string] and a [[]byte] are both sequences of bytes. *)
Definition gostring := list byte.

(** Modelled from the spec: [ByteSlice] is not under src/.  "Strings: length
    is a varuint giving byte count; the payload is read raw with no encoding
    validation at this layer.  Byte slices: identical framing."  A payload
    shorter than its length is [EOF]. *)
Definition ByteSlice : Decoder (list byte) :=
  fun src x =>
    match Varuint32 src 0 with
    | (Some e, _, s) => (Some (wrap e), x, s)
    | (None, len, s) =>
        if (length s <? Z.to_nat len)%nat then (Some EOF, x, [])
        else (None, firstn (Z.to_nat len) s, skipn (Z.to_nat len) s)
    end.

(** Modelled from the spec: [String] is not under src/; it has the framing
    of [ByteSlice]. *)
Definition String : Decoder gostring := ByteSlice.

(** Modelled from the spec: [WriteByteSlice] is not under src/.  The length
    goes out as a varuint32, then the bytes. *)
Definition WriteByteSlice (x : list byte) : list byte :=
  WriteVaruint32 (wrap_u 32 (Z.of_nat (length x))) ++ x.

(** Modelled from the spec: [WriteString] is not under src/; it has the
    framing of [WriteByteSlice]. *)
Definition WriteString (x : gostring) : list byte := WriteByteSlice x.

(** Modelled from the spec: [Float32] is not under src/.  "Floats use the
    platform's IEEE-754 representation, little-endian."  A [float32] is
    carried as its 32-bit pattern. *)
Definition Float32 : Decoder Z := read_uint32.

(** Modelled from the spec: [WriteFloat32] is not under src/; the same four
    bytes. *)
Definition WriteFloat32 (bits : Z) : list byte := write_uint32 bits.

(** ** Entity links (entity_link.go) *)

Record EntityLink : Type := {
  RiddenEntityUniqueID : Z;   (* int64 *)
  RiderEntityUniqueID : Z;    (* int64 *)
  link_Type : byte;           (* the field [Type] *)
  Immediate : bool;
  RiderInitiated : bool
}.

Definition EntityLink_zero : EntityLink :=
  {| RiddenEntityUniqueID := 0; RiderEntityUniqueID := 0; link_Type := x00;
     Immediate := false; RiderInitiated := false |}.

Definition set_RiddenEntityUniqueID (v : Z) (x : EntityLink) : EntityLink :=
  {| RiddenEntityUniqueID := v; RiderEntityUniqueID := RiderEntityUniqueID x;
     link_Type := link_Type x; Immediate := Immediate x;
     RiderInitiated := RiderInitiated x |}.
Definition set_RiderEntityUniqueID (v : Z) (x : EntityLink) : EntityLink :=
  {| RiddenEntityUniqueID := RiddenEntityUniqueID x; RiderEntityUniqueID := v;
     link_Type := link_Type x; Immediate := Immediate x;
     RiderInitiated := RiderInitiated x |}.
Definition set_link_Type (v : byte) (x : EntityLink) : EntityLink :=
  {| RiddenEntityUniqueID := RiddenEntityUniqueID x;
     RiderEntityUniqueID := RiderEntityUniqueID x;
     link_Type := v; Immediate := Immediate x;
     RiderInitiated := RiderInitiated x |}.
Definition set_Immediate (v : bool) (x : EntityLink) : EntityLink :=
  {| RiddenEntityUniqueID := RiddenEntityUniqueID x;
     RiderEntityUniqueID := RiderEntityUniqueID x;
     link_Type := link_Type x; Immediate := v;
     RiderInitiated := RiderInitiated x |}.
Definition set_RiderInitiated (v : bool) (x : EntityLink) : EntityLink :=
  {| RiddenEntityUniqueID := RiddenEntityUniqueID x;
     RiderEntityUniqueID := RiderEntityUniqueID x;
     link_Type := link_Type x; Immediate := Immediate x;
     RiderInitiated := v |}.

Definition EntityLinkAction : Decoder EntityLink :=
  chainErr
    [ field RiddenEntityUniqueID set_RiddenEntityUniqueID Varint64;
      field RiderEntityUniqueID set_RiderEntityUniqueID Varint64;
      field link_Type set_link_Type read_byte;
      field Immediate set_Immediate read_bool;
      field RiderInitiated set_RiderInitiated read_bool ].

Definition EntityLinks : Decoder (list EntityLink) :=
  fun src x =>
    match Varuint32 src 0 with
    | (Some e, _, s) => (Some (wrap e), x, s)
    | (None, count, s) =>
        if count >? lowerLimit then (Some (LIMIT lowerLimit "entity link"), x, s)
        else read_each wrap EntityLinkAction (make EntityLink_zero count) s
    end.

(** Writes into a [bytes.Buffer] cannot fail, so a writer whose only errors
    would come from them is the list of bytes it appends. *)
Definition WriteEntityLinkAction (x : EntityLink) : list byte :=
  WriteVarint64 (RiddenEntityUniqueID x)
    ++ WriteVarint64 (RiderEntityUniqueID x)
    ++ write_byte (link_Type x)
    ++ write_bool (Immediate x)
    ++ write_bool (RiderInitiated x).

Definition WriteEntityLinks (x : list EntityLink) : list byte :=
  WriteVaruint32 (wrap_u 32 (Z.of_nat (length x)))
    ++ flat_map WriteEntityLinkAction x.

(** ** Enchantments (the [protocol] file of [EnchantmentOption]) *)

Record EnchantmentInstance : Type := {
  ench_Type : byte;           (* the field [Type] *)
  Level : byte
}.

Definition EnchantmentInstance_zero : EnchantmentInstance :=
  {| ench_Type := x00; Level := x00 |}.

Definition set_ench_Type (v : byte) (x : EnchantmentInstance) :=
  {| ench_Type := v; Level := Level x |}.
Definition set_Level (v : byte) (x : EnchantmentInstance) :=
  {| ench_Type := ench_Type x; Level := v |}.

(** [Enchantments] is the array [[3][]EnchantmentInstance]. *)
Record ItemEnchantments : Type := {
  Slot : Z;                   (* int32 *)
  Enchantments0 : list EnchantmentInstance;
  Enchantments1 : list EnchantmentInstance;
  Enchantments2 : list EnchantmentInstance
}.

Definition ItemEnchantments_zero : ItemEnchantments :=
  {| Slot := 0; Enchantments0 := []; Enchantments1 := []; Enchantments2 := [] |}.

Definition set_Slot (v : Z) (x : ItemEnchantments) :=
  {| Slot := v; Enchantments0 := Enchantments0 x;
     Enchantments1 := Enchantments1 x; Enchantments2 := Enchantments2 x |}.
Definition set_Enchantments0 (v : list EnchantmentInstance) (x : ItemEnchantments) :=
  {| Slot := Slot x; Enchantments0 := v;
     Enchantments1 := Enchantments1 x; Enchantments2 := Enchantments2 x |}.
Definition set_Enchantments1 (v : list EnchantmentInstance) (x : ItemEnchantments) :=
  {| Slot := Slot x; Enchantments0 := Enchantments0 x;
     Enchantments1 := v; Enchantments2 := Enchantments2 x |}.
Definition set_Enchantments2 (v : list EnchantmentInstance) (x : ItemEnchantments) :=
  {| Slot := Slot x; Enchantments0 := Enchantments0 x;
     Enchantments1 := Enchantments1 x; Enchantments2 := v |}.

Record EnchantmentOption : Type := {
  Cost : Z;                   (* uint32 *)
  Enchantments : ItemEnchantments;
  Name : gostring;
  RecipeNetworkID : Z         (* uint32 *)
}.

Definition EnchantmentOption_zero : EnchantmentOption :=
  {| Cost := 0; Enchantments := ItemEnchantments_zero; Name := [];
     RecipeNetworkID := 0 |}.

Definition set_Cost (v : Z) (x : EnchantmentOption) :=
  {| Cost := v; Enchantments := Enchantments x; Name := Name x;
     RecipeNetworkID := RecipeNetworkID x |}.
Definition set_Enchantments (v : ItemEnchantments) (x : EnchantmentOption) :=
  {| Cost := Cost x; Enchantments := v; Name := Name x;
     RecipeNetworkID := RecipeNetworkID x |}.
Definition set_Name (v : gostring) (x : EnchantmentOption) :=
  {| Cost := Cost x; Enchantments := Enchantments x; Name := v;
     RecipeNetworkID := RecipeNetworkID x |}.
Definition set_RecipeNetworkID (v : Z) (x : EnchantmentOption) :=
  {| Cost := Cost x; Enchantments := Enchantments x; Name := Name x;
     RecipeNetworkID := v |}.

Definition WriteEnchant (x : EnchantmentInstance) : list byte :=
  [ench_Type x; Level x].

Definition Enchant : Decoder EnchantmentInstance :=
  chainErr
    [ field ench_Type set_ench_Type read_byte;
      field Level set_Level read_byte ].

(** One round of the loop [for i := 0; i < 3; i++] of [ItemEnchants], for the
    bucket [x.Enchantments[i]]. *)
Definition ItemEnchants_bucket : Decoder (list EnchantmentInstance) :=
  fun src x =>
    match Varuint32 src 0 with
    | (Some e, _, s) => (Some e, x, s)
    | (None, l, s) =>
        read_each (fun e => e) Enchant (make EnchantmentInstance_zero l) s
    end.

Definition ItemEnchants : Decoder ItemEnchantments :=
  fun src x =>
    match field Slot set_Slot read_int32 src x with
    | (Some e, x, s) => (Some e, x, s)
    | (None, x, s) =>
    match field Enchantments0 set_Enchantments0 ItemEnchants_bucket s x with
    | (Some e, x, s) => (Some e, x, s)
    | (None, x, s) =>
    match field Enchantments1 set_Enchantments1 ItemEnchants_bucket s x with
    | (Some e, x, s) => (Some e, x, s)
    | (None, x, s) =>
        field Enchantments2 set_Enchantments2 ItemEnchants_bucket s x
    end end end.

Definition WriteItemEnchants_bucket (enchantments : list EnchantmentInstance)
  : list byte :=
  WriteVaruint32 (wrap_u 32 (Z.of_nat (length enchantments)))
    ++ flat_map WriteEnchant enchantments.

Definition WriteItemEnchants (x : ItemEnchantments) : list byte :=
  write_int32 (Slot x)
    ++ WriteItemEnchants_bucket (Enchantments0 x)
    ++ WriteItemEnchants_bucket (Enchantments1 x)
    ++ WriteItemEnchants_bucket (Enchantments2 x).

Definition WriteEnchantOption (x : EnchantmentOption) : list byte :=
  WriteVaruint32 (Cost x)
    ++ WriteItemEnchants (Enchantments x)
    ++ WriteString (Name x)
    ++ WriteVaruint32 (RecipeNetworkID x).

Definition EnchantOption : Decoder EnchantmentOption :=
  chainErr
    [ field Cost set_Cost Varuint32;
      field Enchantments set_Enchantments ItemEnchants;
      field Name set_Name String;
      field RecipeNetworkID set_RecipeNetworkID Varuint32 ].

(** ** NBT, as the item codec sees it *)

(** The NBT tree of the specification's data model: "a tagged sum with
    variants End, Byte, Short, Int, Long, Float, Double, ByteArray, String,
    List, Compound, IntArray, LongArray"; [End] is a terminator and carries no
    value.  Floats are carried as their bit patterns. *)
#[local] Unset Elimination Schemes.
Inductive NBT : Type :=
| TagByte (v : byte)
| TagShort (v : Z)
| TagInt (v : Z)
| TagLong (v : Z)
| TagFloat (bits : Z)
| TagDouble (bits : Z)
| TagByteArray (v : list byte)
| TagString (v : gostring)
| TagList (kind : byte) (v : list NBT)
| TagCompound (v : list (gostring * NBT))
| TagIntArray (v : list Z)
| TagLongArray (v : list Z).
#[local] Set Elimination Schemes.

(** [map[string]interface{}], the untyped holder of a compound's entries. *)
Definition NBTData : Type := list (gostring * NBT).

(** The package [nbt] is an external collaborator of the structural codec
    ("NBT interface exposed to C2").  The item codec uses three of its entry
    points, which it takes as a parameter:
    - [nbt_Decode] is [nbt.NewDecoder(src).Decode(&m)], reading one value
      from the cursor into [m];
    - [nbt_UnmarshalEncoding] is [nbt.UnmarshalEncoding(data, &m,
      nbt.LittleEndian)];
    - [nbt_Marshal] is [nbt.Marshal(m)], [None] when it fails. *)
Record NbtCodec : Type := {
  nbt_Decode : Decoder NBTData;
  nbt_UnmarshalEncoding : list byte -> NBTData -> option error * NBTData;
  nbt_Marshal : NBTData -> option (list byte)
}.

(** ** Item stacks (item.go) *)

Record ItemType : Type := {
  NetworkID : Z;              (* int32 *)
  MetadataValue : Z           (* int16 *)
}.

Record ItemStack : Type := {
  ItemStack_ItemType : ItemType;   (* the embedded [ItemType] *)
  Count : Z;                       (* int16 *)
  NBTData_of : NBTData;            (* the field [NBTData] *)
  CanBePlacedOn : list gostring;
  CanBreak : list gostring
}.

(** The fields of the embedded struct are promoted: [x.NetworkID]. *)
Coercion ItemStack_ItemType : ItemStack >-> ItemType.

Definition ItemStack_zero : ItemStack :=
  {| ItemStack_ItemType := {| NetworkID := 0; MetadataValue := 0 |};
     Count := 0; NBTData_of := []; CanBePlacedOn := []; CanBreak := [] |}.

Definition set_NetworkID (v : Z) (x : ItemStack) : ItemStack :=
  {| ItemStack_ItemType := {| NetworkID := v; MetadataValue := MetadataValue x |};
     Count := Count x; NBTData_of := NBTData_of x;
     CanBePlacedOn := CanBePlacedOn x; CanBreak := CanBreak x |}.
Definition set_MetadataValue (v : Z) (x : ItemStack) : ItemStack :=
  {| ItemStack_ItemType := {| NetworkID := NetworkID x; MetadataValue := v |};
     Count := Count x; NBTData_of := NBTData_of x;
     CanBePlacedOn := CanBePlacedOn x; CanBreak := CanBreak x |}.
Definition set_Count (v : Z) (x : ItemStack) : ItemStack :=
  {| ItemStack_ItemType := ItemStack_ItemType x;
     Count := v; NBTData_of := NBTData_of x;
     CanBePlacedOn := CanBePlacedOn x; CanBreak := CanBreak x |}.
Definition set_NBTData (v : NBTData) (x : ItemStack) : ItemStack :=
  {| ItemStack_ItemType := ItemStack_ItemType x;
     Count := Count x; NBTData_of := v;
     CanBePlacedOn := CanBePlacedOn x; CanBreak := CanBreak x |}.
Definition set_CanBePlacedOn (v : list gostring) (x : ItemStack) : ItemStack :=
  {| ItemStack_ItemType := ItemStack_ItemType x;
     Count := Count x; NBTData_of := NBTData_of x;
     CanBePlacedOn := v; CanBreak := CanBreak x |}.
Definition set_CanBreak (v : list gostring) (x : ItemStack) : ItemStack :=
  {| ItemStack_ItemType := ItemStack_ItemType x;
     Count := Count x; NBTData_of := NBTData_of x;
     CanBePlacedOn := CanBePlacedOn x; CanBreak := v |}.

Definition shieldID : Z := 513.

(** [src.Next(n)]: the next [n] bytes, or all of them when fewer are left. *)
Definition Next (n : Z) (src : buf) : list byte * buf :=
  (firstn (Z.to_nat n) src, skipn (Z.to_nat n) src).

(** The block of [Item] that follows the read of [legacyNBTLength]
    (item.go, lines 61 to 87).  The errors built with [fmt.Errorf] are format
    errors, of kind [MALFORMED]. *)
Definition Item_nbt (nbt : NbtCodec) (legacyNBTLength : Z) : Decoder ItemStack :=
  fun src x =>
    if legacyNBTLength =? 0 then (None, x, src)
    else if legacyNBTLength =? -1 then
      match read_byte src x00 with
      | (Some e, _, s) => (Some (wrap e), x, s)
      | (None, nbtCount, s) =>
          if negb (byte_val nbtCount =? 1) then (Some MALFORMED, x, s)
          else
            (* the loop runs once: nbtCount is 1 *)
            match field NBTData_of set_NBTData (nbt_Decode nbt) s x with
            | (Some _, x, s) => (Some MALFORMED, x, s)
            | (None, x, s) => (None, x, s)
            end
      end
    else if legacyNBTLength <? 0 then (Some MALFORMED, x, src)
    else
      let '(nbtData, s) := Next legacyNBTLength src in
      match nbt_UnmarshalEncoding nbt nbtData (NBTData_of x) with
      | (Some _, m) => (Some MALFORMED, set_NBTData m x, s)
      | (None, m) => (None, set_NBTData m x, s)
      end.

(** The two blocks of [Item] that read a list of block identifiers (lines 89
    to 103 and 104 to 119); they differ in the field and in the [Type] of
    their errors. *)
Definition Item_blocks (type : string) : Decoder (list gostring) :=
  fun src x =>
    match Varint32 src 0 with
    | (Some e, _, s) => (Some (wrap e), x, s)
    | (None, count, s) =>
        if count <? 0 then (Some (NEGATIVE type), x, s)
        else if count >? higherLimit then (Some (LIMIT higherLimit type), x, s)
        else read_each wrap String (make [] count) s
    end.

(** [Item] reads an item stack from [src] into [x]. *)
Definition Item (nbt : NbtCodec) : Decoder ItemStack :=
  fun src x =>
    let x := set_NBTData [] x in
    match field (fun x : ItemStack => NetworkID x) set_NetworkID Varint32 src x with
    | (Some e, x, s) => (Some (wrap e), x, s)
    | (None, x, s) =>
    if NetworkID x =? 0 then
      (None,
       set_CanBreak [] (set_CanBePlacedOn [] (set_Count 0 (set_MetadataValue 0 x))),
       s)
    else
    match Varint32 s 0 with
    | (Some e, _, s) => (Some (wrap e), x, s)
    | (None, auxValue, s) =>
    let x := set_MetadataValue (wrap_s 16 (Z.shiftr auxValue 8)) x in
    let x := set_Count (wrap_s 16 (Z.land auxValue 255)) x in
    match read_int16 s 0 with
    | (Some e, _, s) => (Some (wrap e), x, s)
    | (None, legacyNBTLength, s) =>
    match Item_nbt nbt legacyNBTLength s x with
    | (Some e, x, s) => (Some e, x, s)
    | (None, x, s) =>
    match field CanBePlacedOn set_CanBePlacedOn
            (Item_blocks "item can be placed on") s x with
    | (Some e, x, s) => (Some e, x, s)
    | (None, x, s) =>
    match field CanBreak set_CanBreak (Item_blocks "item can break") s x with
    | (Some e, x, s) => (Some e, x, s)
    | (None, x, s) =>
        if NetworkID x =? shieldID then
          match Varint64 s 0 with
          | (Some e, _, s) => (Some (wrap e), x, s)
          | (None, blockingTick, s) => (None, x, s)
          end
        else (None, x, s)
    end end end end end end.

(** [Item] cut after the [CanBreak] loop: lines 38 to 119 of item.go, without
    the shield block of lines 120 to 127.  It marks the position "after the
    can_break list" in statements about what [Item] reads there. *)
Definition Item_through_CanBreak (nbt : NbtCodec) : Decoder ItemStack :=
  fun src x =>
    let x := set_NBTData [] x in
    match field (fun x : ItemStack => NetworkID x) set_NetworkID Varint32 src x with
    | (Some e, x, s) => (Some (wrap e), x, s)
    | (None, x, s) =>
    if NetworkID x =? 0 then
      (None,
       set_CanBreak [] (set_CanBePlacedOn [] (set_Count 0 (set_MetadataValue 0 x))),
       s)
    else
    match Varint32 s 0 with
    | (Some e, _, s) => (Some (wrap e), x, s)
    | (None, auxValue, s) =>
    let x := set_MetadataValue (wrap_s 16 (Z.shiftr auxValue 8)) x in
    let x := set_Count (wrap_s 16 (Z.land auxValue 255)) x in
    match read_int16 s 0 with
    | (Some e, _, s) => (Some (wrap e), x, s)
    | (None, legacyNBTLength, s) =>
    match Item_nbt nbt legacyNBTLength s x with
    | (Some e, x, s) => (Some e, x, s)
    | (None, x, s) =>
    match field CanBePlacedOn set_CanBePlacedOn
            (Item_blocks "item can be placed on") s x with
    | (Some e, x, s) => (Some e, x, s)
    | (None, x, s) =>
        field CanBreak set_CanBreak (Item_blocks "item can break") s x
    end end end end end.

(** [WriteItem] returns the bytes it has appended to [dst] and its error. *)
Definition WriteItem (nbt : NbtCodec) (x : ItemStack) : list byte * option error :=
  let b := WriteVarint32 (NetworkID x) in
  if NetworkID x =? 0 then (b, None)
  else
    let b := b ++ WriteVarint32
                    (Z.lor (wrap_s 16 (Z.shiftl (MetadataValue x) 8)) (Count x)) in
    let r :=
      if negb (Z.of_nat (length (NBTData_of x)) =? 0) then
        let b := b ++ write_int16 (-1) ++ write_byte x01 in
        match nbt_Marshal nbt (NBTData_of x) with
        | None => (b, Some MALFORMED)
        | Some nb => (b ++ nb, None)
        end
      else (b ++ write_int16 0, None) in
    match r with
    | (b, Some e) => (b, Some e)
    | (b, None) =>
        let b := b ++ WriteVarint32 (wrap_s 32 (Z.of_nat (length (CanBePlacedOn x))))
                   ++ flat_map WriteString (CanBePlacedOn x) in
        let b := b ++ WriteVarint32 (wrap_s 32 (Z.of_nat (length (CanBreak x))))
                   ++ flat_map WriteString (CanBreak x) in
        if NetworkID x =? shieldID then
          let blockingTick := 0 in (b ++ WriteVarint64 blockingTick, None)
        else (b, None)
    end.

Definition RecipeIngredient : Decoder ItemStack :=
  fun src x =>
    match field (fun x : ItemStack => NetworkID x) set_NetworkID Varint32 src x with
    | (Some _, x, s) => (None, x, s)
    | (None, x, s) =>
    if NetworkID x =? 0 then (None, x, s)
    else
    match Varint32 s 0 with
    | (Some e, _, s) => (Some e, x, s)
    | (None, meta, s) =>
    let x := set_MetadataValue (wrap_s 16 meta) x in
    match Varint32 s 0 with
    | (Some e, _, s) => (Some e, x, s)
    | (None, count, s) =>
        if count <? 0 then (Some (NEGATIVE "recipe ingredient count"), x, s)
        else (None, set_Count (wrap_s 16 count) x, s)
    end end end.

Definition WriteRecipeIngredient (x : ItemStack) : list byte :=
  WriteVarint32 (NetworkID x)
    ++ (if NetworkID x =? 0 then []
        else WriteVarint32 (MetadataValue x) ++ WriteVarint32 (Count x)).

(** ** Skins (skin.go) *)

Record SkinAnimation : Type := {
  ImageWidth : Z;   (* uint32 *)
  ImageHeight : Z;   (* uint32 *)
  ImageData : list byte;
  AnimationType : Z;   (* uint32 *)
  FrameCount : Z   (* float32, as its bits *)
}.

Definition SkinAnimation_zero : SkinAnimation :=
  {| ImageWidth := 0;
     ImageHeight := 0;
     ImageData := [];
     AnimationType := 0;
     FrameCount := 0 |}.

Definition set_ImageWidth (v : Z) (x : SkinAnimation) : SkinAnimation :=
  {| ImageWidth := v; ImageHeight := ImageHeight x; ImageData := ImageData x;
     AnimationType := AnimationType x; FrameCount := FrameCount x |}.
Definition set_ImageHeight (v : Z) (x : SkinAnimation) : SkinAnimation :=
  {| ImageWidth := ImageWidth x; ImageHeight := v; ImageData := ImageData x;
     AnimationType := AnimationType x; FrameCount := FrameCount x |}.
Definition set_ImageData (v : list byte) (x : SkinAnimation) : SkinAnimation :=
  {| ImageWidth := ImageWidth x; ImageHeight := ImageHeight x;
     ImageData := v; AnimationType := AnimationType x;
     FrameCount := FrameCount x |}.
Definition set_AnimationType (v : Z) (x : SkinAnimation) : SkinAnimation :=
  {| ImageWidth := ImageWidth x; ImageHeight := ImageHeight x;
     ImageData := ImageData x; AnimationType := v;
     FrameCount := FrameCount x |}.
Definition set_FrameCount (v : Z) (x : SkinAnimation) : SkinAnimation :=
  {| ImageWidth := ImageWidth x; ImageHeight := ImageHeight x;
     ImageData := ImageData x; AnimationType := AnimationType x;
     FrameCount := v |}.

Record PersonaPiece : Type := {
  PieceID : gostring;
  piece_PieceType : gostring;   (* the field [PieceType] *)
  PackID : gostring;
  Default : bool;
  ProductID : gostring
}.

Definition PersonaPiece_zero : PersonaPiece :=
  {| PieceID := [];
     piece_PieceType := [];
     PackID := [];
     Default := false;
     ProductID := [] |}.

Definition set_PieceID (v : gostring) (x : PersonaPiece) : PersonaPiece :=
  {| PieceID := v; piece_PieceType := piece_PieceType x; PackID := PackID x;
     Default := Default x; ProductID := ProductID x |}.
Definition set_piece_PieceType (v : gostring) (x : PersonaPiece) : PersonaPiece :=
  {| PieceID := PieceID x; piece_PieceType := v; PackID := PackID x;
     Default := Default x; ProductID := ProductID x |}.
Definition set_PackID (v : gostring) (x : PersonaPiece) : PersonaPiece :=
  {| PieceID := PieceID x; piece_PieceType := piece_PieceType x; PackID := v;
     Default := Default x; ProductID := ProductID x |}.
Definition set_Default (v : bool) (x : PersonaPiece) : PersonaPiece :=
  {| PieceID := PieceID x; piece_PieceType := piece_PieceType x;
     PackID := PackID x; Default := v; ProductID := ProductID x |}.
Definition set_ProductID (v : gostring) (x : PersonaPiece) : PersonaPiece :=
  {| PieceID := PieceID x; piece_PieceType := piece_PieceType x;
     PackID := PackID x; Default := Default x; ProductID := v |}.

Record PersonaPieceTintColour : Type := {
  tint_PieceType : gostring;   (* the field [PieceType] *)
  Colours : list gostring
}.

Definition PersonaPieceTintColour_zero : PersonaPieceTintColour :=
  {| tint_PieceType := [];
     Colours := [] |}.

Definition set_tint_PieceType (v : gostring) (x : PersonaPieceTintColour) : PersonaPieceTintColour :=
  {| tint_PieceType := v; Colours := Colours x |}.
Definition set_Colours (v : list gostring) (x : PersonaPieceTintColour) : PersonaPieceTintColour :=
  {| tint_PieceType := tint_PieceType x; Colours := v |}.

Record Skin : Type := {
  SkinID : gostring;
  SkinResourcePatch : list byte;
  SkinImageWidth : Z;   (* uint32 *)
  SkinImageHeight : Z;   (* uint32 *)
  SkinData : list byte;
  Animations : list SkinAnimation;
  CapeImageWidth : Z;   (* uint32 *)
  CapeImageHeight : Z;   (* uint32 *)
  CapeData : list byte;
  SkinGeometry : list byte;
  AnimationData : list byte;
  PremiumSkin : bool;
  PersonaSkin : bool;
  PersonaCapeOnClassicSkin : bool;
  CapeID : gostring;
  FullSkinID : gostring;
  SkinColour : gostring;
  ArmSize : gostring;
  PersonaPieces : list PersonaPiece;
  PieceTintColours : list PersonaPieceTintColour;
  Trusted : bool
}.

Definition Skin_zero : Skin :=
  {| SkinID := [];
     SkinResourcePatch := [];
     SkinImageWidth := 0;
     SkinImageHeight := 0;
     SkinData := [];
     Animations := [];
     CapeImageWidth := 0;
     CapeImageHeight := 0;
     CapeData := [];
     SkinGeometry := [];
     AnimationData := [];
     PremiumSkin := false;
     PersonaSkin := false;
     PersonaCapeOnClassicSkin := false;
     CapeID := [];
     FullSkinID := [];
     SkinColour := [];
     ArmSize := [];
     PersonaPieces := [];
     PieceTintColours := [];
     Trusted := false |}.

Definition set_SkinID (v : gostring) (x : Skin) : Skin :=
  {| SkinID := v; SkinResourcePatch := SkinResourcePatch x;
     SkinImageWidth := SkinImageWidth x;
     SkinImageHeight := SkinImageHeight x; SkinData := SkinData x;
     Animations := Animations x; CapeImageWidth := CapeImageWidth x;
     CapeImageHeight := CapeImageHeight x; CapeData := CapeData x;
     SkinGeometry := SkinGeometry x; AnimationData := AnimationData x;
     PremiumSkin := PremiumSkin x; PersonaSkin := PersonaSkin x;
     PersonaCapeOnClassicSkin := PersonaCapeOnClassicSkin x;
     CapeID := CapeID x; FullSkinID := FullSkinID x;
     SkinColour := SkinColour x; ArmSize := ArmSize x;
     PersonaPieces := PersonaPieces x;
     PieceTintColours := PieceTintColours x; Trusted := Trusted x |}.
Definition set_SkinResourcePatch (v : list byte) (x : Skin) : Skin :=
  {| SkinID := SkinID x; SkinResourcePatch := v;
     SkinImageWidth := SkinImageWidth x;
     SkinImageHeight := SkinImageHeight x; SkinData := SkinData x;
     Animations := Animations x; CapeImageWidth := CapeImageWidth x;
     CapeImageHeight := CapeImageHeight x; CapeData := CapeData x;
     SkinGeometry := SkinGeometry x; AnimationData := AnimationData x;
     PremiumSkin := PremiumSkin x; PersonaSkin := PersonaSkin x;
     PersonaCapeOnClassicSkin := PersonaCapeOnClassicSkin x;
     CapeID := CapeID x; FullSkinID := FullSkinID x;
     SkinColour := SkinColour x; ArmSize := ArmSize x;
     PersonaPieces := PersonaPieces x;
     PieceTintColours := PieceTintColours x; Trusted := Trusted x |}.
Definition set_SkinImageWidth (v : Z) (x : Skin) : Skin :=
  {| SkinID := SkinID x; SkinResourcePatch := SkinResourcePatch x;
     SkinImageWidth := v; SkinImageHeight := SkinImageHeight x;
     SkinData := SkinData x; Animations := Animations x;
     CapeImageWidth := CapeImageWidth x;
     CapeImageHeight := CapeImageHeight x; CapeData := CapeData x;
     SkinGeometry := SkinGeometry x; AnimationData := AnimationData x;
     PremiumSkin := PremiumSkin x; PersonaSkin := PersonaSkin x;
     PersonaCapeOnClassicSkin := PersonaCapeOnClassicSkin x;
     CapeID := CapeID x; FullSkinID := FullSkinID x;
     SkinColour := SkinColour x; ArmSize := ArmSize x;
     PersonaPieces := PersonaPieces x;
     PieceTintColours := PieceTintColours x; Trusted := Trusted x |}.
Definition set_SkinImageHeight (v : Z) (x : Skin) : Skin :=
  {| SkinID := SkinID x; SkinResourcePatch := SkinResourcePatch x;
     SkinImageWidth := SkinImageWidth x; SkinImageHeight := v;
     SkinData := SkinData x; Animations := Animations x;
     CapeImageWidth := CapeImageWidth x;
     CapeImageHeight := CapeImageHeight x; CapeData := CapeData x;
     SkinGeometry := SkinGeometry x; AnimationData := AnimationData x;
     PremiumSkin := PremiumSkin x; PersonaSkin := PersonaSkin x;
     PersonaCapeOnClassicSkin := PersonaCapeOnClassicSkin x;
     CapeID := CapeID x; FullSkinID := FullSkinID x;
     SkinColour := SkinColour x; ArmSize := ArmSize x;
     PersonaPieces := PersonaPieces x;
     PieceTintColours := PieceTintColours x; Trusted := Trusted x |}.
Definition set_SkinData (v : list byte) (x : Skin) : Skin :=
  {| SkinID := SkinID x; SkinResourcePatch := SkinResourcePatch x;
     SkinImageWidth := SkinImageWidth x;
     SkinImageHeight := SkinImageHeight x; SkinData := v;
     Animations := Animations x; CapeImageWidth := CapeImageWidth x;
     CapeImageHeight := CapeImageHeight x; CapeData := CapeData x;
     SkinGeometry := SkinGeometry x; AnimationData := AnimationData x;
     PremiumSkin := PremiumSkin x; PersonaSkin := PersonaSkin x;
     PersonaCapeOnClassicSkin := PersonaCapeOnClassicSkin x;
     CapeID := CapeID x; FullSkinID := FullSkinID x;
     SkinColour := SkinColour x; ArmSize := ArmSize x;
     PersonaPieces := PersonaPieces x;
     PieceTintColours := PieceTintColours x; Trusted := Trusted x |}.
Definition set_Animations (v : list SkinAnimation) (x : Skin) : Skin :=
  {| SkinID := SkinID x; SkinResourcePatch := SkinResourcePatch x;
     SkinImageWidth := SkinImageWidth x;
     SkinImageHeight := SkinImageHeight x; SkinData := SkinData x;
     Animations := v; CapeImageWidth := CapeImageWidth x;
     CapeImageHeight := CapeImageHeight x; CapeData := CapeData x;
     SkinGeometry := SkinGeometry x; AnimationData := AnimationData x;
     PremiumSkin := PremiumSkin x; PersonaSkin := PersonaSkin x;
     PersonaCapeOnClassicSkin := PersonaCapeOnClassicSkin x;
     CapeID := CapeID x; FullSkinID := FullSkinID x;
     SkinColour := SkinColour x; ArmSize := ArmSize x;
     PersonaPieces := PersonaPieces x;
     PieceTintColours := PieceTintColours x; Trusted := Trusted x |}.
Definition set_CapeImageWidth (v : Z) (x : Skin) : Skin :=
  {| SkinID := SkinID x; SkinResourcePatch := SkinResourcePatch x;
     SkinImageWidth := SkinImageWidth x;
     SkinImageHeight := SkinImageHeight x; SkinData := SkinData x;
     Animations := Animations x; CapeImageWidth := v;
     CapeImageHeight := CapeImageHeight x; CapeData := CapeData x;
     SkinGeometry := SkinGeometry x; AnimationData := AnimationData x;
     PremiumSkin := PremiumSkin x; PersonaSkin := PersonaSkin x;
     PersonaCapeOnClassicSkin := PersonaCapeOnClassicSkin x;
     CapeID := CapeID x; FullSkinID := FullSkinID x;
     SkinColour := SkinColour x; ArmSize := ArmSize x;
     PersonaPieces := PersonaPieces x;
     PieceTintColours := PieceTintColours x; Trusted := Trusted x |}.
Definition set_CapeImageHeight (v : Z) (x : Skin) : Skin :=
  {| SkinID := SkinID x; SkinResourcePatch := SkinResourcePatch x;
     SkinImageWidth := SkinImageWidth x;
     SkinImageHeight := SkinImageHeight x; SkinData := SkinData x;
     Animations := Animations x; CapeImageWidth := CapeImageWidth x;
     CapeImageHeight := v; CapeData := CapeData x;
     SkinGeometry := SkinGeometry x; AnimationData := AnimationData x;
     PremiumSkin := PremiumSkin x; PersonaSkin := PersonaSkin x;
     PersonaCapeOnClassicSkin := PersonaCapeOnClassicSkin x;
     CapeID := CapeID x; FullSkinID := FullSkinID x;
     SkinColour := SkinColour x; ArmSize := ArmSize x;
     PersonaPieces := PersonaPieces x;
     PieceTintColours := PieceTintColours x; Trusted := Trusted x |}.
Definition set_CapeData (v : list byte) (x : Skin) : Skin :=
  {| SkinID := SkinID x; SkinResourcePatch := SkinResourcePatch x;
     SkinImageWidth := SkinImageWidth x;
     SkinImageHeight := SkinImageHeight x; SkinData := SkinData x;
     Animations := Animations x; CapeImageWidth := CapeImageWidth x;
     CapeImageHeight := CapeImageHeight x; CapeData := v;
     SkinGeometry := SkinGeometry x; AnimationData := AnimationData x;
     PremiumSkin := PremiumSkin x; PersonaSkin := PersonaSkin x;
     PersonaCapeOnClassicSkin := PersonaCapeOnClassicSkin x;
     CapeID := CapeID x; FullSkinID := FullSkinID x;
     SkinColour := SkinColour x; ArmSize := ArmSize x;
     PersonaPieces := PersonaPieces x;
     PieceTintColours := PieceTintColours x; Trusted := Trusted x |}.
Definition set_SkinGeometry (v : list byte) (x : Skin) : Skin :=
  {| SkinID := SkinID x; SkinResourcePatch := SkinResourcePatch x;
     SkinImageWidth := SkinImageWidth x;
     SkinImageHeight := SkinImageHeight x; SkinData := SkinData x;
     Animations := Animations x; CapeImageWidth := CapeImageWidth x;
     CapeImageHeight := CapeImageHeight x; CapeData := CapeData x;
     SkinGeometry := v; AnimationData := AnimationData x;
     PremiumSkin := PremiumSkin x; PersonaSkin := PersonaSkin x;
     PersonaCapeOnClassicSkin := PersonaCapeOnClassicSkin x;
     CapeID := CapeID x; FullSkinID := FullSkinID x;
     SkinColour := SkinColour x; ArmSize := ArmSize x;
     PersonaPieces := PersonaPieces x;
     PieceTintColours := PieceTintColours x; Trusted := Trusted x |}.
Definition set_AnimationData (v : list byte) (x : Skin) : Skin :=
  {| SkinID := SkinID x; SkinResourcePatch := SkinResourcePatch x;
     SkinImageWidth := SkinImageWidth x;
     SkinImageHeight := SkinImageHeight x; SkinData := SkinData x;
     Animations := Animations x; CapeImageWidth := CapeImageWidth x;
     CapeImageHeight := CapeImageHeight x; CapeData := CapeData x;
     SkinGeometry := SkinGeometry x; AnimationData := v;
     PremiumSkin := PremiumSkin x; PersonaSkin := PersonaSkin x;
     PersonaCapeOnClassicSkin := PersonaCapeOnClassicSkin x;
     CapeID := CapeID x; FullSkinID := FullSkinID x;
     SkinColour := SkinColour x; ArmSize := ArmSize x;
     PersonaPieces := PersonaPieces x;
     PieceTintColours := PieceTintColours x; Trusted := Trusted x |}.
Definition set_PremiumSkin (v : bool) (x : Skin) : Skin :=
  {| SkinID := SkinID x; SkinResourcePatch := SkinResourcePatch x;
     SkinImageWidth := SkinImageWidth x;
     SkinImageHeight := SkinImageHeight x; SkinData := SkinData x;
     Animations := Animations x; CapeImageWidth := CapeImageWidth x;
     CapeImageHeight := CapeImageHeight x; CapeData := CapeData x;
     SkinGeometry := SkinGeometry x; AnimationData := AnimationData x;
     PremiumSkin := v; PersonaSkin := PersonaSkin x;
     PersonaCapeOnClassicSkin := PersonaCapeOnClassicSkin x;
     CapeID := CapeID x; FullSkinID := FullSkinID x;
     SkinColour := SkinColour x; ArmSize := ArmSize x;
     PersonaPieces := PersonaPieces x;
     PieceTintColours := PieceTintColours x; Trusted := Trusted x |}.
Definition set_PersonaSkin (v : bool) (x : Skin) : Skin :=
  {| SkinID := SkinID x; SkinResourcePatch := SkinResourcePatch x;
     SkinImageWidth := SkinImageWidth x;
     SkinImageHeight := SkinImageHeight x; SkinData := SkinData x;
     Animations := Animations x; CapeImageWidth := CapeImageWidth x;
     CapeImageHeight := CapeImageHeight x; CapeData := CapeData x;
     SkinGeometry := SkinGeometry x; AnimationData := AnimationData x;
     PremiumSkin := PremiumSkin x; PersonaSkin := v;
     PersonaCapeOnClassicSkin := PersonaCapeOnClassicSkin x;
     CapeID := CapeID x; FullSkinID := FullSkinID x;
     SkinColour := SkinColour x; ArmSize := ArmSize x;
     PersonaPieces := PersonaPieces x;
     PieceTintColours := PieceTintColours x; Trusted := Trusted x |}.
Definition set_PersonaCapeOnClassicSkin (v : bool) (x : Skin) : Skin :=
  {| SkinID := SkinID x; SkinResourcePatch := SkinResourcePatch x;
     SkinImageWidth := SkinImageWidth x;
     SkinImageHeight := SkinImageHeight x; SkinData := SkinData x;
     Animations := Animations x; CapeImageWidth := CapeImageWidth x;
     CapeImageHeight := CapeImageHeight x; CapeData := CapeData x;
     SkinGeometry := SkinGeometry x; AnimationData := AnimationData x;
     PremiumSkin := PremiumSkin x; PersonaSkin := PersonaSkin x;
     PersonaCapeOnClassicSkin := v; CapeID := CapeID x;
     FullSkinID := FullSkinID x; SkinColour := SkinColour x;
     ArmSize := ArmSize x; PersonaPieces := PersonaPieces x;
     PieceTintColours := PieceTintColours x; Trusted := Trusted x |}.
Definition set_CapeID (v : gostring) (x : Skin) : Skin :=
  {| SkinID := SkinID x; SkinResourcePatch := SkinResourcePatch x;
     SkinImageWidth := SkinImageWidth x;
     SkinImageHeight := SkinImageHeight x; SkinData := SkinData x;
     Animations := Animations x; CapeImageWidth := CapeImageWidth x;
     CapeImageHeight := CapeImageHeight x; CapeData := CapeData x;
     SkinGeometry := SkinGeometry x; AnimationData := AnimationData x;
     PremiumSkin := PremiumSkin x; PersonaSkin := PersonaSkin x;
     PersonaCapeOnClassicSkin := PersonaCapeOnClassicSkin x; CapeID := v;
     FullSkinID := FullSkinID x; SkinColour := SkinColour x;
     ArmSize := ArmSize x; PersonaPieces := PersonaPieces x;
     PieceTintColours := PieceTintColours x; Trusted := Trusted x |}.
Definition set_FullSkinID (v : gostring) (x : Skin) : Skin :=
  {| SkinID := SkinID x; SkinResourcePatch := SkinResourcePatch x;
     SkinImageWidth := SkinImageWidth x;
     SkinImageHeight := SkinImageHeight x; SkinData := SkinData x;
     Animations := Animations x; CapeImageWidth := CapeImageWidth x;
     CapeImageHeight := CapeImageHeight x; CapeData := CapeData x;
     SkinGeometry := SkinGeometry x; AnimationData := AnimationData x;
     PremiumSkin := PremiumSkin x; PersonaSkin := PersonaSkin x;
     PersonaCapeOnClassicSkin := PersonaCapeOnClassicSkin x;
     CapeID := CapeID x; FullSkinID := v; SkinColour := SkinColour x;
     ArmSize := ArmSize x; PersonaPieces := PersonaPieces x;
     PieceTintColours := PieceTintColours x; Trusted := Trusted x |}.
Definition set_SkinColour (v : gostring) (x : Skin) : Skin :=
  {| SkinID := SkinID x; SkinResourcePatch := SkinResourcePatch x;
     SkinImageWidth := SkinImageWidth x;
     SkinImageHeight := SkinImageHeight x; SkinData := SkinData x;
     Animations := Animations x; CapeImageWidth := CapeImageWidth x;
     CapeImageHeight := CapeImageHeight x; CapeData := CapeData x;
     SkinGeometry := SkinGeometry x; AnimationData := AnimationData x;
     PremiumSkin := PremiumSkin x; PersonaSkin := PersonaSkin x;
     PersonaCapeOnClassicSkin := PersonaCapeOnClassicSkin x;
     CapeID := CapeID x; FullSkinID := FullSkinID x; SkinColour := v;
     ArmSize := ArmSize x; PersonaPieces := PersonaPieces x;
     PieceTintColours := PieceTintColours x; Trusted := Trusted x |}.
Definition set_ArmSize (v : gostring) (x : Skin) : Skin :=
  {| SkinID := SkinID x; SkinResourcePatch := SkinResourcePatch x;
     SkinImageWidth := SkinImageWidth x;
     SkinImageHeight := SkinImageHeight x; SkinData := SkinData x;
     Animations := Animations x; CapeImageWidth := CapeImageWidth x;
     CapeImageHeight := CapeImageHeight x; CapeData := CapeData x;
     SkinGeometry := SkinGeometry x; AnimationData := AnimationData x;
     PremiumSkin := PremiumSkin x; PersonaSkin := PersonaSkin x;
     PersonaCapeOnClassicSkin := PersonaCapeOnClassicSkin x;
     CapeID := CapeID x; FullSkinID := FullSkinID x;
     SkinColour := SkinColour x; ArmSize := v;
     PersonaPieces := PersonaPieces x;
     PieceTintColours := PieceTintColours x; Trusted := Trusted x |}.
Definition set_PersonaPieces (v : list PersonaPiece) (x : Skin) : Skin :=
  {| SkinID := SkinID x; SkinResourcePatch := SkinResourcePatch x;
     SkinImageWidth := SkinImageWidth x;
     SkinImageHeight := SkinImageHeight x; SkinData := SkinData x;
     Animations := Animations x; CapeImageWidth := CapeImageWidth x;
     CapeImageHeight := CapeImageHeight x; CapeData := CapeData x;
     SkinGeometry := SkinGeometry x; AnimationData := AnimationData x;
     PremiumSkin := PremiumSkin x; PersonaSkin := PersonaSkin x;
     PersonaCapeOnClassicSkin := PersonaCapeOnClassicSkin x;
     CapeID := CapeID x; FullSkinID := FullSkinID x;
     SkinColour := SkinColour x; ArmSize := ArmSize x; PersonaPieces := v;
     PieceTintColours := PieceTintColours x; Trusted := Trusted x |}.
Definition set_PieceTintColours (v : list PersonaPieceTintColour) (x : Skin) : Skin :=
  {| SkinID := SkinID x; SkinResourcePatch := SkinResourcePatch x;
     SkinImageWidth := SkinImageWidth x;
     SkinImageHeight := SkinImageHeight x; SkinData := SkinData x;
     Animations := Animations x; CapeImageWidth := CapeImageWidth x;
     CapeImageHeight := CapeImageHeight x; CapeData := CapeData x;
     SkinGeometry := SkinGeometry x; AnimationData := AnimationData x;
     PremiumSkin := PremiumSkin x; PersonaSkin := PersonaSkin x;
     PersonaCapeOnClassicSkin := PersonaCapeOnClassicSkin x;
     CapeID := CapeID x; FullSkinID := FullSkinID x;
     SkinColour := SkinColour x; ArmSize := ArmSize x;
     PersonaPieces := PersonaPieces x; PieceTintColours := v;
     Trusted := Trusted x |}.
Definition set_Trusted (v : bool) (x : Skin) : Skin :=
  {| SkinID := SkinID x; SkinResourcePatch := SkinResourcePatch x;
     SkinImageWidth := SkinImageWidth x;
     SkinImageHeight := SkinImageHeight x; SkinData := SkinData x;
     Animations := Animations x; CapeImageWidth := CapeImageWidth x;
     CapeImageHeight := CapeImageHeight x; CapeData := CapeData x;
     SkinGeometry := SkinGeometry x; AnimationData := AnimationData x;
     PremiumSkin := PremiumSkin x; PersonaSkin := PersonaSkin x;
     PersonaCapeOnClassicSkin := PersonaCapeOnClassicSkin x;
     CapeID := CapeID x; FullSkinID := FullSkinID x;
     SkinColour := SkinColour x; ArmSize := ArmSize x;
     PersonaPieces := PersonaPieces x;
     PieceTintColours := PieceTintColours x; Trusted := v |}.

Definition WriteAnimation (x : SkinAnimation) : list byte :=
  write_uint32 (ImageWidth x)
    ++ write_uint32 (ImageHeight x)
    ++ WriteByteSlice (ImageData x)
    ++ write_uint32 (AnimationType x)
    ++ WriteFloat32 (FrameCount x).

Definition Animation : Decoder SkinAnimation :=
  chainErr
    [ field ImageWidth set_ImageWidth read_uint32;
      field ImageHeight set_ImageHeight read_uint32;
      field ImageData set_ImageData ByteSlice;
      field AnimationType set_AnimationType read_uint32;
      field FrameCount set_FrameCount Float32 ].

Definition WriteSkinPiece (x : PersonaPiece) : list byte :=
  WriteString (PieceID x)
    ++ WriteString (piece_PieceType x)
    ++ WriteString (PackID x)
    ++ write_bool (Default x)
    ++ WriteString (ProductID x).

Definition SkinPiece : Decoder PersonaPiece :=
  chainErr
    [ field PieceID set_PieceID String;
      field piece_PieceType set_piece_PieceType String;
      field PackID set_PackID String;
      field Default set_Default read_bool;
      field ProductID set_ProductID String ].

Definition WriteSkinPieceTint (x : PersonaPieceTintColour) : list byte :=
  WriteString (tint_PieceType x)
    ++ write_uint32 (wrap_u 32 (Z.of_nat (length (Colours x))))
    ++ flat_map WriteString (Colours x).

Definition SkinPieceTint : Decoder PersonaPieceTintColour :=
  fun src x =>
    let '(e1, x, s) := field tint_PieceType set_tint_PieceType String src x in
    let '(e2, c, s) := read_uint32 s 0 in
    match first_err e1 e2 with
    | Some e => (Some e, x, s)
    | None =>
        field Colours set_Colours
          (fun s _ => read_each (fun e => e) String (make [] c) s) s x
    end.

(** [validate], on [uint32] arithmetic as the code has it.  Its errors are
    the cross-field check failures, of kind [INVARIANT]. *)
Definition image_ok (height width : Z) (data : list byte) : bool :=
  wrap_u 32 (wrap_u 32 (height * width) * 4)
    =? wrap_u 32 (Z.of_nat (length data)).

Definition validate (skin : Skin) : option error :=
  if negb (image_ok (SkinImageHeight skin) (SkinImageWidth skin) (SkinData skin))
  then Some INVARIANT
  else if negb (image_ok (CapeImageHeight skin) (CapeImageWidth skin) (CapeData skin))
  then Some INVARIANT
  else if forallb (fun animation =>
                     image_ok (ImageHeight animation) (ImageWidth animation)
                       (ImageData animation))
            (Animations skin)
  then None
  else Some INVARIANT.

(** What a call of a writer that may panic leaves behind. *)
Inductive written : Type :=
| Panicked (e : error)
| Wrote (b : list byte) (e : option error).

Definition WriteSerialisedSkin (x : Skin) : written :=
  match validate x with
  | Some err => Panicked err
  | None =>
      Wrote
        (WriteString (SkinID x)
           ++ WriteByteSlice (SkinResourcePatch x)
           ++ write_uint32 (SkinImageWidth x)
           ++ write_uint32 (SkinImageHeight x)
           ++ WriteByteSlice (SkinData x)
           ++ write_uint32 (wrap_u 32 (Z.of_nat (length (Animations x))))
           ++ flat_map WriteAnimation (Animations x)
           ++ write_uint32 (CapeImageWidth x)
           ++ write_uint32 (CapeImageHeight x)
           ++ WriteByteSlice (CapeData x)
           ++ WriteByteSlice (SkinGeometry x)
           ++ WriteByteSlice (AnimationData x)
           ++ write_bool (PremiumSkin x)
           ++ write_bool (PersonaSkin x)
           ++ write_bool (PersonaCapeOnClassicSkin x)
           ++ WriteString (CapeID x)
           ++ WriteString (FullSkinID x)
           ++ WriteString (ArmSize x)
           ++ WriteString (SkinColour x)
           ++ write_uint32 (wrap_u 32 (Z.of_nat (length (PersonaPieces x))))
           ++ flat_map WriteSkinPiece (PersonaPieces x)
           ++ write_uint32 (wrap_u 32 (Z.of_nat (length (PieceTintColours x))))
           ++ flat_map WriteSkinPieceTint (PieceTintColours x))
        None
  end.

Definition SerialisedSkin : Decoder Skin :=
  fun src x =>
    let '(e1, x, s) :=
      chainErr
        [ field SkinID set_SkinID String;
          field SkinResourcePatch set_SkinResourcePatch ByteSlice;
          field SkinImageWidth set_SkinImageWidth read_uint32;
          field SkinImageHeight set_SkinImageHeight read_uint32;
          field SkinData set_SkinData ByteSlice ] src x in
    let '(e2, animationCount, s) := read_uint32 s 0 in
    match first_err e1 e2 with
    | Some e => (Some e, x, s)
    | None =>
    match field Animations set_Animations
            (fun s _ => read_each (fun e => e) Animation
                          (make SkinAnimation_zero animationCount) s) s x with
    | (Some e, x, s) => (Some e, x, s)
    | (None, x, s) =>
    let '(e1, x, s) :=
      chainErr
        [ field CapeImageWidth set_CapeImageWidth read_uint32;
          field CapeImageHeight set_CapeImageHeight read_uint32;
          field CapeData set_CapeData ByteSlice;
          field SkinGeometry set_SkinGeometry ByteSlice;
          field AnimationData set_AnimationData ByteSlice;
          field PremiumSkin set_PremiumSkin read_bool;
          field PersonaSkin set_PersonaSkin read_bool;
          field PersonaCapeOnClassicSkin set_PersonaCapeOnClassicSkin read_bool;
          field CapeID set_CapeID String;
          field FullSkinID set_FullSkinID String;
          field ArmSize set_ArmSize String;
          field SkinColour set_SkinColour String ] s x in
    let '(e2, c, s) := read_uint32 s 0 in
    match first_err e1 e2 with
    | Some e => (Some e, x, s)
    | None =>
    match field PersonaPieces set_PersonaPieces
            (fun s _ => read_each (fun e => e) SkinPiece
                          (make PersonaPiece_zero c) s) s x with
    | (Some e, x, s) => (Some e, x, s)
    | (None, x, s) =>
    match read_uint32 s c with
    | (Some e, _, s) => (Some e, x, s)
    | (None, c, s) =>
    match field PieceTintColours set_PieceTintColours
            (fun s _ => read_each (fun e => e) SkinPieceTint
                          (make PersonaPieceTintColour_zero c) s) s x with
    | (Some e, x, s) => (Some e, x, s)
    | (None, x, s) => (validate x, x, s)
    end end end end end end.

(** ** The little-endian NBT codec, as the specification describes it *)

(** The package [nbt] is not under src/.  [SpecNbt] is its little-endian
    fixed-width variant as section 4.4 of the specification describes it; it
    gives the item codec a codec to run with. *)
Module SpecNbt.

(** Modelled from the spec: [n] raw bytes, none when the cursor is short. *)
Definition take (n : nat) (src : buf) : option (list byte * buf) :=
  if (length src <? n)%nat then None else Some (firstn n src, skipn n src).

(** Modelled from the spec: a little-endian integer of [n] bytes. *)
Definition fixed (n : nat) (conv : Z -> Z) (src : buf) : option (Z * buf) :=
  match take n src with
  | Some (bs, s) => Some (conv (le_value bs), s)
  | None => None
  end.

(** Modelled from the spec: a string, "u16 LE for strings". *)
Definition name (src : buf) : option (gostring * buf) :=
  match fixed 2 (fun z => z) src with
  | Some (len, s) => take (Z.to_nat len) s
  | None => None
  end.

(** Modelled from the spec: [n] elements one after the other. *)
Fixpoint many {A} (rd : buf -> option (A * buf)) (n : nat) (src : buf)
  : option (list A * buf) :=
  match n with
  | O => Some ([], src)
  | S n' =>
      match rd src with
      | Some (a, s) =>
          match many rd n' s with
          | Some (l, s') => Some (a :: l, s')
          | None => None
          end
      | None => None
      end
  end.

(** Modelled from the spec: "i32 LE for list/array length", then the
    elements; a negative length is an error. *)
Definition counted {A} (rd : buf -> option (A * buf)) (src : buf)
  : option (list A * buf) :=
  match fixed 4 (wrap_s 32) src with
  | Some (len, s) => if len <? 0 then None else many rd (Z.to_nat len) s
  | None => None
  end.

(** Modelled from the spec: one byte. *)
Definition one (src : buf) : option (byte * buf) :=
  match src with
  | [] => None
  | b :: s => Some (b, s)
  end.

(** Modelled from the spec: the value read, under its tag. *)
Definition lift {A B} (f : A -> B) (r : option (A * buf)) : option (B * buf) :=
  match r with
  | Some (a, s) => Some (f a, s)
  | None => None
  end.

(** Modelled from the spec: the payload of a tag, by tag ID 1 to 12.
    "Payload readers recurse for List and Compound.  For List, read a tag
    byte (element kind), a length, then that many bare elements"; "a compound
    is a sequence of (tag byte, name, payload) entries terminated by a lone
    End tag".  [depth] is what is left of the nesting depth. *)
Fixpoint payload (depth : nat) (tag : Z) (src : buf) : option (NBT * buf) :=
  match depth with
  | O => None
  | S d =>
      if tag =? 1 then lift TagByte (one src)
      else if tag =? 2 then lift TagShort (fixed 2 (wrap_s 16) src)
      else if tag =? 3 then lift TagInt (fixed 4 (wrap_s 32) src)
      else if tag =? 4 then lift TagLong (fixed 8 (wrap_s 64) src)
      else if tag =? 5 then lift TagFloat (fixed 4 (fun z => z) src)
      else if tag =? 6 then lift TagDouble (fixed 8 (fun z => z) src)
      else if tag =? 7 then lift TagByteArray (counted one src)
      else if tag =? 8 then lift TagString (name src)
      else if tag =? 9 then
        match one src with
        | Some (kind, s) =>
            lift (TagList kind) (counted (payload d (byte_val kind)) s)
        | None => None
        end
      else if tag =? 10 then
        lift TagCompound
          ((fix entries (fuel : nat) (src : buf)
              : option (list (gostring * NBT) * buf) :=
              match fuel, src with
              | S fuel', t :: s =>
                  if byte_val t =? 0 then Some ([], s)
                  else
                    match name s with
                    | Some (k, s) =>
                        match payload d (byte_val t) s with
                        | Some (v, s) =>
                            lift (cons (k, v)) (entries fuel' s)
                        | None => None
                        end
                    | None => None
                    end
              | _, _ => None
              end) (length src) src)
      else if tag =? 11 then lift TagIntArray (counted (fixed 4 (wrap_s 32)) src)
      else if tag =? 12 then lift TagLongArray (counted (fixed 8 (wrap_s 64)) src)
      else None
  end.

(** Modelled from the spec: "a maximum nesting depth (default 512)". *)
Definition maxDepth : nat := 512.

(** Modelled from the spec: one named tag from the top of a stream.  "Read
    one tag byte.  If End at the top level [...] that is an error [...].
    Otherwise read a name (length-prefixed string) then the payload for that
    tag." *)
Definition value (src : buf) : option (NBT * buf) :=
  match src with
  | [] => None
  | t :: s =>
      if byte_val t =? 0 then None
      else
        match name s with
        | Some (_, s) => payload maxDepth (byte_val t) s
        | None => None
        end
  end.

(** Modelled from the spec: binding a decoded compound to the untyped
    holder, a "mapping keyed by string": each entry is stored under its name,
    a later one replacing an earlier one of the same name. *)
Fixpoint store (k : gostring) (v : NBT) (m : NBTData) : NBTData :=
  match m with
  | [] => [(k, v)]
  | (k', v') :: m' =>
      if list_eq_dec Byte.byte_eq_dec k k' then (k, v) :: m'
      else (k', v') :: store k v m'
  end.

(** Modelled from the spec: only a compound binds to the untyped holder. *)
Definition bind (v : NBT) (m : NBTData) : option NBTData :=
  match v with
  | TagCompound es => Some (fold_left (fun m e => store (fst e) (snd e) m) es m)
  | _ => None
  end.

(** Modelled from the spec: "decode(variant, cursor, out)" for the untyped
    holder.  A failure is a format error; where it leaves the cursor is not
    specified. *)
Definition Decode : Decoder NBTData :=
  fun src m =>
    match value src with
    | Some (v, s) =>
        match bind v m with
        | Some m' => (None, m', s)
        | None => (Some MALFORMED, m, s)
        end
    | None => (Some MALFORMED, m, src)
    end.

(** Modelled from the spec: the same on a byte slice of its own. *)
Definition UnmarshalEncoding (data : list byte) (m : NBTData)
  : option error * NBTData :=
  let '(e, m', _) := Decode data m in (e, m').

(** Modelled from the spec: "Tag IDs are the integers 0..12 in that order". *)
Definition tag_of (v : NBT) : byte :=
  match v with
  | TagByte _ => x01 | TagShort _ => x02 | TagInt _ => x03 | TagLong _ => x04
  | TagFloat _ => x05 | TagDouble _ => x06 | TagByteArray _ => x07
  | TagString _ => x08 | TagList _ _ => x09 | TagCompound _ => x0a
  | TagIntArray _ => x0b | TagLongArray _ => x0c
  end.

(** Modelled from the spec: a string with its u16 length. *)
Definition put_name (k : gostring) : list byte :=
  le_bytes 2 (Z.of_nat (length k)) ++ k.

(** Modelled from the spec: an array with its i32 length. *)
Definition put_counted {A} (put : A -> list byte) (l : list A) : list byte :=
  le_bytes 4 (Z.of_nat (length l)) ++ flat_map put l.

(** Modelled from the spec: "Encoding mirrors decoding; a Compound emits its
    entries in insertion order, then a single End byte with no name." *)
Fixpoint put (v : NBT) : list byte :=
  match v with
  | TagByte b => [b]
  | TagShort z => le_bytes 2 z
  | TagInt z => le_bytes 4 z
  | TagLong z => le_bytes 8 z
  | TagFloat z => le_bytes 4 z
  | TagDouble z => le_bytes 8 z
  | TagByteArray l => put_counted (fun b => [b]) l
  | TagString s => put_name s
  | TagList kind l =>
      kind :: le_bytes 4 (Z.of_nat (length l))
        ++ (fix elems (l : list NBT) : list byte :=
              match l with
              | [] => []
              | e :: l' => put e ++ elems l'
              end) l
  | TagCompound es =>
      (fix entries (es : list (gostring * NBT)) : list byte :=
         match es with
         | [] => [x00]
         | (k, e) :: es' => tag_of e :: put_name k ++ put e ++ entries es'
         end) es
  | TagIntArray l => put_counted (le_bytes 4) l
  | TagLongArray l => put_counted (le_bytes 8) l
  end.

(** Modelled from the spec: "encode(variant, sink, in)" for the untyped
    holder, a compound with the empty name. *)
Definition Marshal (m : NBTData) : option (list byte) :=
  Some (x0a :: put_name [] ++ put (TagCompound m)).

(** The three entry points the item codec uses. *)
Definition codec : NbtCodec :=
  {| nbt_Decode := Decode;
     nbt_UnmarshalEncoding := UnmarshalEncoding;
     nbt_Marshal := Marshal |}.

End SpecNbt.

(** ** Well-formed values and canonical forms *)

(** The values a codec is meant for: integers within the range of their Go
    type, and lengths that the [uint32] length prefix can carry. *)
Definition wf_EntityLink (x : EntityLink) : Prop :=
  in_s 64 (RiddenEntityUniqueID x) /\ in_s 64 (RiderEntityUniqueID x).

Definition fits_uint32 {A} (l : list A) : Prop := Z.of_nat (length l) < 2 ^ 32.

Definition wf_ItemEnchantments (x : ItemEnchantments) : Prop :=
  in_s 32 (Slot x)
  /\ fits_uint32 (Enchantments0 x)
  /\ fits_uint32 (Enchantments1 x)
  /\ fits_uint32 (Enchantments2 x).

Definition wf_EnchantmentOption (x : EnchantmentOption) : Prop :=
  in_u 32 (Cost x)
  /\ wf_ItemEnchantments (Enchantments x)
  /\ fits_uint32 (Name x)
  /\ in_u 32 (RecipeNetworkID x).

(** The canonical wire form of an item stack without NBT: every varint in
    its shortest form, the NBT marker 0, and, for a shield, the blocking tick
    0. *)
Definition canonical_blocks (blocks : list gostring) : list byte :=
  WriteVarint32 (Z.of_nat (length blocks)) ++ flat_map WriteString blocks.

Definition canonical_item (networkID auxValue : Z)
  (canBePlacedOn canBreak : list gostring) : list byte :=
  WriteVarint32 networkID
    ++ (if networkID =? 0 then []
        else WriteVarint32 auxValue
               ++ write_int16 0
               ++ canonical_blocks canBePlacedOn
               ++ canonical_blocks canBreak
               ++ (if networkID =? shieldID then WriteVarint64 0 else [])).

Definition wf_blocks (blocks : list gostring) : Prop :=
  Z.of_nat (length blocks) <= higherLimit /\ Forall fits_uint32 blocks.

(** A skin reader that leaves [Trusted] as it found it. *)
Definition keeps_Trusted (d : Decoder Skin) : Prop :=
  forall src x, Trusted (dec_val (d src x)) = Trusted x.

(** Sample values: the entity link of scenario S5 and an enchantment
    option. *)
Definition link_S5 : EntityLink :=
  {| RiddenEntityUniqueID := -1; RiderEntityUniqueID := 2; link_Type := x01;
     Immediate := false; RiderInitiated := true |}.

Definition option_sharpness : EnchantmentOption :=
  {| Cost := 3;
     Enchantments :=
       {| Slot := 16; Enchantments0 := [];
          Enchantments1 := [ {| ench_Type := x09; Level := x02 |} ];
          Enchantments2 := [] |};
     Name := [x61; x62];
     RecipeNetworkID := 300 |}.


(** ** Packets (package [packet]) *)

(** [Marshal] ignores the errors of its writes, which cannot fail on a
    [bytes.Buffer]: it is the list of bytes it appends.  [Unmarshal] chains
    its reads with the [chainErr] of the package, the same function as the
    one of [protocol]. *)

Record ActorEvent : Type := {
  EntityRuntimeID : Z;        (* uint64 *)
  EventType : byte;
  EventData : Z               (* int32 *)
}.

Definition ActorEvent_zero : ActorEvent :=
  {| EntityRuntimeID := 0; EventType := x00; EventData := 0 |}.

Definition set_EntityRuntimeID (v : Z) (pk : ActorEvent) : ActorEvent :=
  {| EntityRuntimeID := v; EventType := EventType pk; EventData := EventData pk |}.
Definition set_EventType (v : byte) (pk : ActorEvent) : ActorEvent :=
  {| EntityRuntimeID := EntityRuntimeID pk; EventType := v;
     EventData := EventData pk |}.
Definition set_EventData (v : Z) (pk : ActorEvent) : ActorEvent :=
  {| EntityRuntimeID := EntityRuntimeID pk; EventType := EventType pk;
     EventData := v |}.

Definition ActorEvent_Marshal (pk : ActorEvent) : list byte :=
  WriteVaruint64 (EntityRuntimeID pk)
    ++ write_byte (EventType pk)
    ++ WriteVarint32 (EventData pk).

Definition ActorEvent_Unmarshal : Decoder ActorEvent :=
  chainErr
    [ field EntityRuntimeID set_EntityRuntimeID Varuint64;
      field EventType set_EventType read_byte;
      field EventData set_EventData Varint32 ].

Record DebugInfo : Type := {
  PlayerUniqueID : Z;         (* int64 *)
  Data : list byte
}.

Definition DebugInfo_zero : DebugInfo := {| PlayerUniqueID := 0; Data := [] |}.

Definition set_PlayerUniqueID (v : Z) (pk : DebugInfo) : DebugInfo :=
  {| PlayerUniqueID := v; Data := Data pk |}.
Definition set_Data (v : list byte) (pk : DebugInfo) : DebugInfo :=
  {| PlayerUniqueID := PlayerUniqueID pk; Data := v |}.

Definition DebugInfo_Marshal (pk : DebugInfo) : list byte :=
  WriteVarint64 (PlayerUniqueID pk) ++ WriteByteSlice (Data pk).

Definition DebugInfo_Unmarshal : Decoder DebugInfo :=
  chainErr
    [ field PlayerUniqueID set_PlayerUniqueID Varint64;
      field Data set_Data ByteSlice ].

(** [protocol.BlockPos], [protocol.UBlockPosition] and
    [protocol.WriteUBlockPosition] are not under src/: the packet takes the
    type and the two functions as parameters. *)
Record SetSpawnPosition (BlockPos : Type) : Type := {
  SpawnType : Z;              (* int32 *)
  Position : BlockPos;
  Dimension : Z;              (* int32 *)
  SpawnPosition : BlockPos
}.
Arguments SpawnType {BlockPos} _.
Arguments Position {BlockPos} _.
Arguments Dimension {BlockPos} _.
Arguments SpawnPosition {BlockPos} _.

Definition set_SpawnType {BlockPos} (v : Z) (pk : SetSpawnPosition BlockPos) :=
  {| SpawnType := v; Position := Position pk; Dimension := Dimension pk;
     SpawnPosition := SpawnPosition pk |}.
Definition set_Position {BlockPos} (v : BlockPos) (pk : SetSpawnPosition BlockPos) :=
  {| SpawnType := SpawnType pk; Position := v; Dimension := Dimension pk;
     SpawnPosition := SpawnPosition pk |}.
Definition set_Dimension {BlockPos} (v : Z) (pk : SetSpawnPosition BlockPos) :=
  {| SpawnType := SpawnType pk; Position := Position pk; Dimension := v;
     SpawnPosition := SpawnPosition pk |}.
Definition set_SpawnPosition {BlockPos} (v : BlockPos) (pk : SetSpawnPosition BlockPos) :=
  {| SpawnType := SpawnType pk; Position := Position pk;
     Dimension := Dimension pk; SpawnPosition := v |}.

Definition SetSpawnPosition_Marshal {BlockPos}
  (WriteUBlockPosition : BlockPos -> list byte)
  (pk : SetSpawnPosition BlockPos) : list byte :=
  WriteVarint32 (SpawnType pk)
    ++ WriteUBlockPosition (Position pk)
    ++ WriteVarint32 (Dimension pk)
    ++ WriteUBlockPosition (SpawnPosition pk).

Definition SetSpawnPosition_Unmarshal {BlockPos}
  (UBlockPosition : Decoder BlockPos) : Decoder (SetSpawnPosition BlockPos) :=
  chainErr
    [ field SpawnType set_SpawnType Varint32;
      field Position set_Position UBlockPosition;
      field Dimension set_Dimension Varint32;
      field SpawnPosition set_SpawnPosition UBlockPosition ].

(** [protocol.CreativeItem], [protocol.CreativeEntry] and
    [protocol.WriteCreativeEntry] are not under src/: [CreativeContent] takes
    the type, its zero value and the two functions as parameters.  The packet
    has the one field [Items]. *)
Definition CreativeContent_Marshal {CreativeItem}
  (WriteCreativeEntry : CreativeItem -> list byte)
  (Items : list CreativeItem) : list byte :=
  WriteVaruint32 (wrap_u 32 (Z.of_nat (length Items)))
    ++ flat_map WriteCreativeEntry Items.

Definition CreativeContent_Unmarshal {CreativeItem} (zero : CreativeItem)
  (CreativeEntry : Decoder CreativeItem) : Decoder (list CreativeItem) :=
  fun buf Items =>
    match Varuint32 buf 0 with
    | (Some err, _, s) => (Some err, Items, s)
    | (None, count, s) =>
        read_each (fun err => err) CreativeEntry (make zero count) s
    end.

(** ** The packet registry *)

(** A Go map with [uint32] keys, as the list of its entries, one for each
    key.  [map_set] is the assignment [m[k] = v]. *)
Definition gomap (A : Type) : Type := list (Z * A).

Fixpoint map_get {A} (k : Z) (m : gomap A) : option A :=
  match m with
  | [] => None
  | (k', v) :: m' => if k' =? k then Some v else map_get k m'
  end.

Fixpoint map_set {A} (k : Z) (v : A) (m : gomap A) : gomap A :=
  match m with
  | [] => [(k, v)]
  | (k', v') :: m' =>
      if k' =? k then (k, v) :: m' else (k', v') :: map_set k v m'
  end.

(** [Register] assigns into the package variable [registeredPackets], which
    is threaded through as an argument.  A [func() Packet] is a function from
    [unit]. *)
Definition Register {Packet} (id : Z) (pk : unit -> Packet)
  (registeredPackets : gomap (unit -> Packet)) : gomap (unit -> Packet) :=
  map_set id pk registeredPackets.

(** [NewPool]: the map literal, whose keys are packet ID constants that are
    not under src/, is the parameter [literal]; the loop over
    [registeredPackets] assigns [p[id] = pk()] for each of its entries. *)
Definition NewPool {Packet} (literal : gomap Packet)
  (registeredPackets : gomap (unit -> Packet)) : gomap Packet :=
  fold_left (fun p e => map_set (fst e) (snd e tt) p) registeredPackets literal.

(** The package variable after a series of [Register] calls, starting from
    the empty map it is initialised with. *)
Definition registered {Packet} (calls : list (Z * (unit -> Packet)))
  : gomap (unit -> Packet) :=
  fold_left (fun m c => Register (fst c) (snd c) m) calls [].

(** The constructor the last call of [Register] for [id] passed, if any. *)
Definition last_registered {Packet} (id : Z) (calls : list (Z * (unit -> Packet)))
  : option (unit -> Packet) :=
  option_map snd (find (fun c => fst c =? id) (rev calls)).

(** ** More well-formed values *)

(** An item stack whose aux value survives [WriteItem]: the metadata fits
    the eight bits the sixteen-bit shift leaves it, the count one byte. *)
Definition wf_plain_ItemStack (x : ItemStack) : Prop :=
  in_s 32 (NetworkID x)
  /\ -128 <= MetadataValue x <= 127
  /\ 0 <= Count x <= 255
  /\ NBTData_of x = []
  /\ wf_blocks (CanBePlacedOn x)
  /\ wf_blocks (CanBreak x).

Definition wf_SkinAnimation (x : SkinAnimation) : Prop :=
  in_u 32 (ImageWidth x) /\ in_u 32 (ImageHeight x)
  /\ fits_uint32 (ImageData x)
  /\ in_u 32 (AnimationType x) /\ in_u 32 (FrameCount x).

Definition wf_PersonaPiece (x : PersonaPiece) : Prop :=
  fits_uint32 (PieceID x) /\ fits_uint32 (piece_PieceType x)
  /\ fits_uint32 (PackID x) /\ fits_uint32 (ProductID x).

Definition wf_PersonaPieceTintColour (x : PersonaPieceTintColour) : Prop :=
  fits_uint32 (tint_PieceType x)
  /\ fits_uint32 (Colours x) /\ Forall fits_uint32 (Colours x).

Definition wf_Skin (x : Skin) : Prop :=
  fits_uint32 (SkinID x) /\ fits_uint32 (SkinResourcePatch x)
  /\ in_u 32 (SkinImageWidth x) /\ in_u 32 (SkinImageHeight x)
  /\ fits_uint32 (SkinData x)
  /\ fits_uint32 (Animations x) /\ Forall wf_SkinAnimation (Animations x)
  /\ in_u 32 (CapeImageWidth x) /\ in_u 32 (CapeImageHeight x)
  /\ fits_uint32 (CapeData x) /\ fits_uint32 (SkinGeometry x)
  /\ fits_uint32 (AnimationData x)
  /\ fits_uint32 (CapeID x) /\ fits_uint32 (FullSkinID x)
  /\ fits_uint32 (ArmSize x) /\ fits_uint32 (SkinColour x)
  /\ fits_uint32 (PersonaPieces x) /\ Forall wf_PersonaPiece (PersonaPieces x)
  /\ fits_uint32 (PieceTintColours x)
  /\ Forall wf_PersonaPieceTintColour (PieceTintColours x).

(** A reader that never answers [LIMIT]. *)
Definition no_limit {X} (d : Decoder X) : Prop :=
  forall s x, is_limit (dec_err (d s x)) = false.

(** ** A block position codec to run [SetSpawnPosition] with *)

Module SpecBlockPos.

(** Modelled from the spec: [protocol.BlockPos] is not under src/.
    "BlockPos: triple (x: varint, y: varint, z: varint)". *)
Record BlockPos : Type := { X : Z; Y : Z; Z_ : Z }.

Definition set_X (v : Z) (p : BlockPos) := {| X := v; Y := Y p; Z_ := Z_ p |}.
Definition set_Y (v : Z) (p : BlockPos) := {| X := X p; Y := v; Z_ := Z_ p |}.
Definition set_Z (v : Z) (p : BlockPos) := {| X := X p; Y := Y p; Z_ := v |}.

(** Modelled from the spec: [protocol.UBlockPosition] is not under src/.
    "UBlockPos: (x: varint, y: varuint, z: varint)". *)
Definition UBlockPosition : Decoder BlockPos :=
  chainErr [ field X set_X Varint32; field Y set_Y Varuint32;
             field Z_ set_Z Varint32 ].

(** Modelled from the spec: [protocol.WriteUBlockPosition] is not under
    src/; the same three fields. *)
Definition WriteUBlockPosition (p : BlockPos) : list byte :=
  WriteVarint32 (X p) ++ WriteVaruint32 (Y p) ++ WriteVarint32 (Z_ p).

End SpecBlockPos.

(** ** More sample values *)

Definition stone : gostring := [x73; x74; x6f; x6e; x65].

Definition stack_pickaxe : ItemStack :=
  {| ItemStack_ItemType := {| NetworkID := 278; MetadataValue := 5 |};
     Count := 1; NBTData_of := []; CanBePlacedOn := []; CanBreak := [stone] |}.

Definition skin_sample : Skin :=
  {| SkinID := [x61]; SkinResourcePatch := [x7b; x7d];
     SkinImageWidth := 1; SkinImageHeight := 2;
     SkinData := [x01; x02; x03; x04; x05; x06; x07; x08];
     Animations :=
       [ {| ImageWidth := 1; ImageHeight := 1;
            ImageData := [xff; xff; xff; xff];
            AnimationType := 1; FrameCount := 1065353216 |} ];
     CapeImageWidth := 0; CapeImageHeight := 0; CapeData := [];
     SkinGeometry := []; AnimationData := [];
     PremiumSkin := false; PersonaSkin := true;
     PersonaCapeOnClassicSkin := false;
     CapeID := []; FullSkinID := [x61]; SkinColour := [x23; x30];
     ArmSize := [x77];
     PersonaPieces :=
       [ {| PieceID := [x70]; piece_PieceType := [x74]; PackID := [];
            Default := true; ProductID := [] |} ];
     PieceTintColours :=
       [ {| tint_PieceType := [x74]; Colours := [[x23; x30]; [x23; x31]] |} ];
     Trusted := false |}.

Definition skin_sample_bytes : list byte :=
  match WriteSerialisedSkin skin_sample with
  | Wrote b _ => b
  | Panicked _ => []
  end.

(** * Properties *)

(** ** The scenarios of the specification *)

Example scenario_S1_air :
  Item SpecNbt.codec [x00] ItemStack_zero = (None, ItemStack_zero, [])
  /\ WriteItem SpecNbt.codec ItemStack_zero = ([x00], None).
Proof. split; reflexivity. Qed.

Example scenario_S3_overflow :
  dec_err (Varuint32 [xff; xff; xff; xff; xff; xff; xff; xff; xff; xff; x01] 0)
  = Some MALFORMED.
Proof. reflexivity. Qed.

Example scenario_S4_empty_list :
  SpecNbt.value [x0a; x00; x00; x09; x01; x00; x6c; x00; x00; x00; x00; x00; x00]
  = Some (TagCompound [([x6c], TagList x00 [])], [])
  /\ SpecNbt.Marshal [([x6c], TagList x00 [])]
     = Some [x0a; x00; x00; x09; x01; x00; x6c; x00; x00; x00; x00; x00; x00].
Proof. split; reflexivity. Qed.

Example scenario_S5_entity_link :
  WriteEntityLinkAction link_S5 = [x01; x04; x01; x00; x01].
Proof. reflexivity. Qed.

(** ** Bytes *)

Lemma byte_val_range (b : byte) : 0 <= byte_val b < 256.
Proof.
  unfold byte_val. pose proof (Byte.to_N_bounded b). lia.
Qed.

Lemma byte_val_of (z : Z) : byte_val (byte_of z) = z mod 256.
Proof.
  unfold byte_val, byte_of.
  assert (Hr : 0 <= z mod 256 < 256) by (apply Z.mod_pos_bound; lia).
  destruct (Byte.of_N (Z.to_N (z mod 256))) as [b|] eqn:E.
  - apply Byte.to_of_N in E. rewrite E. lia.
  - apply Byte.of_N_None_iff in E. lia.
Qed.

Lemma byte_of_val (b : byte) : byte_of (byte_val b) = b.
Proof.
  unfold byte_of, byte_val.
  pose proof (Byte.to_N_bounded b) as Hb.
  rewrite Z.mod_small by lia.
  rewrite N2Z.id, Byte.of_to_N. reflexivity.
Qed.

(** ** Lists *)

Lemma firstn_exact {A} (l r : list A) : firstn (length l) (l ++ r) = l.
Proof. induction l as [|a l IH]; simpl; [now destruct r | now rewrite IH]. Qed.

Lemma skipn_exact {A} (l r : list A) : skipn (length l) (l ++ r) = r.
Proof. induction l as [|a l IH]; simpl; [reflexivity | exact IH]. Qed.

Lemma short_app_false {A} (l r : list A) :
  (length (l ++ r) <? length l)%nat = false.
Proof. apply Nat.ltb_ge. rewrite length_app. lia. Qed.

(** ** Fixed-width values *)

Lemma le_bytes_length (n : nat) (z : Z) : length (le_bytes n z) = n.
Proof.
  revert z. induction n as [|n IH]; intros z; simpl; [reflexivity|].
  now rewrite IH.
Qed.

Lemma le_value_le_bytes (n : nat) (z : Z) :
  le_value (le_bytes n z) = z mod 2 ^ (8 * Z.of_nat n).
Proof.
  revert z. induction n as [|n IH]; intros z.
  - simpl. now rewrite Z.mod_1_r.
  - cbn [le_bytes le_value]. rewrite byte_val_of, IH, Z.shiftr_div_pow2 by lia.
    replace (8 * Z.of_nat (S n)) with (8 + 8 * Z.of_nat n) by lia.
    rewrite Z.pow_add_r by lia. change (2 ^ 8) with 256.
    rewrite Z.rem_mul_r by lia. reflexivity.
Qed.

Lemma read_fixed_le_bytes (n : nat) (conv : Z -> Z) (z : Z) (rest : buf) (x : Z) :
  read_fixed n conv (le_bytes n z ++ rest) x
  = (None, conv (z mod 2 ^ (8 * Z.of_nat n)), rest).
Proof.
  unfold read_fixed.
  pose proof (le_bytes_length n z) as Hl.
  pose proof (le_value_le_bytes n z) as Hv.
  revert Hl Hv. generalize (le_bytes n z). intros bs Hl Hv.
  rewrite <- Hv. subst n.
  now rewrite short_app_false, firstn_exact, skipn_exact.
Qed.

Lemma wrap_s_id (bits z : Z) : 0 < bits -> in_s bits z -> wrap_s bits z = z.
Proof.
  unfold wrap_s, in_s. intros Hb Hz.
  assert (2 ^ bits = 2 * 2 ^ (bits - 1)).
  { replace bits with (1 + (bits - 1)) at 1 by lia.
    rewrite Z.pow_add_r by lia. reflexivity. }
  rewrite Z.mod_small; lia.
Qed.

Lemma wrap_s_mod (bits z : Z) :
  0 < bits -> wrap_s bits (z mod 2 ^ bits) = wrap_s bits z.
Proof.
  intros Hb. unfold wrap_s. f_equal.
  rewrite Zplus_mod_idemp_l. reflexivity.
Qed.

Lemma wrap_s_range (bits z : Z) : 0 < bits -> in_s bits (wrap_s bits z).
Proof.
  unfold wrap_s, in_s. intros Hb.
  assert (2 ^ bits = 2 * 2 ^ (bits - 1)).
  { replace bits with (1 + (bits - 1)) at 1 by lia.
    rewrite Z.pow_add_r by lia. reflexivity. }
  assert (0 < 2 ^ (bits - 1)) by (apply Z.pow_pos_nonneg; lia).
  pose proof (Z.mod_pos_bound (z + 2 ^ (bits - 1)) (2 ^ bits)). lia.
Qed.

Lemma read_uint32_write (z : Z) (rest : buf) (x : Z) :
  in_u 32 z -> read_uint32 (write_uint32 z ++ rest) x = (None, z, rest).
Proof.
  intros Hz. unfold read_uint32, write_uint32.
  rewrite read_fixed_le_bytes. change (8 * Z.of_nat 4) with 32.
  unfold in_u in Hz. now rewrite Z.mod_small.
Qed.

Lemma read_int32_write (z : Z) (rest : buf) (x : Z) :
  in_s 32 z -> read_int32 (write_int32 z ++ rest) x = (None, z, rest).
Proof.
  intros Hz. unfold read_int32, write_int32.
  rewrite read_fixed_le_bytes. change (8 * Z.of_nat 4) with 32.
  now rewrite wrap_s_mod, wrap_s_id by (auto; lia).
Qed.

Lemma read_bool_write (b : bool) (rest : buf) (x : bool) :
  read_bool (write_bool b ++ rest) x = (None, b, rest).
Proof. destruct b; reflexivity. Qed.

Lemma read_byte_write (b : byte) (rest : buf) (x : byte) :
  read_byte (write_byte b ++ rest) x = (None, b, rest).
Proof. reflexivity. Qed.

(** ** Varints *)

Lemma byte_continuation (b : byte) :
  (Z.land (byte_val b) 128 =? 0) = (byte_val b <? 128).
Proof. destruct b; reflexivity. Qed.

Lemma byte_low7 (b : byte) : Z.land (byte_val b) 127 = byte_val b mod 128.
Proof. destruct b; reflexivity. Qed.

Lemma byte_set_high (b : byte) :
  Z.lor (byte_val b) 128 = byte_val b mod 128 + 128.
Proof. destruct b; reflexivity. Qed.

Lemma lor_high_byte (ux : Z) : Z.lor ux 128 mod 256 = ux mod 128 + 128.
Proof.
  change 256 with (2 ^ 8).
  rewrite <- Z.land_ones, Z.land_lor_distr_l, Z.land_ones by lia.
  change (Z.land 128 (Z.ones 8)) with 128. change (2 ^ 8) with 256.
  rewrite <- byte_val_of, byte_set_high, byte_val_of.
  f_equal. Z.div_mod_to_equations. lia.
Qed.

Lemma land_low_high (v k i : Z) :
  0 <= i -> 0 <= v < 2 ^ i -> Z.land v (Z.shiftl k i) = 0.
Proof.
  intros Hi Hv. apply Z.bits_inj'. intros n Hn.
  rewrite Z.land_spec, Z.bits_0.
  destruct (Z.ltb_spec n i) as [Hlt|Hge].
  - rewrite Z.shiftl_spec_low by lia. apply andb_false_r.
  - rewrite <- (Z.mod_small v (2 ^ i)) by lia.
    rewrite Z.mod_pow2_bits_high by lia. reflexivity.
Qed.

Lemma lor_shiftl_add (v k i : Z) :
  0 <= i -> 0 <= v < 2 ^ i -> Z.lor v (Z.shiftl k i) = v + k * 2 ^ i.
Proof.
  intros Hi Hv.
  rewrite <- (Z.shiftl_mul_pow2 k i), <- Z.add_lor_land by lia.
  rewrite land_low_high by lia. lia.
Qed.

Lemma put_varuint_S (n : nat) (ux : Z) :
  put_varuint (S n) ux
  = if ux <? 128 then [byte_of ux]
    else byte_of (Z.lor ux 128) :: put_varuint n (Z.shiftr ux 7).
Proof. reflexivity. Qed.

Lemma varuint_loop_cons (bits : Z) (n : nat) (i v : Z) (b : byte) (s : buf) (x : Z) :
  varuint_loop bits (S n) i v (b :: s) x
  = let v' := wrap_u bits (Z.lor v (Z.shiftl (byte_val b mod 128) i)) in
    if byte_val b <? 128 then (None, v', s)
    else varuint_loop bits n (i + 7) v' s x.
Proof. cbn [varuint_loop]. now rewrite byte_continuation, byte_low7. Qed.

Lemma varuint_loop_put (bits : Z) (n : nat) :
  forall (i v ux : Z) (rest : buf) (x : Z),
    0 <= i -> 0 <= v < 2 ^ i ->
    0 <= ux < 2 ^ (7 * Z.of_nat (S n)) ->
    v + ux * 2 ^ i < 2 ^ bits ->
    varuint_loop bits (S n) i v (put_varuint (S n) ux ++ rest) x
    = (None, v + ux * 2 ^ i, rest).
Proof.
  induction n as [|n IH]; intros i v ux rest x Hi Hv Hux Hfit;
    rewrite put_varuint_S; destruct (Z.ltb_spec ux 128) as [Hsmall|Hbig].
  - cbn [app]. rewrite varuint_loop_cons. cbv zeta.
    rewrite byte_val_of.
    rewrite (Z.mod_small ux 256), (Z.mod_small ux 128) by lia.
    destruct (Z.ltb_spec ux 128); [|lia].
    rewrite lor_shiftl_add by lia. unfold wrap_u.
    rewrite Z.mod_small; [reflexivity|]. nia.
  - change (7 * Z.of_nat 1) with 7 in Hux. change (2 ^ 7) with 128 in Hux. lia.
  - cbn [app]. rewrite varuint_loop_cons. cbv zeta.
    rewrite byte_val_of.
    rewrite (Z.mod_small ux 256), (Z.mod_small ux 128) by lia.
    destruct (Z.ltb_spec ux 128); [|lia].
    rewrite lor_shiftl_add by lia. unfold wrap_u.
    rewrite Z.mod_small; [reflexivity|]. nia.
  - rewrite <- app_comm_cons, varuint_loop_cons. cbv zeta.
    rewrite byte_val_of, lor_high_byte.
    assert (H128 : 0 <= ux mod 128 < 128) by (apply Z.mod_pos_bound; lia).
    destruct (Z.ltb_spec (ux mod 128 + 128) 128); [lia|].
    replace ((ux mod 128 + 128) mod 128) with (ux mod 128)
      by (Z.div_mod_to_equations; lia).
    rewrite lor_shiftl_add by lia.
    assert (Hpow : 2 ^ (i + 7) = 2 ^ i * 128)
      by (rewrite Z.pow_add_r by lia; reflexivity).
    assert (Hdiv : ux = 128 * (ux / 128) + ux mod 128) by (apply Z.div_mod; lia).
    assert (Hq : 0 <= ux / 128) by (apply Z.div_pos; lia).
    assert (Hpi : 0 < 2 ^ i) by (apply Z.pow_pos_nonneg; lia).
    assert (Hle : v + ux mod 128 * 2 ^ i + (ux / 128) * 2 ^ (i + 7)
                  = v + ux * 2 ^ i) by (rewrite Hpow; nia).
    unfold wrap_u. rewrite Z.mod_small by nia.
    rewrite Z.shiftr_div_pow2 by lia. change (2 ^ 7) with 128.
    rewrite IH; try lia.
    + now rewrite Hle.
    + rewrite Hpow. nia.
    + split; [lia|]. apply Z.div_lt_upper_bound; [lia|].
      replace (7 * Z.of_nat (S (S n))) with (7 + 7 * Z.of_nat (S n)) in Hux by lia.
      rewrite Z.pow_add_r in Hux by lia. change (2 ^ 7) with 128 in Hux. lia.
Qed.

Lemma Varuint32_Write (ux : Z) (rest : buf) (x : Z) :
  in_u 32 ux -> Varuint32 (WriteVaruint32 ux ++ rest) x = (None, ux, rest).
Proof.
  unfold in_u, Varuint32, WriteVaruint32. intros Hu.
  rewrite varuint_loop_put;
    change (2 ^ 0) with 1; change (2 ^ (7 * Z.of_nat 5)) with (2 ^ 32 * 8);
    try lia.
  repeat f_equal. lia.
Qed.

Lemma Varuint64_Write (ux : Z) (rest : buf) (x : Z) :
  in_u 64 ux -> Varuint64 (WriteVaruint64 ux ++ rest) x = (None, ux, rest).
Proof.
  unfold in_u, Varuint64, WriteVaruint64. intros Hu.
  rewrite varuint_loop_put;
    change (2 ^ 0) with 1; change (2 ^ (7 * Z.of_nat 10)) with (2 ^ 64 * 64);
    try lia.
  repeat f_equal. lia.
Qed.

Lemma zigzag_range (bits x : Z) : 0 < bits -> in_u bits (zigzag bits x).
Proof.
  intros Hb. unfold in_u, zigzag, wrap_u. apply Z.mod_pos_bound.
  apply Z.pow_pos_nonneg; lia.
Qed.

Lemma zigzag_value (bits x : Z) :
  0 < bits -> in_s bits x ->
  zigzag bits x = if x <? 0 then - 2 * x - 1 else 2 * x.
Proof.
  unfold in_s, zigzag, wrap_u. intros Hb Hx.
  assert (Hp : 2 ^ bits = 2 * 2 ^ (bits - 1)).
  { replace bits with (1 + (bits - 1)) at 1 by lia.
    rewrite Z.pow_add_r by lia. reflexivity. }
  assert (0 < 2 ^ (bits - 1)) by (apply Z.pow_pos_nonneg; lia).
  rewrite Z.shiftl_mul_pow2, Z.shiftr_div_pow2 by lia. change (2 ^ 1) with 2.
  destruct (Z.ltb_spec x 0) as [Hneg|Hpos].
  - replace (x / 2 ^ (bits - 1)) with (-1)
      by (apply Z.div_unique with (r := x + 2 ^ (bits - 1)); lia).
    rewrite Z.lxor_m1_r. unfold Z.lnot, Z.pred.
    rewrite Z.mod_small; lia.
  - rewrite Z.div_small, Z.lxor_0_r by lia. rewrite Z.mod_small; lia.
Qed.

Lemma land_1 (a : Z) : Z.land a 1 = a mod 2.
Proof. change 1 with (Z.ones 1). apply Z.land_ones. lia. Qed.

Lemma unzigzag_zigzag (bits x : Z) :
  0 < bits -> in_s bits x -> unzigzag (zigzag bits x) = x.
Proof.
  intros Hb Hx. rewrite zigzag_value by assumption. unfold unzigzag.
  rewrite land_1, Z.shiftr_div_pow2 by lia. change (2 ^ 1) with 2.
  destruct (Z.ltb_spec x 0) as [Hneg|Hpos].
  - replace ((- 2 * x - 1) mod 2) with 1 by (Z.div_mod_to_equations; lia).
    replace ((- 2 * x - 1) / 2) with (- x - 1) by (Z.div_mod_to_equations; lia).
    rewrite Z.lxor_m1_r. unfold Z.lnot, Z.pred. lia.
  - replace ((2 * x) mod 2) with 0 by (Z.div_mod_to_equations; lia).
    replace (2 * x / 2) with x by (Z.div_mod_to_equations; lia).
    apply Z.lxor_0_r.
Qed.

Lemma Varint32_Write (v : Z) (rest : buf) (x : Z) :
  in_s 32 v -> Varint32 (WriteVarint32 v ++ rest) x = (None, v, rest).
Proof.
  intros Hv. unfold Varint32, varint_of, WriteVarint32.
  fold (WriteVaruint32 (zigzag 32 v)).
  rewrite Varuint32_Write by (apply zigzag_range; lia).
  now rewrite unzigzag_zigzag by (auto; lia).
Qed.

Lemma Varint64_Write (v : Z) (rest : buf) (x : Z) :
  in_s 64 v -> Varint64 (WriteVarint64 v ++ rest) x = (None, v, rest).
Proof.
  intros Hv. unfold Varint64, varint_of, WriteVarint64.
  fold (WriteVaruint64 (zigzag 64 v)).
  rewrite Varuint64_Write by (apply zigzag_range; lia).
  now rewrite unzigzag_zigzag by (auto; lia).
Qed.

(** ** Strings and byte slices *)

Lemma ByteSlice_Write (v : list byte) (rest : buf) (x : list byte) :
  Z.of_nat (length v) < 2 ^ 32 ->
  ByteSlice (WriteByteSlice v ++ rest) x = (None, v, rest).
Proof.
  intros Hlen. unfold ByteSlice, WriteByteSlice, wrap_u.
  rewrite Z.mod_small by lia.
  rewrite <- app_assoc, Varuint32_Write by (unfold in_u; lia).
  rewrite Nat2Z.id, short_app_false, firstn_exact, skipn_exact. reflexivity.
Qed.

Lemma String_Write (v : gostring) (rest : buf) (x : gostring) :
  Z.of_nat (length v) < 2 ^ 32 ->
  String (WriteString v ++ rest) x = (None, v, rest).
Proof. apply ByteSlice_Write. Qed.

(** ** Chains and loops *)

Lemma chainErr_cons {X} (d : Decoder X) (ds : list (Decoder X)) (src : buf) (x : X) :
  chainErr (d :: ds) src x
  = let '(e1, x1, s1) := d src x in
    let '(e2, x2, s2) := chainErr ds s1 x1 in
    (first_err e1 e2, x2, s2).
Proof. reflexivity. Qed.

(** A loop over [make zero (len l)] reads back the list [l] from the bytes a
    writer loop produced for it, when the element reader reads back each
    element. *)
Lemma read_each_flat_map {X} (w : error -> error) (d : Decoder X)
  (enc : X -> list byte) (zero : X) (l : list X) (rest : buf) :
  (forall c r x0, In c l -> d (enc c ++ r) x0 = (None, c, r)) ->
  read_each w d (repeat zero (length l)) (flat_map enc l ++ rest)
  = (None, l, rest).
Proof.
  induction l as [|c l IH]; intros Hd; [reflexivity|].
  cbn [length repeat flat_map read_each]. rewrite <- app_assoc.
  rewrite Hd by (left; reflexivity).
  rewrite IH by (intros; apply Hd; right; assumption). reflexivity.
Qed.

Lemma make_length {X} (zero : X) (l : list X) :
  make zero (Z.of_nat (length l)) = repeat zero (length l).
Proof. unfold make. now rewrite Nat2Z.id. Qed.

(** ** Round trips of the structural codecs *)

Lemma EntityLinkAction_Write (c : EntityLink) (rest : buf) (x0 : EntityLink) :
  wf_EntityLink c ->
  EntityLinkAction (WriteEntityLinkAction c ++ rest) x0 = (None, c, rest).
Proof.
  intros [Hridden Hrider]. destruct c as [ridden rider ty imm init].
  cbn [RiddenEntityUniqueID RiderEntityUniqueID] in Hridden, Hrider.
  unfold EntityLinkAction, WriteEntityLinkAction. cbn [chainErr]. unfold field.
  cbn [RiddenEntityUniqueID RiderEntityUniqueID link_Type Immediate RiderInitiated].
  rewrite <- !app_assoc.
  rewrite Varint64_Write by assumption.
  rewrite Varint64_Write by assumption.
  rewrite read_byte_write, read_bool_write, read_bool_write.
  reflexivity.
Qed.

Lemma EntityLinks_Write (l : list EntityLink) (rest : buf) (x0 : list EntityLink) :
  Forall wf_EntityLink l -> Z.of_nat (length l) <= lowerLimit ->
  EntityLinks (WriteEntityLinks l ++ rest) x0 = (None, l, rest).
Proof.
  intros Hwf Hlen. unfold EntityLinks, WriteEntityLinks, wrap_u.
  unfold lowerLimit in *.
  rewrite Z.mod_small by lia.
  rewrite <- app_assoc, Varuint32_Write by (unfold in_u; lia).
  destruct (Z.gtb_spec (Z.of_nat (length l)) 512) as [Hgt|_]; [lia|].
  rewrite make_length. apply read_each_flat_map.
  intros c r x1 Hin. apply EntityLinkAction_Write.
  rewrite Forall_forall in Hwf. now apply Hwf.
Qed.

Lemma Enchant_Write (c : EnchantmentInstance) (rest : buf) (x0 : EnchantmentInstance) :
  Enchant (WriteEnchant c ++ rest) x0 = (None, c, rest).
Proof. destruct c. reflexivity. Qed.

Lemma ItemEnchants_bucket_Write (l : list EnchantmentInstance) (rest : buf)
  (x0 : list EnchantmentInstance) :
  fits_uint32 l ->
  ItemEnchants_bucket (WriteItemEnchants_bucket l ++ rest) x0 = (None, l, rest).
Proof.
  unfold fits_uint32. intros Hlen.
  unfold ItemEnchants_bucket, WriteItemEnchants_bucket, wrap_u.
  rewrite Z.mod_small by lia.
  rewrite <- app_assoc, Varuint32_Write by (unfold in_u; lia).
  rewrite make_length. apply read_each_flat_map.
  intros c r x1 _. apply Enchant_Write.
Qed.

Lemma ItemEnchants_Write (v : ItemEnchantments) (rest : buf) (x0 : ItemEnchantments) :
  wf_ItemEnchantments v ->
  ItemEnchants (WriteItemEnchants v ++ rest) x0 = (None, v, rest).
Proof.
  intros (Hslot & H0 & H1 & H2). destruct v as [slot e0 e1 e2].
  cbn [Slot Enchantments0 Enchantments1 Enchantments2] in *.
  unfold ItemEnchants, WriteItemEnchants, field.
  cbn [Slot Enchantments0 Enchantments1 Enchantments2].
  rewrite <- !app_assoc.
  rewrite read_int32_write by assumption.
  unfold set_Slot, set_Enchantments0, set_Enchantments1, set_Enchantments2.
  cbn [Slot Enchantments0 Enchantments1 Enchantments2].
  rewrite ItemEnchants_bucket_Write by assumption.
  rewrite ItemEnchants_bucket_Write by assumption.
  rewrite ItemEnchants_bucket_Write by assumption.
  reflexivity.
Qed.

Lemma EnchantOption_Write (v : EnchantmentOption) (rest : buf) (x0 : EnchantmentOption) :
  wf_EnchantmentOption v ->
  EnchantOption (WriteEnchantOption v ++ rest) x0 = (None, v, rest).
Proof.
  intros (Hcost & Hench & Hname & Hrecipe). destruct v as [cost ench name recipe].
  cbn [Cost Enchantments Name RecipeNetworkID] in *.
  unfold EnchantOption, WriteEnchantOption. cbn [chainErr]. unfold field.
  cbn [Cost Enchantments Name RecipeNetworkID].
  rewrite <- !app_assoc.
  rewrite Varuint32_Write by assumption.
  rewrite ItemEnchants_Write by assumption.
  rewrite String_Write by assumption.
  rewrite Varuint32_Write by assumption.
  reflexivity.
Qed.

(** C1.  Round-trip identity of the structural codecs: [EntityLinks] reads
    back every list of at most [lowerLimit] entity links from the bytes
    [WriteEntityLinks] wrote for it, and [EnchantOption] reads back every
    enchantment option from the bytes [WriteEnchantOption] wrote for it.  In
    both cases the whole input is consumed and the result does not depend on
    what the output held before. *)
Theorem C1_roundtrip :
  (forall l x0 : list EntityLink,
      Forall wf_EntityLink l ->
      Z.of_nat (length l) <= lowerLimit ->
      EntityLinks (WriteEntityLinks l) x0 = (None, l, []))
  /\ (forall v x0 : EnchantmentOption,
         wf_EnchantmentOption v ->
         EnchantOption (WriteEnchantOption v) x0 = (None, v, [])).
Proof.
  split.
  - intros l x0 Hwf Hlen.
    rewrite <- (app_nil_r (WriteEntityLinks l)).
    now apply EntityLinks_Write.
  - intros v x0 Hwf.
    rewrite <- (app_nil_r (WriteEnchantOption v)).
    now apply EnchantOption_Write.
Qed.

(** ** Item stacks *)

(** A varint reader does not look at the old value of its target. *)
Lemma Varint32_target (src : buf) (x : Z) :
  Varint32 src x
  = match Varint32 src 0 with
    | (Some e, _, s) => (Some e, x, s)
    | (None, v, s) => (None, v, s)
    end.
Proof.
  unfold Varint32, varint_of.
  destruct (Varuint32 src 0) as [[[e|] ux] s]; reflexivity.
Qed.

Lemma Item_split (nbt : NbtCodec) (src : buf) (x0 : ItemStack) :
  Item nbt src x0
  = match Item_through_CanBreak nbt src x0 with
    | (Some e, x, s) => (Some e, x, s)
    | (None, x, s) =>
        if NetworkID x =? shieldID then
          match Varint64 s 0 with
          | (Some e, _, s') => (Some (wrap e), x, s')
          | (None, _, s') => (None, x, s')
          end
        else (None, x, s)
    end.
Proof.
  unfold Item, Item_through_CanBreak.
  destruct (field _ set_NetworkID Varint32 src _) as [[[e|] x1] s1]; [reflexivity|].
  destruct (Z.eqb_spec (NetworkID x1) 0) as [Hair|Hitem].
  - cbn [set_CanBreak set_CanBePlacedOn set_Count set_MetadataValue
           ItemStack_ItemType NetworkID].
    rewrite Hair. reflexivity.
  - destruct (Varint32 s1 0) as [[[e|] aux] s2]; [reflexivity|].
    destruct (read_int16 s2 0) as [[[e|] marker] s3]; [reflexivity|].
    destruct (Item_nbt nbt marker s3 _) as [[[e|] x4] s4]; [reflexivity|].
    destruct (field CanBePlacedOn _ _ s4 x4) as [[[e|] x5] s5]; [reflexivity|].
    destruct (field CanBreak _ _ s5 x5) as [[[e|] x6] s6]; reflexivity.
Qed.

(** C9.  Shield sentinel: when [Item] succeeds on a stack that is not air,
    it has read the fields through the [CanBreak] list, and after that list
    it has read exactly one varint64 if the network ID is 513 and nothing at
    all otherwise. *)
Theorem C9_shield_sentinel (nbt : NbtCodec) (src : buf) (x0 x : ItemStack) (s : buf) :
  Item nbt src x0 = (None, x, s) ->
  NetworkID x <> 0 ->
  exists s1 : buf,
    Item_through_CanBreak nbt src x0 = (None, x, s1)
    /\ (NetworkID x = 513 ->
        exists blockingTick : Z, Varint64 s1 0 = (None, blockingTick, s))
    /\ (NetworkID x <> 513 -> s = s1).
Proof.
  intros HItem _. rewrite Item_split in HItem.
  destruct (Item_through_CanBreak nbt src x0) as [[[e|] x1] s1]; [discriminate|].
  unfold shieldID in HItem.
  destruct (Z.eqb_spec (NetworkID x1) 513) as [Hshield|Hother].
  - destruct (Varint64 s1 0) as [[[e|] tick] s2] eqn:Htick; [discriminate|].
    injection HItem as Hx Hs. subst x1 s2. exists s1.
    split; [reflexivity|]. split.
    + intros _. now exists tick.
    + intros Hne. contradiction.
  - injection HItem as Hx Hs. subst x1 s1. exists s.
    split; [reflexivity|]. split.
    + intros Heq. contradiction.
    + reflexivity.
Qed.

(** C8.  Empty sentinel: [WriteItem] writes the single byte 0x00 for a stack
    whose network ID is 0, and [Item] on an input that begins with 0x00 reads
    that one byte and leaves a stack with every field zero or empty, whatever
    the stack held before. *)
Theorem C8_empty_sentinel :
  (forall (nbt : NbtCodec) (x : ItemStack),
      NetworkID x = 0 -> WriteItem nbt x = ([x00], None))
  /\ (forall (nbt : NbtCodec) (rest : buf) (x0 : ItemStack),
         Item nbt (x00 :: rest) x0
         = (None,
            {| ItemStack_ItemType := {| NetworkID := 0; MetadataValue := 0 |};
               Count := 0; NBTData_of := []; CanBePlacedOn := []; CanBreak := [] |},
            rest)).
Proof.
  split.
  - intros nbt x Hair. unfold WriteItem. rewrite Hair. reflexivity.
  - intros nbt rest x0. reflexivity.
Qed.

(** C2, as the code has it.  When [Item] decodes a stack with a nonzero
    network ID and the NBT presence marker is neither 0 nor -1, it returns a
    format error unless the marker is positive and the NBT decoder accepts
    the next [marker] bytes: a negative marker is always an error, a positive
    one is the length of a legacy NBT blob. *)
Theorem C2_marker_rejected (nbt : NbtCodec) (src : buf) (x0 : ItemStack)
  (networkID auxValue marker : Z) (s1 s2 s3 : buf) :
  Varint32 src 0 = (None, networkID, s1) ->
  networkID <> 0 ->
  Varint32 s1 0 = (None, auxValue, s2) ->
  read_int16 s2 0 = (None, marker, s3) ->
  marker <> 0 ->
  marker <> -1 ->
  (0 < marker ->
   fst (nbt_UnmarshalEncoding nbt (fst (Next marker s3)) []) <> None) ->
  dec_err (Item nbt src x0) = Some MALFORMED.
Proof.
  intros Hid Hitem Haux Hmarker Hne0 Hne1 Hlegacy.
  unfold Item, field. rewrite Varint32_target, Hid.
  cbn [set_NetworkID ItemStack_ItemType NetworkID].
  destruct (Z.eqb_spec networkID 0) as [|_]; [contradiction|].
  rewrite Haux, Hmarker. unfold Item_nbt.
  destruct (Z.eqb_spec marker 0) as [|_]; [contradiction|].
  destruct (Z.eqb_spec marker (-1)) as [|_]; [contradiction|].
  destruct (Z.ltb_spec marker 0) as [Hneg|Hpos]; [reflexivity|].
  assert (Hpos' : 0 < marker) by lia. specialize (Hlegacy Hpos').
  cbn [set_MetadataValue set_Count set_NBTData set_NetworkID NBTData_of] in *.
  unfold Next in *. cbn [fst] in Hlegacy.
  destruct (nbt_UnmarshalEncoding nbt _ []) as [[e|] m]; [reflexivity|].
  now contradiction Hlegacy.
Qed.

(** C2 fails as stated: with the marker 4 followed by the four bytes of an
    empty compound, [Item] succeeds. *)
Lemma C2_positive_marker_accepted :
  let src := [x02; x00; x04; x00; x0a; x00; x00; x00; x00; x00] in
  Varint32 src 0 = (None, 1, [x00; x04; x00; x0a; x00; x00; x00; x00; x00])
  /\ read_int16 [x04; x00; x0a; x00; x00; x00; x00; x00] 0
     = (None, 4, [x0a; x00; x00; x00; x00; x00])
  /\ Item SpecNbt.codec src ItemStack_zero
     = (None, set_NetworkID 1 ItemStack_zero, []).
Proof. repeat split. Qed.

(** *** Wire stability *)

Lemma Item_blocks_canonical (type : string) (blocks : list gostring)
  (rest : buf) (x : list gostring) :
  wf_blocks blocks ->
  Item_blocks type (canonical_blocks blocks ++ rest) x = (None, blocks, rest).
Proof.
  intros [Hlen Hfit]. unfold Item_blocks, canonical_blocks.
  unfold higherLimit in *.
  rewrite <- app_assoc, Varint32_Write by (unfold in_s; cbn; lia).
  destruct (Z.ltb_spec (Z.of_nat (length blocks)) 0) as [|_]; [lia|].
  destruct (Z.gtb_spec (Z.of_nat (length blocks)) (64 * 1024)) as [|_]; [lia|].
  rewrite make_length. apply read_each_flat_map.
  intros c r x1 Hin. apply String_Write.
  rewrite Forall_forall in Hfit. now apply Hfit.
Qed.

Lemma aux_repacked (auxValue : Z) :
  in_s 16 auxValue ->
  Z.lor (wrap_s 16 (Z.shiftl (wrap_s 16 (Z.shiftr auxValue 8)) 8))
        (wrap_s 16 (Z.land auxValue 255))
  = auxValue.
Proof.
  unfold in_s. change (2 ^ (16 - 1)) with 32768. intros Haux.
  change 255 with (Z.ones 8). rewrite Z.land_ones, Z.shiftr_div_pow2 by lia.
  change (2 ^ 8) with 256.
  assert (Hm : 0 <= auxValue mod 256 < 256) by (apply Z.mod_pos_bound; lia).
  assert (Hd : -128 <= auxValue / 256 < 128) by (Z.div_mod_to_equations; lia).
  rewrite (wrap_s_id 16 (auxValue / 256))
    by (unfold in_s; change (2 ^ (16 - 1)) with 32768; lia).
  rewrite (wrap_s_id 16 (auxValue mod 256))
    by (unfold in_s; change (2 ^ (16 - 1)) with 32768; lia).
  rewrite wrap_s_id
    by (try lia; unfold in_s; rewrite Z.shiftl_mul_pow2 by lia;
        change (2 ^ (16 - 1)) with 32768; change (2 ^ 8) with 256; lia).
  rewrite Z.lor_comm, lor_shiftl_add by (change (2 ^ 8) with 256; lia).
  change (2 ^ 8) with 256. Z.div_mod_to_equations. lia.
Qed.

Lemma blocks_length_int32 (blocks : list gostring) :
  wf_blocks blocks ->
  wrap_s 32 (Z.of_nat (length blocks)) = Z.of_nat (length blocks).
Proof.
  intros [Hlen _]. unfold higherLimit in Hlen.
  apply wrap_s_id; [lia|]. unfold in_s. cbn. lia.
Qed.

Ltac item_fields :=
  cbn [set_NetworkID set_MetadataValue set_Count set_NBTData set_CanBePlacedOn
         set_CanBreak ItemStack_ItemType NetworkID MetadataValue Count
         NBTData_of CanBePlacedOn CanBreak].

(** C7, as the code has it.  Wire stability holds for the canonical wire
    form of an item stack without NBT whose aux value fits sixteen bits:
    [Item] decodes it, consuming it whole, and [WriteItem] applied to the
    decoded stack reproduces exactly the same bytes.  For a shield this is
    the form whose blocking tick is 0. *)
Theorem C7_wire_stability (nbt : NbtCodec) (networkID auxValue : Z)
  (canBePlacedOn canBreak : list gostring) (x0 : ItemStack) :
  in_s 32 networkID ->
  in_s 16 auxValue ->
  wf_blocks canBePlacedOn ->
  wf_blocks canBreak ->
  let b := canonical_item networkID auxValue canBePlacedOn canBreak in
  exists v : ItemStack,
    Item nbt b x0 = (None, v, []) /\ WriteItem nbt v = (b, None).
Proof.
  intros Hid Haux Hplace Hbreak b. subst b. unfold canonical_item.
  destruct (Z.eqb_spec networkID 0) as [->|Hitem].
  - eexists. split; reflexivity.
  - assert (Haux32 : in_s 32 auxValue).
    { unfold in_s in *. change (2 ^ (16 - 1)) with 32768 in Haux.
      change (2 ^ (32 - 1)) with 2147483648. lia. }
    exists {| ItemStack_ItemType :=
                {| NetworkID := networkID;
                   MetadataValue := wrap_s 16 (Z.shiftr auxValue 8) |};
              Count := wrap_s 16 (Z.land auxValue 255);
              NBTData_of := [];
              CanBePlacedOn := canBePlacedOn;
              CanBreak := canBreak |}.
    split.
    + unfold Item, field. rewrite Varint32_Write by assumption. item_fields.
      destruct (Z.eqb_spec networkID 0) as [|_]; [contradiction|].
      rewrite Varint32_Write by assumption.
      unfold read_int16, write_int16. rewrite read_fixed_le_bytes.
      change (wrap_s 16 (0 mod 2 ^ (8 * Z.of_nat 2))) with 0.
      unfold Item_nbt. cbn [Z.eqb].
      rewrite Item_blocks_canonical by assumption. item_fields.
      rewrite Item_blocks_canonical by assumption. item_fields.
      destruct (Z.eqb_spec networkID shieldID) as [Hshield|Hother].
      * rewrite <- (app_nil_r (WriteVarint64 0)).
        rewrite Varint64_Write by (unfold in_s; cbn; lia).
        reflexivity.
      * reflexivity.
    + unfold WriteItem. item_fields. cbn [length Z.of_nat Z.eqb negb].
      destruct (Z.eqb_spec networkID 0) as [|_]; [contradiction|].
      rewrite aux_repacked by assumption.
      rewrite !blocks_length_int32 by assumption.
      unfold canonical_blocks.
      destruct (Z.eqb_spec networkID shieldID) as [Hshield|Hother];
        now rewrite <- ?app_assoc, ?app_nil_r.
Qed.

(** C7 fails as stated for a shield whose blocking tick is not 0: [Item]
    reads the tick and forgets it, and [WriteItem] writes 0 in its place. *)
Lemma C7_shield_tick_lost :
  let b := [x82; x08; x00; x00; x00; x00; x00; x02] in
  let v := set_NetworkID 513 ItemStack_zero in
  Item SpecNbt.codec b ItemStack_zero = (None, v, [])
  /\ WriteItem SpecNbt.codec v
     = ([x82; x08; x00; x00; x00; x00; x00; x00], None)
  /\ fst (WriteItem SpecNbt.codec v) <> b.
Proof. repeat split. cbn. discriminate. Qed.

(** ** Recipe ingredients *)

(** C5, on the code.  [RecipeIngredient] on an exhausted buffer: the read of
    the network ID fails with [EOF], and [RecipeIngredient] returns no error
    and leaves the stack as it was. *)
Theorem C5_RecipeIngredient_swallows_error :
  Varint32 [] 0 = (Some EOF, 0, [])
  /\ RecipeIngredient [] ItemStack_zero = (None, ItemStack_zero, []).
Proof. split; reflexivity. Qed.

(** The same on every input: whenever the first read fails, the call
    reports success. *)
Lemma RecipeIngredient_first_read_fails (src : buf) (x : ItemStack) :
  dec_err (Varint32 src 0) <> None ->
  dec_err (RecipeIngredient src x) = None.
Proof.
  intros Hfail. unfold RecipeIngredient, field.
  rewrite Varint32_target.
  destruct (Varint32 src 0) as [[[e|] v] s]; [reflexivity|].
  now contradiction Hfail.
Qed.

(** ** The aux value of an item stack *)

(** C3, on the code.  For the stack with network ID 1, metadata 256 and count
    1, [(metadata << 8) | (count & 0xFF)] is 65537, whose varint is
    [82 80 08]; [WriteItem] writes the varint of 1 after the network ID: the
    shift is done on sixteen bits and loses the metadata. *)
Theorem C3_WriteItem_shift_overflows :
  let x := set_Count 1 (set_MetadataValue 256 (set_NetworkID 1 ItemStack_zero)) in
  WriteItem SpecNbt.codec x
  = (WriteVarint32 1 ++ WriteVarint32 1 ++ [x00; x00; x00; x00], None)
  /\ Z.lor (Z.shiftl (MetadataValue x) 8) (Z.land (Count x) 255) = 65537
  /\ WriteVarint32 65537 = [x82; x80; x08]
  /\ WriteVarint32 1 = [x02].
Proof. repeat split. Qed.

(** What [Item] does with the aux value it has read. *)
Lemma Item_unpacks_aux (nbt : NbtCodec) (src : buf) (x0 x : ItemStack)
  (networkID auxValue : Z) (s1 s2 s : buf) :
  Varint32 src 0 = (None, networkID, s1) ->
  networkID <> 0 ->
  Varint32 s1 0 = (None, auxValue, s2) ->
  Item nbt src x0 = (None, x, s) ->
  MetadataValue x = wrap_s 16 (Z.shiftr auxValue 8)
  /\ Count x = wrap_s 16 (Z.land auxValue 255).
Proof.
  intros Hid Hitem Haux. unfold Item, field.
  rewrite Varint32_target, Hid. item_fields.
  destruct (Z.eqb_spec networkID 0) as [|_]; [contradiction|].
  rewrite Haux.
  destruct (read_int16 s2 0) as [[[e|] marker] s3]; [discriminate|].
  match goal with |- context [Item_nbt nbt marker s3 ?y] => set (x1 := y) end.
  assert (Hnbt : forall r, r = Item_nbt nbt marker s3 x1 ->
            MetadataValue (dec_val r) = MetadataValue x1
            /\ Count (dec_val r) = Count x1).
  { intros r ->. unfold Item_nbt, field, Next.
    destruct (marker =? 0); [split; reflexivity|].
    destruct (marker =? -1).
    - destruct (read_byte s3 x00) as [[[e|] c] s4]; [split; reflexivity|].
      destruct (negb (byte_val c =? 1)); [split; reflexivity|].
      destruct (nbt_Decode nbt s4 _) as [[[e|] m] s5]; split; reflexivity.
    - destruct (marker <? 0); [split; reflexivity|].
      destruct (nbt_UnmarshalEncoding nbt _ _) as [[e|] m]; split; reflexivity. }
  specialize (Hnbt _ eq_refl).
  destruct (Item_nbt nbt marker s3 x1) as [[[e|] x4] s4]; [discriminate|].
  cbn [dec_val fst snd] in Hnbt. destruct Hnbt as [Hm Hc].
  destruct (Item_blocks _ s4 _) as [[[e|] l1] s5]; [discriminate|].
  destruct (Item_blocks _ s5 _) as [[[e|] l2] s6]; [discriminate|].
  item_fields.
  intros H.
  assert (Hx : x = set_CanBreak l2 (set_CanBePlacedOn l1 x4)).
  { destruct (NetworkID x4 =? shieldID).
    - destruct (Varint64 s6 0) as [[[e|] t] s7]; [discriminate|]. congruence.
    - congruence. }
  subst x. item_fields. now rewrite Hm, Hc.
Qed.

(** ** Length guards *)

(** Where a guard is written, it does what the specification asks: the two
    block lists of [Item] and the entity links answer a length above their
    limit with [LIMIT], having read the length prefix and nothing more, and
    leave the output slice as it was. *)
Lemma Item_blocks_limit (type : string) (src s : buf) (count : Z) (x : list gostring) :
  Varint32 src 0 = (None, count, s) ->
  higherLimit < count ->
  Item_blocks type src x = (Some (LIMIT higherLimit type), x, s).
Proof.
  intros Hcount Hover. unfold Item_blocks. rewrite Hcount.
  unfold higherLimit in *.
  destruct (Z.ltb_spec count 0) as [|_]; [lia|].
  destruct (Z.gtb_spec count (64 * 1024)) as [_|]; [reflexivity|lia].
Qed.

Lemma EntityLinks_limit (src s : buf) (count : Z) (x : list EntityLink) :
  Varuint32 src 0 = (None, count, s) ->
  lowerLimit < count ->
  EntityLinks src x = (Some (LIMIT lowerLimit "entity link"), x, s).
Proof.
  intros Hcount Hover. unfold EntityLinks. rewrite Hcount.
  unfold lowerLimit in *.
  destruct (Z.gtb_spec count 512) as [_|]; [reflexivity|lia].
Qed.

(** C4, on the code.  [ItemEnchants] on a slot followed by the length prefix
    65537 and nothing else: the length is above both limits, the bucket is
    made with all 65537 entries, and the error is the [EOF] of the first
    entry, not [LIMIT]. *)
Theorem C4_ItemEnchants_unguarded :
  let src := [x00; x00; x00; x00; x81; x80; x04] in
  let r := ItemEnchants src ItemEnchantments_zero in
  Varuint32 [x81; x80; x04] 0 = (None, higherLimit + 1, [])
  /\ dec_err r = Some EOF
  /\ Z.of_nat (length (Enchantments0 (dec_val r))) = higherLimit + 1.
Proof. vm_compute. repeat split. Qed.

(** The same for the colours of a tint, whose length is a [uint32]. *)
Lemma SkinPieceTint_unguarded :
  let src := [x00; x01; x00; x01; x00] in
  let r := SkinPieceTint src PersonaPieceTintColour_zero in
  dec_err r = Some EOF
  /\ Z.of_nat (length (Colours (dec_val r))) = higherLimit + 1.
Proof. vm_compute. repeat split. Qed.

(** No input at all makes [ItemEnchants] answer [LIMIT]. *)
Lemma read_each_unwrapped_limit {X} (d : Decoder X) (cells : list X) (src : buf) :
  (forall s c, is_limit (dec_err (d s c)) = false) ->
  is_limit (dec_err (read_each (fun e => e) d cells src)) = false.
Proof.
  intros Hd. revert src. induction cells as [|c cs IH]; intros src; [reflexivity|].
  cbn [read_each]. specialize (Hd src c).
  destruct (d src c) as [[[e|] c'] s]; [exact Hd|].
  specialize (IH s). destruct (read_each _ d cs s) as [[e cs'] s']. exact IH.
Qed.

Lemma varuint_loop_no_limit (bits : Z) (n : nat) :
  forall i v src x, is_limit (dec_err (varuint_loop bits n i v src x)) = false.
Proof.
  induction n as [|n IH]; intros i v src x; [reflexivity|].
  cbn [varuint_loop]. destruct src as [|b s]; [reflexivity|].
  destruct (Z.land (byte_val b) 128 =? 0); [reflexivity|apply IH].
Qed.

Lemma read_byte_no_limit (src : buf) (x : byte) :
  is_limit (dec_err (read_byte src x)) = false.
Proof. destruct src; reflexivity. Qed.

Lemma Enchant_no_limit (src : buf) (x : EnchantmentInstance) :
  is_limit (dec_err (Enchant src x)) = false.
Proof.
  unfold Enchant. cbn [chainErr]. unfold field.
  pose proof (read_byte_no_limit src (ench_Type x)) as H1.
  destruct (read_byte src (ench_Type x)) as [[e1 a1] s1].
  pose proof (read_byte_no_limit s1 (Level (set_ench_Type a1 x))) as H2.
  destruct (read_byte s1 _) as [[e2 a2] s2].
  destruct e1; [exact H1|]. destruct e2; [exact H2|]. reflexivity.
Qed.

Lemma ItemEnchants_bucket_no_limit (src : buf) (x : list EnchantmentInstance) :
  is_limit (dec_err (ItemEnchants_bucket src x)) = false.
Proof.
  unfold ItemEnchants_bucket.
  pose proof (varuint_loop_no_limit 32 5 0 0 src 0) as Hl. fold Varuint32 in Hl.
  destruct (Varuint32 src 0) as [[[e|] l] s]; [exact Hl|].
  apply read_each_unwrapped_limit. apply Enchant_no_limit.
Qed.

Lemma ItemEnchants_never_limit (src : buf) (x : ItemEnchantments) :
  is_limit (dec_err (ItemEnchants src x)) = false.
Proof.
  unfold ItemEnchants, field.
  destruct (read_int32 src (Slot x)) as [[[e|] a] s] eqn:Hslot.
  { unfold read_int32, read_fixed in Hslot.
    destruct (length src <? 4)%nat; now inversion Hslot. }
  pose proof (ItemEnchants_bucket_no_limit s (Enchantments0 (set_Slot a x))) as H0.
  destruct (ItemEnchants_bucket s _) as [[[e|] l0] s0]; [exact H0|].
  match goal with |- context [ItemEnchants_bucket s0 ?b] =>
    pose proof (ItemEnchants_bucket_no_limit s0 b) as H1;
    destruct (ItemEnchants_bucket s0 b) as [[[e|] l1] s1]; [exact H1|] end.
  match goal with |- context [ItemEnchants_bucket s1 ?b] =>
    pose proof (ItemEnchants_bucket_no_limit s1 b) as H2;
    destruct (ItemEnchants_bucket s1 b) as [[e l2] s2]; exact H2 end.
Qed.

(** ** Skins *)

(** C6, on the code.  A serialised skin that declares a skin image of
    1073741824 by 1 pixels and carries no skin data: four times the pixel
    count is 2^32, which is 0 on 32 bits, so [validate] accepts it and
    [SerialisedSkin] succeeds with a skin whose data length is not
    [4 * width * height]. *)
Theorem C6_SerialisedSkin_size_wraps :
  let src :=
    [x00; x00] ++ [x00; x00; x00; x40] ++ [x01; x00; x00; x00] ++ [x00]
      ++ [x00; x00; x00; x00]
      ++ [x00; x00; x00; x00] ++ [x00; x00; x00; x00] ++ [x00; x00; x00]
      ++ [x00; x00; x00] ++ [x00; x00; x00; x00]
      ++ [x00; x00; x00; x00] ++ [x00; x00; x00; x00] in
  let r := SerialisedSkin src Skin_zero in
  r = (None, set_SkinImageHeight 1 (set_SkinImageWidth 1073741824 Skin_zero), [])
  /\ Z.of_nat (length (SkinData (dec_val r)))
     <> 4 * SkinImageWidth (dec_val r) * SkinImageHeight (dec_val r).
Proof. vm_compute. split; [reflexivity|discriminate]. Qed.

(** Within 32 bits the check is exact: a skin that [validate] accepts and
    whose sizes do not overflow has images of four bytes per pixel. *)
Lemma image_ok_exact (height width : Z) (data : list byte) :
  0 <= height -> 0 <= width -> 4 * width * height < 2 ^ 32 ->
  Z.of_nat (length data) < 2 ^ 32 ->
  image_ok height width data = true ->
  Z.of_nat (length data) = 4 * width * height.
Proof.
  intros Hh Hw Hfit Hlen Hok. unfold image_ok, wrap_u in Hok.
  apply Z.eqb_eq in Hok.
  rewrite (Z.mod_small (height * width)) in Hok by nia.
  rewrite !Z.mod_small in Hok by nia. lia.
Qed.

(** Every error of [validate] is an [INVARIANT] error. *)
Lemma validate_error (skin : Skin) (e : error) :
  validate skin = Some e -> e = INVARIANT.
Proof.
  unfold validate.
  destruct (negb (image_ok _ _ (SkinData skin))); [congruence|].
  destruct (negb (image_ok _ _ (CapeData skin))); [congruence|].
  destruct (forallb _ (Animations skin)); congruence.
Qed.

(** *** The [Trusted] field *)

Lemma field_keeps_Trusted {A} (get : Skin -> A) (set : A -> Skin -> Skin)
  (d : Decoder A) :
  (forall v x, Trusted (set v x) = Trusted x) ->
  keeps_Trusted (field get set d).
Proof.
  intros Hset src x. unfold field.
  destruct (d src (get x)) as [[e a] s]. apply Hset.
Qed.

Lemma chainErr_keeps_Trusted (ds : list (Decoder Skin)) :
  Forall keeps_Trusted ds -> keeps_Trusted (chainErr ds).
Proof.
  induction 1 as [|d ds Hd _ IH]; intros src x; [reflexivity|].
  cbn [chainErr]. specialize (Hd src x).
  destruct (d src x) as [[e1 x1] s1]. specialize (IH s1 x1).
  destruct (chainErr ds s1 x1) as [[e2 x2] s2].
  cbn [dec_val fst snd] in *. congruence.
Qed.

Lemma SerialisedSkin_keeps_Trusted : keeps_Trusted SerialisedSkin.
Proof.
  assert (Hchain : forall ds,
             Forall keeps_Trusted ds -> keeps_Trusted (chainErr ds))
    by exact chainErr_keeps_Trusted.
  intros src x. unfold SerialisedSkin.
  match goal with |- context [chainErr ?ds src x] =>
    assert (H1 : keeps_Trusted (chainErr ds))
      by (apply Hchain; repeat constructor; apply field_keeps_Trusted; reflexivity);
    specialize (H1 src x); destruct (chainErr ds src x) as [[e1 x1] s1] end.
  destruct (read_uint32 s1 0) as [[e2 animationCount] s2].
  cbn [dec_val fst snd] in H1.
  destruct (first_err e1 e2); [exact H1|].
  unfold field at 1.
  destruct (read_each _ Animation _ s2) as [[[e|] l3] s3]; [exact H1|].
  match goal with |- context [chainErr ?ds s3 ?y] =>
    assert (H2 : keeps_Trusted (chainErr ds))
      by (apply Hchain; repeat constructor; apply field_keeps_Trusted; reflexivity);
    specialize (H2 s3 y); destruct (chainErr ds s3 y) as [[e4 x4] s4] end.
  cbn [dec_val fst snd set_Animations Trusted] in H2.
  assert (H4 : Trusted x4 = Trusted x) by congruence.
  destruct (read_uint32 s4 0) as [[e5 c] s5].
  destruct (first_err e4 e5); [exact H4|].
  unfold field.
  destruct (read_each _ SkinPiece _ s5) as [[[e|] l6] s6]; [exact H4|].
  destruct (read_uint32 s6 c) as [[[e|] c'] s7]; [exact H4|].
  destruct (read_each _ SkinPieceTint _ s7) as [[[e|] l8] s8]; exact H4.
Qed.

Lemma WriteSerialisedSkin_ignores_Trusted (x : Skin) (t : bool) :
  WriteSerialisedSkin (set_Trusted t x) = WriteSerialisedSkin x.
Proof. reflexivity. Qed.

(** C10.  The skin codec ignores [Trusted]: two skins that differ at most in
    that field are written to the same bytes (or both refused by
    [validate]), and [SerialisedSkin] leaves the field of its output as it
    found it, whether it succeeds or fails. *)
Theorem C10_Trusted_ignored :
  (forall x y : Skin,
      set_Trusted false x = set_Trusted false y ->
      WriteSerialisedSkin x = WriteSerialisedSkin y)
  /\ (forall (src : buf) (x : Skin),
         Trusted (dec_val (SerialisedSkin src x)) = Trusted x).
Proof.
  split.
  - intros x y Hsame.
    rewrite <- (WriteSerialisedSkin_ignores_Trusted x false).
    rewrite <- (WriteSerialisedSkin_ignores_Trusted y false).
    now rewrite Hsame.
  - exact SerialisedSkin_keeps_Trusted.
Qed.

(** ** The theorems at concrete inputs *)

Ltac in_range :=
  unfold wf_EntityLink, wf_EnchantmentOption, wf_ItemEnchantments, wf_blocks,
    fits_uint32, in_s, in_u, lowerLimit, higherLimit;
  cbn; repeat split; lia.

Lemma C1_roundtrip_witness :
  (Forall wf_EntityLink [link_S5]
   /\ Z.of_nat (length [link_S5]) <= lowerLimit
   /\ EntityLinks (WriteEntityLinks [link_S5]) [] = (None, [link_S5], []))
  /\ (wf_EnchantmentOption option_sharpness
      /\ EnchantOption (WriteEnchantOption option_sharpness) EnchantmentOption_zero
         = (None, option_sharpness, [])).
Proof.
  assert (H1 : Forall wf_EntityLink [link_S5]) by (constructor; [in_range | constructor]).
  assert (H2 : Z.of_nat (length [link_S5]) <= lowerLimit) by in_range.
  assert (H3 : wf_EnchantmentOption option_sharpness) by in_range.
  split; [split; [exact H1 | split; [exact H2|]] | split; [exact H3|]].
  - exact (proj1 C1_roundtrip [link_S5] [] H1 H2).
  - exact (proj2 C1_roundtrip option_sharpness EnchantmentOption_zero H3).
Defined.

Lemma C2_marker_rejected_witness :
  let src := [x02; x00; x01; x00; x00] in
  Varint32 src 0 = (None, 1, [x00; x01; x00; x00])
  /\ Varint32 [x00; x01; x00; x00] 0 = (None, 0, [x01; x00; x00])
  /\ read_int16 [x01; x00; x00] 0 = (None, 1, [x00])
  /\ dec_err (Item SpecNbt.codec src ItemStack_zero) = Some MALFORMED.
Proof.
  split; [reflexivity|]. split; [reflexivity|]. split; [reflexivity|].
  apply (C2_marker_rejected SpecNbt.codec
           [x02; x00; x01; x00; x00] ItemStack_zero 1 0 1
           [x00; x01; x00; x00] [x01; x00; x00] [x00]);
    try reflexivity; try lia.
  intros _. cbn. discriminate.
Defined.

Lemma C7_wire_stability_witness :
  let stone := [x73; x74; x6f; x6e; x65] in
  in_s 32 513 /\ in_s 16 261 /\ wf_blocks [stone] /\ wf_blocks []
  /\ exists v : ItemStack,
       Item SpecNbt.codec (canonical_item 513 261 [stone] []) ItemStack_zero
       = (None, v, [])
       /\ WriteItem SpecNbt.codec v = (canonical_item 513 261 [stone] [], None).
Proof.
  intros stone.
  assert (H1 : in_s 32 513) by in_range.
  assert (H2 : in_s 16 261) by in_range.
  assert (H3 : wf_blocks [stone]).
  { split; [in_range|]. constructor; [in_range | constructor]. }
  assert (H4 : wf_blocks (@nil gostring)).
  { split; [in_range|]. constructor. }
  repeat (split; [assumption|]).
  exact (C7_wire_stability SpecNbt.codec 513 261 [stone] [] ItemStack_zero
           H1 H2 H3 H4).
Defined.

Lemma C8_empty_sentinel_witness :
  NetworkID ItemStack_zero = 0
  /\ WriteItem SpecNbt.codec ItemStack_zero = ([x00], None).
Proof.
  split; [reflexivity|].
  apply (proj1 C8_empty_sentinel SpecNbt.codec ItemStack_zero). reflexivity.
Defined.

Lemma C9_shield_sentinel_witness :
  let src := [x82; x08; x00; x00; x00; x00; x00; x02] in
  let x := set_NetworkID 513 ItemStack_zero in
  Item SpecNbt.codec src ItemStack_zero = (None, x, [])
  /\ NetworkID x <> 0
  /\ exists s1 : buf,
       Item_through_CanBreak SpecNbt.codec src ItemStack_zero = (None, x, s1)
       /\ (NetworkID x = 513 ->
           exists blockingTick : Z, Varint64 s1 0 = (None, blockingTick, []))
       /\ (NetworkID x <> 513 -> [] = s1).
Proof.
  intros src x.
  assert (H1 : Item SpecNbt.codec src ItemStack_zero = (None, x, []))
    by reflexivity.
  assert (H2 : NetworkID x <> 0) by (cbn; lia).
  split; [exact H1 | split; [exact H2|]].
  exact (C9_shield_sentinel SpecNbt.codec src ItemStack_zero x [] H1 H2).
Defined.

Lemma C10_Trusted_ignored_witness :
  set_Trusted false Skin_zero = set_Trusted false (set_Trusted true Skin_zero)
  /\ WriteSerialisedSkin Skin_zero
     = WriteSerialisedSkin (set_Trusted true Skin_zero).
Proof.
  split; [reflexivity|].
  apply (proj1 C10_Trusted_ignored Skin_zero (set_Trusted true Skin_zero)).
  reflexivity.
Defined.

(** * Further properties of the code *)

(** ** What the readers return *)

Lemma read_each_length {X} (w : error -> error) (d : Decoder X)
  (cells : list X) (src : buf) :
  length (dec_val (read_each w d cells src)) = length cells.
Proof.
  revert src. induction cells as [|c cs IH]; intros src; [reflexivity|].
  cbn [read_each]. destruct (d src c) as [[[e|] c'] s]; [reflexivity|].
  specialize (IH s). destruct (read_each w d cs s) as [[e cs'] s'].
  cbn [dec_val fst snd length] in *. now rewrite IH.
Qed.

Lemma read_each_Forall {X} (w : error -> error) (d : Decoder X) (P : X -> Prop)
  (cells l : list X) (src s : buf) :
  (forall s0 c0 c1 s1, d s0 c0 = (None, c1, s1) -> P c1) ->
  read_each w d cells src = (None, l, s) ->
  Forall P l.
Proof.
  intros Hd. revert src l s.
  induction cells as [|c cs IH]; intros src l s H; cbn [read_each] in H.
  - injection H as <- _. constructor.
  - destruct (d src c) as [[[e|] c'] s1] eqn:Hc; [discriminate|].
    destruct (read_each w d cs s1) as [[e cs'] s2] eqn:Hcs.
    injection H as -> <- _. constructor.
    + eapply Hd, Hc.
    + eapply IH, Hcs.
Qed.

Lemma make_length_Z {X} (zero : X) (n : Z) :
  0 <= n -> Z.of_nat (length (make zero n)) = n.
Proof. intros Hn. unfold make. rewrite repeat_length. lia. Qed.

Lemma varuint_loop_range (bits : Z) (n : nat) :
  forall i v src x r s,
    0 < bits ->
    varuint_loop bits n i v src x = (None, r, s) -> in_u bits r.
Proof.
  induction n as [|n IH]; intros i v src x r s Hb H; cbn [varuint_loop] in H;
    [discriminate|].
  destruct src as [|b src']; [discriminate|].
  destruct (Z.land (byte_val b) 128 =? 0).
  - injection H as <- _. unfold in_u, wrap_u. apply Z.mod_pos_bound.
    apply Z.pow_pos_nonneg; lia.
  - eapply IH; eauto.
Qed.

Lemma Varuint32_range (src : buf) (x r : Z) (s : buf) :
  Varuint32 src x = (None, r, s) -> in_u 32 r.
Proof. apply varuint_loop_range. lia. Qed.

Lemma Varuint64_range (src : buf) (x r : Z) (s : buf) :
  Varuint64 src x = (None, r, s) -> in_u 64 r.
Proof. apply varuint_loop_range. lia. Qed.

Lemma unzigzag_range (bits ux : Z) :
  0 < bits -> in_u bits ux -> in_s bits (unzigzag ux).
Proof.
  unfold in_u, in_s, unzigzag. intros Hb Hu.
  assert (Hp : 2 ^ bits = 2 * 2 ^ (bits - 1)).
  { replace bits with (1 + (bits - 1)) at 1 by lia.
    rewrite Z.pow_add_r by lia. reflexivity. }
  rewrite land_1, Z.shiftr_div_pow2 by lia. change (2 ^ 1) with 2.
  assert (Hm : ux mod 2 = 0 \/ ux mod 2 = 1) by (Z.div_mod_to_equations; lia).
  destruct Hm as [-> | ->].
  - change (- 0) with 0. rewrite Z.lxor_0_r. Z.div_mod_to_equations. lia.
  - rewrite Z.lxor_m1_r. unfold Z.lnot, Z.pred. Z.div_mod_to_equations. lia.
Qed.

Lemma Varint32_range (src : buf) (x r : Z) (s : buf) :
  Varint32 src x = (None, r, s) -> in_s 32 r.
Proof.
  unfold Varint32, varint_of.
  destruct (Varuint32 src 0) as [[[e|] ux] s1] eqn:Hu; [discriminate|].
  intros H. injection H as <- _.
  apply unzigzag_range; [lia|]. eapply Varuint32_range, Hu.
Qed.

Lemma Varint64_range (src : buf) (x r : Z) (s : buf) :
  Varint64 src x = (None, r, s) -> in_s 64 r.
Proof.
  unfold Varint64, varint_of.
  destruct (Varuint64 src 0) as [[[e|] ux] s1] eqn:Hu; [discriminate|].
  intros H. injection H as <- _.
  apply unzigzag_range; [lia|]. eapply Varuint64_range, Hu.
Qed.

Lemma le_value_range (bs : list byte) :
  0 <= le_value bs < 2 ^ (8 * Z.of_nat (length bs)).
Proof.
  induction bs as [|b bs IH]; [cbn; lia|].
  cbn [le_value length]. pose proof (byte_val_range b).
  replace (8 * Z.of_nat (S (length bs))) with (8 + 8 * Z.of_nat (length bs)) by lia.
  rewrite Z.pow_add_r by lia. change (2 ^ 8) with 256. nia.
Qed.

Lemma read_uint32_range (src : buf) (x r : Z) (s : buf) :
  read_uint32 src x = (None, r, s) -> in_u 32 r.
Proof.
  unfold read_uint32, read_fixed.
  destruct (Nat.ltb_spec (length src) 4) as [|Hlen]; [discriminate|].
  intros H. injection H as <- _.
  pose proof (le_value_range (firstn 4 src)) as Hr.
  rewrite length_firstn, Nat.min_l in Hr by lia. exact Hr.
Qed.

Lemma read_int32_range (src : buf) (x r : Z) (s : buf) :
  read_int32 src x = (None, r, s) -> in_s 32 r.
Proof.
  unfold read_int32, read_fixed.
  destruct (length src <? 4)%nat; [discriminate|].
  intros H. injection H as <- _. apply wrap_s_range. lia.
Qed.

Lemma ByteSlice_fits (src : buf) (x v : list byte) (s : buf) :
  ByteSlice src x = (None, v, s) -> fits_uint32 v.
Proof.
  unfold ByteSlice, fits_uint32.
  destruct (Varuint32 src 0) as [[[e|] len] s1] eqn:Hlen; [discriminate|].
  apply Varuint32_range in Hlen. unfold in_u in Hlen.
  destruct (Nat.ltb_spec (length s1) (Z.to_nat len)) as [|Hs]; [discriminate|].
  intros H. injection H as <- _. rewrite length_firstn. lia.
Qed.

Lemma String_fits (src : buf) (x v : gostring) (s : buf) :
  String src x = (None, v, s) -> fits_uint32 v.
Proof. apply ByteSlice_fits. Qed.

(** ** Packets *)

(** X14.  [ActorEvent]: [Unmarshal] reads back the packet that [Marshal]
    wrote, leaving what follows it in the buffer, whatever the packet held
    before. *)
Theorem ActorEvent_roundtrip (pk pk0 : ActorEvent) (rest : buf) :
  in_u 64 (EntityRuntimeID pk) ->
  in_s 32 (EventData pk) ->
  ActorEvent_Unmarshal (ActorEvent_Marshal pk ++ rest) pk0 = (None, pk, rest).
Proof.
  intros Hid Hdata. destruct pk as [id ty data].
  cbn [EntityRuntimeID EventData] in Hid, Hdata.
  unfold ActorEvent_Unmarshal, ActorEvent_Marshal. cbn [chainErr]. unfold field.
  cbn [EntityRuntimeID EventType EventData]. rewrite <- !app_assoc.
  rewrite Varuint64_Write by assumption.
  rewrite read_byte_write.
  rewrite Varint32_Write by assumption.
  reflexivity.
Qed.

(** X16.  [DebugInfo]: [Unmarshal] reads back the packet that [Marshal]
    wrote, for data short enough for its [uint32] length prefix. *)
Theorem DebugInfo_roundtrip (pk pk0 : DebugInfo) (rest : buf) :
  in_s 64 (PlayerUniqueID pk) ->
  fits_uint32 (Data pk) ->
  DebugInfo_Unmarshal (DebugInfo_Marshal pk ++ rest) pk0 = (None, pk, rest).
Proof.
  intros Hid Hdata. destruct pk as [id data].
  cbn [PlayerUniqueID Data] in Hid, Hdata.
  unfold DebugInfo_Unmarshal, DebugInfo_Marshal. cbn [chainErr]. unfold field.
  cbn [PlayerUniqueID Data]. rewrite <- !app_assoc.
  rewrite Varint64_Write by assumption.
  rewrite ByteSlice_Write by assumption.
  reflexivity.
Qed.

(** X17.  [SetSpawnPosition]: [Marshal] and [Unmarshal] agree on the order
    and the encoding of the four fields: whenever [UBlockPosition] reads back
    the two positions of the packet from what [WriteUBlockPosition] wrote,
    [Unmarshal] reads back the packet from what [Marshal] wrote. *)
Theorem SetSpawnPosition_roundtrip {BlockPos : Type}
  (UBlockPosition : Decoder BlockPos)
  (WriteUBlockPosition : BlockPos -> list byte)
  (pk pk0 : SetSpawnPosition BlockPos) (rest : buf) :
  (forall r x, UBlockPosition (WriteUBlockPosition (Position pk) ++ r) x
               = (None, Position pk, r)) ->
  (forall r x, UBlockPosition (WriteUBlockPosition (SpawnPosition pk) ++ r) x
               = (None, SpawnPosition pk, r)) ->
  in_s 32 (SpawnType pk) ->
  in_s 32 (Dimension pk) ->
  SetSpawnPosition_Unmarshal UBlockPosition
    (SetSpawnPosition_Marshal WriteUBlockPosition pk ++ rest) pk0
  = (None, pk, rest).
Proof.
  intros Hpos Hspawn Htype Hdim. destruct pk as [ty pos dim spawn].
  cbn [SpawnType Position Dimension SpawnPosition] in *.
  unfold SetSpawnPosition_Unmarshal, SetSpawnPosition_Marshal.
  cbn [chainErr]. unfold field.
  cbn [SpawnType Position Dimension SpawnPosition]. rewrite <- !app_assoc.
  rewrite Varint32_Write by assumption.
  cbn [set_SpawnType SpawnType Position Dimension SpawnPosition].
  rewrite Hpos.
  cbn [set_Position SpawnType Position Dimension SpawnPosition].
  rewrite Varint32_Write by assumption.
  cbn [set_Dimension SpawnType Position Dimension SpawnPosition].
  rewrite Hspawn.
  reflexivity.
Qed.

(** X18.  [CreativeContent]: [Unmarshal] reads back the items that [Marshal]
    wrote, whenever [CreativeEntry] reads back each of them from what
    [WriteCreativeEntry] wrote and their number fits the [uint32] prefix.
    No limit applies to that number. *)
Theorem CreativeContent_roundtrip {CreativeItem : Type} (zero : CreativeItem)
  (CreativeEntry : Decoder CreativeItem)
  (WriteCreativeEntry : CreativeItem -> list byte)
  (Items Items0 : list CreativeItem) (rest : buf) :
  (forall item r x, In item Items ->
     CreativeEntry (WriteCreativeEntry item ++ r) x = (None, item, r)) ->
  fits_uint32 Items ->
  CreativeContent_Unmarshal zero CreativeEntry
    (CreativeContent_Marshal WriteCreativeEntry Items ++ rest) Items0
  = (None, Items, rest).
Proof.
  unfold fits_uint32. intros Hentry Hlen.
  unfold CreativeContent_Unmarshal, CreativeContent_Marshal, wrap_u.
  rewrite Z.mod_small by lia.
  rewrite <- app_assoc, Varuint32_Write by (unfold in_u; lia).
  rewrite make_length. apply read_each_flat_map.
  intros c r x Hin. now apply Hentry.
Qed.

(** A varint cut short is not read. *)
Lemma varuint_loop_truncated (bits : Z) (n : nat) :
  forall (i v ux : Z) (p q : buf) (x : Z),
    p ++ q = put_varuint n ux -> q <> [] ->
    dec_err (varuint_loop bits n i v p x) <> None.
Proof.
  induction n as [|n IH]; intros i v ux p q x Hcut Hq.
  - cbn in Hcut. apply app_eq_nil in Hcut. now destruct Hcut.
  - rewrite put_varuint_S in Hcut.
    destruct p as [|b p]; [cbn; discriminate|].
    destruct (ux <? 128).
    + cbn in Hcut. injection Hcut as _ Hrest.
      apply app_eq_nil in Hrest. now destruct Hrest.
    + cbn [app] in Hcut. injection Hcut as -> Hrest.
      rewrite varuint_loop_cons. cbv zeta.
      rewrite byte_val_of, lor_high_byte.
      assert (H128 : 0 <= ux mod 128 < 128) by (apply Z.mod_pos_bound; lia).
      destruct (Z.ltb_spec (ux mod 128 + 128) 128); [lia|].
      eapply IH; eassumption.
Qed.

Lemma Varint32_truncated (v : Z) (p q : buf) (x : Z) :
  p ++ q = WriteVarint32 v -> q <> [] -> dec_err (Varint32 p x) <> None.
Proof.
  intros Hcut Hq. unfold Varint32, varint_of.
  pose proof (varuint_loop_truncated 32 5 0 0 (zigzag 32 v) p q 0 Hcut Hq) as H.
  fold Varuint32 in H.
  destruct (Varuint32 p 0) as [[[e|] ux] s]; [discriminate|].
  now contradiction H.
Qed.

Lemma first_err_l (e1 e2 : option error) :
  e1 <> None -> first_err e1 e2 <> None.
Proof. destruct e1; [discriminate|congruence]. Qed.

Lemma first_err_r (e1 e2 : option error) :
  e2 <> None -> first_err e1 e2 <> None.
Proof. destruct e1; [discriminate|auto]. Qed.

(** X15.  A truncated [ActorEvent] is never accepted: on every proper prefix
    of what [Marshal] wrote, [Unmarshal] returns an error. *)
Theorem ActorEvent_truncated_rejected (pk pk0 : ActorEvent) (p q : buf) :
  in_u 64 (EntityRuntimeID pk) ->
  p ++ q = ActorEvent_Marshal pk ->
  q <> [] ->
  dec_err (ActorEvent_Unmarshal p pk0) <> None.
Proof.
  intros Hid Hcut Hq. unfold ActorEvent_Marshal in Hcut.
  unfold ActorEvent_Unmarshal. cbn [chainErr]. unfold field.
  apply app_eq_app in Hcut. destruct Hcut as [l [[Hp Hrest] | [Hid_cut Hq']]].
  - (* the runtime ID is whole *)
    subst p. rewrite Varuint64_Write by assumption.
    destruct l as [|b l].
    + cbn [read_byte]. 
      destruct (Varint32 [] _) as [[e3 d] s3]. cbn [dec_err fst]. discriminate.
    + cbn [app write_byte] in Hrest. injection Hrest as <- Hdata.
      cbn [read_byte].
      match goal with |- context [Varint32 l ?x] =>
        pose proof (Varint32_truncated (EventData pk) l q x
                      (eq_sym Hdata) Hq) as H3
      end.
      destruct (Varint32 l _) as [[e3 d] s3]. cbn [dec_err fst] in *.
      destruct e3; [discriminate|]. now contradiction H3.
  - (* the runtime ID is cut *)
    destruct l as [|b l].
    + rewrite app_nil_r in Hid_cut. subst p.
      rewrite <- (app_nil_r (WriteVaruint64 _)).
      rewrite Varuint64_Write by assumption.
      destruct (read_byte [] _) as [[e2 t] s2] eqn:H2. cbn in H2.
      injection H2 as <- <- <-.
      destruct (Varint32 [] _) as [[e3 d] s3]. cbn [dec_err fst]. discriminate.
    + assert (Hb : b :: l <> []) by discriminate.
      pose proof (varuint_loop_truncated 64 10 0 0 (EntityRuntimeID pk) p (b :: l)
                    (EntityRuntimeID pk0) (eq_sym Hid_cut) Hb) as H1.
      fold Varuint64 in H1.
      destruct (Varuint64 p _) as [[e1 id'] s1]. cbn [dec_err fst] in H1.
      destruct (read_byte s1 _) as [[e2 t] s2].
      destruct (Varint32 s2 _) as [[e3 d] s3]. cbn [dec_err fst].
      now apply first_err_l.
Qed.

(** ** Readers that never answer [LIMIT] *)

Lemma field_no_limit {X A} (get : X -> A) (set : A -> X -> X) (d : Decoder A) :
  no_limit d -> no_limit (field get set d).
Proof.
  intros Hd s x. unfold field. specialize (Hd s (get x)).
  destruct (d s (get x)) as [[e a] s']. exact Hd.
Qed.

Lemma chainErr_no_limit {X} (ds : list (Decoder X)) :
  Forall no_limit ds -> no_limit (chainErr ds).
Proof.
  induction 1 as [|d ds Hd _ IH]; intros s x; [reflexivity|].
  cbn [chainErr]. specialize (Hd s x).
  destruct (d s x) as [[e1 x1] s1]. specialize (IH s1 x1).
  destruct (chainErr ds s1 x1) as [[e2 x2] s2].
  cbn [dec_err fst] in *. destruct e1; assumption.
Qed.

Lemma Varuint_no_limit (bits : Z) (n : nat) (i v : Z) :
  no_limit (varuint_loop bits n i v).
Proof. intros s x. apply varuint_loop_no_limit. Qed.

Lemma varint_of_no_limit (d : Decoder Z) : no_limit d -> no_limit (varint_of d).
Proof.
  intros Hd s x. unfold varint_of. specialize (Hd s 0).
  destruct (d s 0) as [[[e|] ux] s']; [exact Hd|reflexivity].
Qed.

Lemma read_byte_no_limit' : no_limit read_byte.
Proof. intros s x. apply read_byte_no_limit. Qed.

Lemma read_bool_no_limit : no_limit read_bool.
Proof. intros [|b s] x; reflexivity. Qed.

Lemma read_each_no_limit {X} (d : Decoder X) (cells : list X) (src : buf) :
  no_limit d -> is_limit (dec_err (read_each wrap d cells src)) = false.
Proof.
  intros Hd. revert src. induction cells as [|c cs IH]; intros src; [reflexivity|].
  cbn [read_each]. specialize (Hd src c).
  destruct (d src c) as [[[e|] c'] s]; [exact Hd|].
  specialize (IH s). destruct (read_each wrap d cs s) as [[e cs'] s']. exact IH.
Qed.

Lemma EntityLinkAction_no_limit : no_limit EntityLinkAction.
Proof.
  apply chainErr_no_limit.
  repeat constructor; apply field_no_limit;
    first [ apply varint_of_no_limit, Varuint_no_limit
          | apply read_byte_no_limit'
          | apply read_bool_no_limit ].
Qed.

(** ** Entity links *)

(** X8.  [EntityLinks] answers with a [LIMIT] error exactly when the length
    prefix is above [lowerLimit]; it has then read the prefix and nothing
    more, and the output slice is as it was. *)
Theorem EntityLinks_limit_iff (src : buf) (x : list EntityLink) :
  (forall count s,
      Varuint32 src 0 = (None, count, s) -> lowerLimit < count ->
      EntityLinks src x = (Some (LIMIT lowerLimit "entity link"), x, s))
  /\ (is_limit (dec_err (EntityLinks src x)) = true ->
      exists count s,
        Varuint32 src 0 = (None, count, s) /\ lowerLimit < count).
Proof.
  split.
  - intros count s Hcount Hover. unfold EntityLinks. rewrite Hcount.
    destruct (Z.gtb_spec count lowerLimit) as [_|]; [reflexivity|lia].
  - unfold EntityLinks.
    pose proof (Varuint_no_limit 32 5 0 0 src 0) as Hv. fold Varuint32 in Hv.
    destruct (Varuint32 src 0) as [[[e|] count] s].
    + cbn [dec_err fst] in *. unfold wrap. congruence.
    + destruct (Z.gtb_spec count lowerLimit) as [Hover|_].
      * intros _. now exists count, s.
      * rewrite read_each_no_limit by apply EntityLinkAction_no_limit.
        discriminate.
Qed.

Lemma EntityLinkAction_wf (s0 : buf) (c0 c1 : EntityLink) (s1 : buf) :
  EntityLinkAction s0 c0 = (None, c1, s1) -> wf_EntityLink c1.
Proof.
  unfold EntityLinkAction. cbn [chainErr]. unfold field.
  destruct (Varint64 s0 _) as [[e1 v1] t1] eqn:H1.
  destruct (Varint64 t1 _) as [[e2 v2] t2] eqn:H2.
  destruct (read_byte t2 _) as [[e3 v3] t3].
  destruct (read_bool t3 _) as [[e4 v4] t4].
  destruct (read_bool t4 _) as [[e5 v5] t5].
  destruct e1; [discriminate|]. destruct e2; [discriminate|].
  intros H. injection H as _ <- _.
  split; cbn; [eapply Varint64_range, H1 | eapply Varint64_range, H2].
Qed.

(** X9.  Every list that [EntityLinks] returns has at most [lowerLimit]
    links, each with IDs in the range of [int64], and is read back unchanged
    from what [WriteEntityLinks] writes for it. *)
Theorem EntityLinks_decoded_reencodes (src : buf) (x0 x1 l : list EntityLink)
  (s : buf) :
  EntityLinks src x0 = (None, l, s) ->
  Z.of_nat (length l) <= lowerLimit
  /\ Forall wf_EntityLink l
  /\ EntityLinks (WriteEntityLinks l) x1 = (None, l, []).
Proof.
  intros H.
  assert (Hlen : Z.of_nat (length l) <= lowerLimit).
  { unfold EntityLinks in H.
    destruct (Varuint32 src 0) as [[[e|] count] s1] eqn:Hcount; [discriminate|].
    apply Varuint32_range in Hcount. unfold in_u in Hcount.
    destruct (Z.gtb_spec count lowerLimit) as [|Hle]; [discriminate|].
    pose proof (read_each_length wrap EntityLinkAction
                  (make EntityLink_zero count) s1) as Hl.
    rewrite H in Hl. cbn [dec_val fst snd] in Hl.
    rewrite Hl, make_length_Z; lia. }
  assert (Hwf : Forall wf_EntityLink l).
  { unfold EntityLinks in H.
    destruct (Varuint32 src 0) as [[[e|] count] s1]; [discriminate|].
    destruct (count >? lowerLimit); [discriminate|].
    eapply read_each_Forall; [|exact H]. apply EntityLinkAction_wf. }
  split; [exact Hlen|]. split; [exact Hwf|].
  rewrite <- (app_nil_r (WriteEntityLinks l)). now apply EntityLinks_Write.
Qed.

(** ** Enchantments *)

Lemma ItemEnchants_bucket_fits (src : buf) (x l : list EnchantmentInstance)
  (s : buf) :
  ItemEnchants_bucket src x = (None, l, s) -> fits_uint32 l.
Proof.
  unfold ItemEnchants_bucket, fits_uint32.
  destruct (Varuint32 src 0) as [[[e|] count] s1] eqn:Hcount; [discriminate|].
  apply Varuint32_range in Hcount. unfold in_u in Hcount.
  intros H.
  pose proof (read_each_length (fun e => e) Enchant
                (make EnchantmentInstance_zero count) s1) as Hl.
  rewrite H in Hl. cbn [dec_val fst snd] in Hl.
  rewrite Hl, make_length_Z; lia.
Qed.

Lemma ItemEnchants_wf (src : buf) (x v : ItemEnchantments) (s : buf) :
  ItemEnchants src x = (None, v, s) -> wf_ItemEnchantments v.
Proof.
  unfold ItemEnchants, field.
  destruct (read_int32 src _) as [[[e|] slot] s0] eqn:Hslot; [discriminate|].
  destruct (ItemEnchants_bucket s0 _) as [[[e|] l0] s1] eqn:H0; [discriminate|].
  destruct (ItemEnchants_bucket s1 _) as [[[e|] l1] s2] eqn:H1; [discriminate|].
  destruct (ItemEnchants_bucket s2 _) as [[[e|] l2] s3] eqn:H2; [discriminate|].
  intros H. injection H as <- _.
  apply read_int32_range in Hslot.
  apply ItemEnchants_bucket_fits in H0, H1, H2.
  unfold wf_ItemEnchantments. cbn. auto.
Qed.

Lemma EnchantOption_wf (src : buf) (x v : EnchantmentOption) (s : buf) :
  EnchantOption src x = (None, v, s) -> wf_EnchantmentOption v.
Proof.
  unfold EnchantOption. cbn [chainErr]. unfold field.
  destruct (Varuint32 src _) as [[e1 cost] s1] eqn:H1.
  destruct (ItemEnchants s1 _) as [[e2 ench] s2] eqn:H2.
  destruct (String s2 _) as [[e3 name] s3] eqn:H3.
  destruct (Varuint32 s3 _) as [[e4 recipe] s4] eqn:H4.
  destruct e1; [discriminate|]. destruct e2; [discriminate|].
  destruct e3; [discriminate|]. destruct e4; [discriminate|].
  intros H. injection H as <- _.
  apply Varuint32_range in H1, H4. apply ItemEnchants_wf in H2.
  apply String_fits in H3.
  unfold wf_EnchantmentOption. cbn. auto.
Qed.

(** X10.  Every option that [EnchantOption] returns is read back unchanged
    from what [WriteEnchantOption] writes for it: its cost and recipe ID are
    within [uint32], its slot within [int32], and its three buckets and its
    name have lengths the [uint32] prefix can carry. *)
Theorem EnchantOption_decoded_reencodes (src : buf)
  (x0 x1 v : EnchantmentOption) (s : buf) :
  EnchantOption src x0 = (None, v, s) ->
  wf_EnchantmentOption v
  /\ EnchantOption (WriteEnchantOption v) x1 = (None, v, []).
Proof.
  intros H. apply EnchantOption_wf in H. split; [exact H|].
  rewrite <- (app_nil_r (WriteEnchantOption v)). now apply EnchantOption_Write.
Qed.

(** ** Item stacks, further *)

Lemma Item_blocks_success (type : string) (src : buf) (x l : list gostring)
  (s : buf) :
  Item_blocks type src x = (None, l, s) ->
  wf_blocks l /\ forall x', Item_blocks type src x' = (None, l, s).
Proof.
  unfold Item_blocks.
  destruct (Varint32 src 0) as [[[e|] count] s1]; [discriminate|].
  destruct (Z.ltb_spec count 0) as [|Hpos]; [discriminate|].
  destruct (Z.gtb_spec count higherLimit) as [|Hle]; [discriminate|].
  intros H. split; [split|].
  - pose proof (read_each_length wrap String (make [] count) s1) as Hl.
    rewrite H in Hl. cbn [dec_val fst snd] in Hl.
    rewrite Hl, make_length_Z; lia.
  - eapply read_each_Forall; [|exact H].
    intros s0 c0 c1 s2. apply String_fits.
  - intros x'. exact H.
Qed.

(** The NBT block of [Item] looks at the NBT data of the stack and at
    nothing else of it, and changes nothing else. *)
Lemma Item_nbt_frame (nbt : NbtCodec) (marker : Z) (src : buf) (x : ItemStack) :
  Item_nbt nbt marker src x
  = let '(e, y, s) :=
      Item_nbt nbt marker src (set_NBTData (NBTData_of x) ItemStack_zero) in
    (e, set_NBTData (NBTData_of y) x, s).
Proof.
  destruct x as [ty count data place brk]. unfold Item_nbt, field, Next.
  cbn [NBTData_of set_NBTData].
  destruct (marker =? 0); [reflexivity|].
  destruct (marker =? -1).
  - destruct (read_byte src x00) as [[[e|] c] s]; [reflexivity|].
    destruct (negb (byte_val c =? 1)); [reflexivity|].
    destruct (nbt_Decode nbt s data) as [[[e|] m] s']; reflexivity.
  - destruct (marker <? 0); [reflexivity|].
    destruct (nbt_UnmarshalEncoding nbt _ data) as [[e|] m]; reflexivity.
Qed.

Ltac item_fields_in H :=
  cbn [set_NetworkID set_MetadataValue set_Count set_NBTData set_CanBePlacedOn
         set_CanBreak ItemStack_ItemType NetworkID MetadataValue Count
         NBTData_of CanBePlacedOn CanBreak] in H.

(** What a successful [Item] has read, step by step. *)
Lemma Item_success_steps (nbt : NbtCodec) (src : buf) (x0 x : ItemStack) (s : buf) :
  Item nbt src x0 = (None, x, s) ->
  exists (networkID : Z) (s1 : buf),
    Varint32 src 0 = (None, networkID, s1)
    /\ ((networkID = 0 /\ x = ItemStack_zero /\ s = s1)
        \/ (networkID <> 0
            /\ exists (auxValue marker : Z) (y : ItemStack)
                      (l1 l2 : list gostring) (s2 s3 s4 s5 s6 : buf),
                Varint32 s1 0 = (None, auxValue, s2)
                /\ read_int16 s2 0 = (None, marker, s3)
                /\ Item_nbt nbt marker s3 (set_NBTData [] ItemStack_zero)
                   = (None, y, s4)
                /\ Item_blocks "item can be placed on" s4 [] = (None, l1, s5)
                /\ Item_blocks "item can break" s5 [] = (None, l2, s6)
                /\ (if networkID =? shieldID
                    then exists t, Varint64 s6 0 = (None, t, s)
                    else s = s6)
                /\ x = {| ItemStack_ItemType :=
                            {| NetworkID := networkID;
                               MetadataValue := wrap_s 16 (Z.shiftr auxValue 8) |};
                          Count := wrap_s 16 (Z.land auxValue 255);
                          NBTData_of := NBTData_of y;
                          CanBePlacedOn := l1;
                          CanBreak := l2 |})).
Proof.
  intros H. unfold Item, field in H. rewrite Varint32_target in H.
  destruct (Varint32 src 0) as [[[e|] networkID] s1]; [discriminate|].
  item_fields_in H. exists networkID, s1. split; [reflexivity|].
  destruct (Z.eqb_spec networkID 0) as [->|Hitem].
  { left. injection H as <- <-. repeat split. }
  right. split; [exact Hitem|].
  destruct (Varint32 s1 0) as [[[e|] auxValue] s2] eqn:Haux; [discriminate|].
  destruct (read_int16 s2 0) as [[[e|] marker] s3] eqn:Hmarker; [discriminate|].
  rewrite Item_nbt_frame in H. item_fields_in H.
  destruct (Item_nbt nbt marker s3 (set_NBTData [] ItemStack_zero))
    as [[[e|] y] s4] eqn:Hnbt; [discriminate|].
  item_fields_in H.
  destruct (Item_blocks "item can be placed on" s4 _) as [[[e|] l1] s5] eqn:H1;
    [discriminate|].
  apply Item_blocks_success in H1. destruct H1 as [_ H1].
  item_fields_in H.
  destruct (Item_blocks "item can break" s5 _) as [[[e|] l2] s6] eqn:H2;
    [discriminate|].
  apply Item_blocks_success in H2. destruct H2 as [_ H2].
  item_fields_in H.
  exists auxValue, marker, y, l1, l2, s2, s3, s4, s5, s6.
  split; [first [reflexivity | exact Haux]|].
  split; [first [reflexivity | exact Hmarker]|].
  split; [first [reflexivity | exact Hnbt]|].
  split; [apply H1|]. split; [apply H2|].
  destruct (networkID =? shieldID).
  - destruct (Varint64 s6 0) as [[[e|] t] s7] eqn:Ht; [discriminate|].
    injection H as <- <-. split; [now exists t | reflexivity].
  - injection H as <- <-. split; reflexivity.
Qed.

(** And back: those steps make [Item] succeed, on any output. *)
Lemma Item_of_steps (nbt : NbtCodec) (src : buf) (x0 : ItemStack)
  (networkID auxValue marker : Z) (y : ItemStack) (l1 l2 : list gostring)
  (s1 s2 s3 s4 s5 s6 s : buf) :
  Varint32 src 0 = (None, networkID, s1) ->
  networkID <> 0 ->
  Varint32 s1 0 = (None, auxValue, s2) ->
  read_int16 s2 0 = (None, marker, s3) ->
  Item_nbt nbt marker s3 (set_NBTData [] ItemStack_zero) = (None, y, s4) ->
  Item_blocks "item can be placed on" s4 [] = (None, l1, s5) ->
  Item_blocks "item can break" s5 [] = (None, l2, s6) ->
  (if networkID =? shieldID
   then exists t, Varint64 s6 0 = (None, t, s)
   else s = s6) ->
  Item nbt src x0
  = (None,
     {| ItemStack_ItemType :=
          {| NetworkID := networkID;
             MetadataValue := wrap_s 16 (Z.shiftr auxValue 8) |};
        Count := wrap_s 16 (Z.land auxValue 255);
        NBTData_of := NBTData_of y;
        CanBePlacedOn := l1;
        CanBreak := l2 |}, s).
Proof.
  intros Hid Hitem Haux Hmarker Hnbt H1 H2 Htail.
  unfold Item, field. rewrite Varint32_target, Hid. item_fields.
  destruct (Z.eqb_spec networkID 0) as [|_]; [contradiction|].
  rewrite Haux, Hmarker, Item_nbt_frame. item_fields. rewrite Hnbt. item_fields.
  apply Item_blocks_success in H1. destruct H1 as [_ H1]. rewrite H1.
  item_fields.
  apply Item_blocks_success in H2. destruct H2 as [_ H2]. rewrite H2.
  item_fields.
  destruct (networkID =? shieldID).
  - destruct Htail as [t Ht]. rewrite Ht. reflexivity.
  - now subst s.
Qed.

(** X4.  A successful [Item] overwrites every field of its output: the
    stack, the error and the cursor it leaves are the same whatever the
    output held before. *)
Theorem Item_overwrites_output (nbt : NbtCodec) (src : buf)
  (x0 x0' x : ItemStack) (s : buf) :
  Item nbt src x0 = (None, x, s) ->
  Item nbt src x0' = (None, x, s).
Proof.
  intros H. apply Item_success_steps in H.
  destruct H as (networkID & s1 & Hid & [(-> & -> & ->) | (Hitem & H)]).
  - unfold Item, field. rewrite Varint32_target, Hid. reflexivity.
  - destruct H as (auxValue & marker & y & l1 & l2 & s2 & s3 & s4 & s5 & s6
                   & Haux & Hmarker & Hnbt & H1 & H2 & Htail & ->).
    eapply Item_of_steps; eassumption.
Qed.

(** X2.  Every stack that [Item] returns has a count of one byte, a
    metadata value within [int16], and block lists of at most [higherLimit]
    strings, each short enough for its length prefix. *)
Theorem Item_success_bounds (nbt : NbtCodec) (src : buf) (x0 x : ItemStack)
  (s : buf) :
  Item nbt src x0 = (None, x, s) ->
  0 <= Count x <= 255
  /\ in_s 16 (MetadataValue x)
  /\ wf_blocks (CanBePlacedOn x)
  /\ wf_blocks (CanBreak x).
Proof.
  intros H. apply Item_success_steps in H.
  destruct H as (networkID & s1 & Hid & [(_ & -> & _) | (Hitem & H)]).
  - cbn. unfold in_s, wf_blocks, higherLimit. cbn.
    repeat split; try lia; constructor.
  - destruct H as (auxValue & marker & y & l1 & l2 & s2 & s3 & s4 & s5 & s6
                   & Haux & Hmarker & Hnbt & H1 & H2 & Htail & ->).
    item_fields.
    apply Item_blocks_success in H1, H2.
    split; [|split; [apply wrap_s_range; lia | split; [apply H1 | apply H2]]].
    change 255 with (Z.ones 8) at 1 2. rewrite Z.land_ones by lia.
    change (2 ^ 8) with 256.
    assert (Hm : 0 <= auxValue mod 256 < 256) by (apply Z.mod_pos_bound; lia).
    rewrite wrap_s_id; [lia | lia |].
    unfold in_s. change (2 ^ (16 - 1)) with 32768. lia.
Qed.

Lemma aux_packed (meta count : Z) :
  -128 <= meta <= 127 -> 0 <= count <= 255 ->
  Z.lor (wrap_s 16 (Z.shiftl meta 8)) count = count + meta * 256.
Proof.
  intros Hmeta Hcount.
  rewrite wrap_s_id
    by (try lia; unfold in_s; rewrite Z.shiftl_mul_pow2 by lia;
        change (2 ^ (16 - 1)) with 32768; change (2 ^ 8) with 256; lia).
  rewrite Z.lor_comm, lor_shiftl_add by (change (2 ^ 8) with 256; lia).
  reflexivity.
Qed.

Lemma aux_unpacked (meta count : Z) :
  -128 <= meta <= 127 -> 0 <= count <= 255 ->
  let auxValue := Z.lor (wrap_s 16 (Z.shiftl meta 8)) count in
  in_s 32 auxValue
  /\ wrap_s 16 (Z.shiftr auxValue 8) = meta
  /\ wrap_s 16 (Z.land auxValue 255) = count.
Proof.
  intros Hmeta Hcount auxValue. subst auxValue.
  rewrite aux_packed by assumption.
  replace (Z.land (count + meta * 256) 255) with ((count + meta * 256) mod 256)
    by (symmetry; apply (Z.land_ones _ 8); lia).
  rewrite Z.shiftr_div_pow2 by lia. change (2 ^ 8) with 256.
  replace ((count + meta * 256) / 256) with meta
    by (Z.div_mod_to_equations; lia).
  replace ((count + meta * 256) mod 256) with count
    by (Z.div_mod_to_equations; lia).
  split; [unfold in_s; change (2 ^ (32 - 1)) with 2147483648; lia|].
  split; apply wrap_s_id; try lia;
    unfold in_s; change (2 ^ (16 - 1)) with 32768; lia.
Qed.

(** X1.  [Item] reads back every stack without NBT that is not air from what
    [WriteItem] wrote for it, when the metadata is within [-128, 127] and the
    count within [0, 255]; [WriteItem] reports no error, and what follows the
    stack in the buffer is left there. *)
Theorem Item_WriteItem_roundtrip (nbt : NbtCodec) (x x0 : ItemStack) (rest : buf) :
  wf_plain_ItemStack x ->
  NetworkID x <> 0 ->
  snd (WriteItem nbt x) = None
  /\ Item nbt (fst (WriteItem nbt x) ++ rest) x0 = (None, x, rest).
Proof.
  intros (Hid & Hmeta & Hcount & Hnbt & Hplace & Hbreak) Hitem.
  destruct x as [[networkID meta] count data place brk].
  cbn [ItemStack_ItemType NetworkID MetadataValue Count NBTData_of
         CanBePlacedOn CanBreak] in *.
  subst data.
  destruct (aux_unpacked meta count Hmeta Hcount) as (Haux & Hm & Hc).
  unfold WriteItem. item_fields. cbn [length Z.of_nat Z.eqb negb].
  destruct (Z.eqb_spec networkID 0) as [|_]; [contradiction|].
  rewrite !blocks_length_int32 by assumption.
  set (auxValue := Z.lor (wrap_s 16 (Z.shiftl meta 8)) count) in *.
  assert (Hsteps : forall b tail,
             (if networkID =? shieldID
              then exists t, Varint64 tail 0 = (None, t, rest)
              else rest = tail) ->
             b = WriteVarint32 networkID ++ WriteVarint32 auxValue
                   ++ write_int16 0
                   ++ canonical_blocks place ++ canonical_blocks brk ++ tail ->
             Item nbt b x0
             = (None,
                {| ItemStack_ItemType :=
                     {| NetworkID := networkID;
                        MetadataValue := wrap_s 16 (Z.shiftr auxValue 8) |};
                   Count := wrap_s 16 (Z.land auxValue 255);
                   NBTData_of := NBTData_of (set_NBTData [] ItemStack_zero);
                   CanBePlacedOn := place; CanBreak := brk |}, rest)).
  { intros b tail Htail ->.
    eapply Item_of_steps with (marker := 0).
    - apply Varint32_Write, Hid.
    - exact Hitem.
    - apply Varint32_Write, Haux.
    - apply read_fixed_le_bytes.
    - reflexivity.
    - apply Item_blocks_canonical, Hplace.
    - apply Item_blocks_canonical, Hbreak.
    - exact Htail. }
  rewrite Hm, Hc in Hsteps. cbn [NBTData_of set_NBTData] in Hsteps.
  unfold canonical_blocks in Hsteps.
  destruct (networkID =? shieldID) eqn:Hshield; cbn [fst snd];
    (split; [reflexivity|]).
  - apply (Hsteps _ (WriteVarint64 0 ++ rest)).
    + exists 0. apply Varint64_Write. unfold in_s. cbn. lia.
    + now rewrite <- !app_assoc.
  - apply (Hsteps _ rest); [reflexivity|]. now rewrite <- !app_assoc.
Qed.

(** X3.  The guard of the first block list of [Item], for a stack without
    NBT: a length prefix that is negative is answered with [NEGATIVE], one
    above [higherLimit] with [LIMIT]; in both cases [Item] has read the
    prefix and nothing after it, and the two block lists of the output are
    the ones it held before: no slice is made. *)
Theorem Item_CanBePlacedOn_guard (nbt : NbtCodec) (src : buf) (x0 : ItemStack)
  (networkID auxValue count : Z) (s1 s2 s3 s4 : buf) :
  Varint32 src 0 = (None, networkID, s1) ->
  networkID <> 0 ->
  Varint32 s1 0 = (None, auxValue, s2) ->
  read_int16 s2 0 = (None, 0, s3) ->
  Varint32 s3 0 = (None, count, s4) ->
  count < 0 \/ higherLimit < count ->
  let r := Item nbt src x0 in
  dec_err r
  = Some (if count <? 0 then NEGATIVE "item can be placed on"
          else LIMIT higherLimit "item can be placed on")
  /\ dec_src r = s4
  /\ CanBePlacedOn (dec_val r) = CanBePlacedOn x0
  /\ CanBreak (dec_val r) = CanBreak x0.
Proof.
  intros Hid Hitem Haux Hmarker Hcount Hout r. subst r.
  unfold Item, field. rewrite Varint32_target, Hid. item_fields.
  destruct (Z.eqb_spec networkID 0) as [|_]; [contradiction|].
  rewrite Haux, Hmarker. unfold Item_nbt. cbn [Z.eqb]. item_fields.
  unfold Item_blocks. rewrite Hcount.
  destruct (Z.ltb_spec count 0) as [Hneg|Hpos]; [repeat split|].
  destruct (Z.gtb_spec count higherLimit) as [Hover|Hle]; [repeat split|].
  lia.
Qed.

(** ** Recipe ingredients, further *)

Lemma in_s_16_32 (z : Z) : in_s 16 z -> in_s 32 z.
Proof.
  unfold in_s. change (2 ^ (16 - 1)) with 32768.
  change (2 ^ (32 - 1)) with 2147483648. lia.
Qed.

(** X5.  [RecipeIngredient] reads back the network ID, the metadata and the
    count that [WriteRecipeIngredient] wrote, when the count is not
    negative, and sets nothing else; for air it sets the network ID alone,
    and the metadata and count of the output stay what they were. *)
Theorem RecipeIngredient_roundtrip (x x0 : ItemStack) (rest : buf) :
  in_s 32 (NetworkID x) ->
  in_s 16 (MetadataValue x) ->
  in_s 16 (Count x) ->
  0 <= Count x ->
  RecipeIngredient (WriteRecipeIngredient x ++ rest) x0
  = (None,
     if NetworkID x =? 0 then set_NetworkID 0 x0
     else set_Count (Count x)
            (set_MetadataValue (MetadataValue x)
               (set_NetworkID (NetworkID x) x0)),
     rest).
Proof.
  intros Hid Hmeta Hcount Hpos.
  unfold RecipeIngredient, WriteRecipeIngredient, field.
  rewrite <- app_assoc, Varint32_Write by assumption. item_fields.
  destruct (Z.eqb_spec (NetworkID x) 0) as [Hair|Hitem].
  - rewrite Hair. reflexivity.
  - rewrite <- app_assoc.
    rewrite Varint32_Write by (apply in_s_16_32; assumption).
    rewrite Varint32_Write by (apply in_s_16_32; assumption).
    destruct (Z.ltb_spec (Count x) 0) as [|_]; [lia|].
    rewrite !wrap_s_id by (assumption || lia). reflexivity.
Qed.

(** X6.  [WriteRecipeIngredient] writes a negative count as it is, and
    [RecipeIngredient] refuses it: an ingredient that is not air and has a
    negative count is written to bytes that are read back as a [NEGATIVE]
    error. *)
Theorem RecipeIngredient_rejects_negative_count (x x0 : ItemStack) (rest : buf) :
  in_s 32 (NetworkID x) ->
  NetworkID x <> 0 ->
  in_s 16 (MetadataValue x) ->
  in_s 16 (Count x) ->
  Count x < 0 ->
  dec_err (RecipeIngredient (WriteRecipeIngredient x ++ rest) x0)
  = Some (NEGATIVE "recipe ingredient count").
Proof.
  intros Hid Hitem Hmeta Hcount Hneg.
  unfold RecipeIngredient, WriteRecipeIngredient, field.
  rewrite <- app_assoc, Varint32_Write by assumption. item_fields.
  destruct (Z.eqb_spec (NetworkID x) 0) as [|_]; [contradiction|].
  rewrite <- app_assoc.
  rewrite Varint32_Write by (apply in_s_16_32; assumption).
  rewrite Varint32_Write by (apply in_s_16_32; assumption).
  destruct (Z.ltb_spec (Count x) 0) as [_|]; [reflexivity|lia].
Qed.

(** X7.  [RecipeIngredient] never touches the NBT data and the two block
    lists of its output, on any input, whether it ends with an error or
    not. *)
Theorem RecipeIngredient_frame (src : buf) (x : ItemStack) :
  let r := RecipeIngredient src x in
  NBTData_of (dec_val r) = NBTData_of x
  /\ CanBePlacedOn (dec_val r) = CanBePlacedOn x
  /\ CanBreak (dec_val r) = CanBreak x.
Proof.
  unfold RecipeIngredient, field.
  destruct (Varint32 src _) as [[[e|] networkID] s1]; [repeat split|].
  item_fields.
  destruct (networkID =? 0); [repeat split|].
  destruct (Varint32 s1 0) as [[[e|] meta] s2]; [repeat split|].
  destruct (Varint32 s2 0) as [[[e|] count] s3]; [repeat split|].
  destruct (count <? 0); repeat split.
Qed.

(** ** The packet registry *)

Lemma map_get_set {A} (k k' : Z) (v : A) (m : gomap A) :
  map_get k' (map_set k v m) = if k =? k' then Some v else map_get k' m.
Proof.
  induction m as [|[k0 v0] m IH]; cbn [map_set map_get]; [reflexivity|].
  destruct (Z.eqb_spec k0 k) as [->|Hk0]; cbn [map_get].
  - destruct (k =? k'); reflexivity.
  - rewrite IH. destruct (Z.eqb_spec k0 k') as [->|_]; [|reflexivity].
    destruct (Z.eqb_spec k k'); [congruence|reflexivity].
Qed.

Lemma map_set_keys {A} (k : Z) (v : A) (m : gomap A) :
  NoDup (map fst m) -> NoDup (map fst (map_set k v m))
  /\ (forall k', In k' (map fst (map_set k v m)) -> k' = k \/ In k' (map fst m)).
Proof.
  induction m as [|[k0 v0] m IH]; cbn [map_set map fst]; intros Hnd.
  - split; [repeat constructor; intros []|]. intros k' [<-|[]]. now left.
  - inversion Hnd as [|? ? Hnotin Hnd']; subst.
    destruct (Z.eqb_spec k0 k) as [->|Hk0]; cbn [map fst].
    + split; [exact Hnd|]. intros k' Hin. now right.
    + destruct (IH Hnd') as [IHnd IHin]. split.
      * constructor; [|exact IHnd]. intros Hin.
        destruct (IHin _ Hin) as [->|Hold]; [congruence|contradiction].
      * intros k' [<-|Hin]; [right; now left|].
        destruct (IHin _ Hin) as [->|Hold]; [now left|right; now right].
Qed.

Lemma map_get_None {A} (k : Z) (m : gomap A) :
  ~ In k (map fst m) -> map_get k m = None.
Proof.
  induction m as [|[k0 v0] m IH]; cbn [map fst map_get]; intros Hnotin;
    [reflexivity|].
  destruct (Z.eqb_spec k0 k) as [->|_].
  - exfalso. apply Hnotin. now left.
  - apply IH. intros Hin. apply Hnotin. now right.
Qed.

Lemma find_app_or {A} (f : A -> bool) (l1 l2 : list A) :
  find f (l1 ++ l2)
  = match find f l1 with
    | Some a => Some a
    | None => find f l2
    end.
Proof.
  induction l1 as [|a l1 IH]; cbn [app find]; [reflexivity|].
  destruct (f a); [reflexivity|exact IH].
Qed.

Lemma registered_from {Packet} (calls : list (Z * (unit -> Packet)))
  (m : gomap (unit -> Packet)) (id : Z) :
  NoDup (map fst m) ->
  let m' := fold_left (fun m c => Register (fst c) (snd c) m) calls m in
  NoDup (map fst m')
  /\ map_get id m'
     = match find (fun c => fst c =? id) (rev calls) with
       | Some c => Some (snd c)
       | None => map_get id m
       end.
Proof.
  revert m. induction calls as [|[k pk] calls IH]; intros m Hnd; cbn [fold_left].
  - split; [exact Hnd|reflexivity].
  - destruct (IH (Register k pk m)) as [IHnd IHget].
    { apply map_set_keys, Hnd. }
    cbv zeta in *. cbn [fst snd] in *. split; [exact IHnd|].
    rewrite IHget. cbn [rev]. rewrite find_app_or.
    destruct (find _ (rev calls)) as [c|]; [reflexivity|].
    unfold Register. rewrite map_get_set. cbn [find fst snd].
    destruct (k =? id); reflexivity.
Qed.

Lemma NewPool_from {Packet} (regs : gomap (unit -> Packet)) (p : gomap Packet)
  (id : Z) :
  NoDup (map fst regs) ->
  map_get id (fold_left (fun p e => map_set (fst e) (snd e tt) p) regs p)
  = match map_get id regs with
    | Some pk => Some (pk tt)
    | None => map_get id p
    end.
Proof.
  revert p. induction regs as [|[k pk] regs IH]; intros p Hnd;
    cbn [fold_left map_get fst snd]; [reflexivity|].
  cbn [map fst] in Hnd. inversion Hnd as [|? ? Hnotin Hnd']; subst.
  rewrite IH by assumption. rewrite map_get_set.
  destruct (Z.eqb_spec k id) as [->|_]; [|reflexivity].
  now rewrite map_get_None.
Qed.

(** X19.  After any series of calls of [Register], the pool that [NewPool]
    returns holds, for every ID that was registered, the packet made by the
    constructor of the last call for that ID, whether or not the map literal
    has an entry for it, and for every other ID what the literal holds. *)
Theorem NewPool_lookup {Packet : Type} (literal : gomap Packet)
  (calls : list (Z * (unit -> Packet))) (id : Z) :
  map_get id (NewPool literal (registered calls))
  = match last_registered id calls with
    | Some pk => Some (pk tt)
    | None => map_get id literal
    end.
Proof.
  unfold NewPool, registered, last_registered.
  destruct (registered_from calls [] id) as [Hnd Hget]; [constructor|].
  cbv zeta in *. rewrite NewPool_from by exact Hnd. rewrite Hget.
  destruct (find _ (rev calls)); reflexivity.
Qed.

(** ** Skins, further *)

Lemma Animation_Write (c : SkinAnimation) (rest : buf) (x0 : SkinAnimation) :
  wf_SkinAnimation c ->
  Animation (WriteAnimation c ++ rest) x0 = (None, c, rest).
Proof.
  intros (Hw & Hh & Hdata & Hty & Hframes). destruct c as [w h data ty frames].
  cbn [ImageWidth ImageHeight ImageData AnimationType FrameCount] in *.
  unfold Animation, WriteAnimation, Float32, WriteFloat32.
  cbn [chainErr]. unfold field.
  cbn [ImageWidth ImageHeight ImageData AnimationType FrameCount].
  rewrite <- !app_assoc.
  rewrite read_uint32_write by assumption.
  rewrite read_uint32_write by assumption.
  rewrite ByteSlice_Write by assumption.
  rewrite read_uint32_write by assumption.
  rewrite read_uint32_write by assumption.
  reflexivity.
Qed.

Lemma SkinPiece_Write (c : PersonaPiece) (rest : buf) (x0 : PersonaPiece) :
  wf_PersonaPiece c ->
  SkinPiece (WriteSkinPiece c ++ rest) x0 = (None, c, rest).
Proof.
  intros (Hid & Hty & Hpack & Hproduct). destruct c as [id ty pack def product].
  cbn [PieceID piece_PieceType PackID Default ProductID] in *.
  unfold SkinPiece, WriteSkinPiece. cbn [chainErr]. unfold field.
  cbn [PieceID piece_PieceType PackID Default ProductID].
  rewrite <- !app_assoc.
  rewrite String_Write by assumption.
  rewrite String_Write by assumption.
  rewrite String_Write by assumption.
  rewrite read_bool_write.
  rewrite String_Write by assumption.
  reflexivity.
Qed.

Lemma SkinPieceTint_Write (c : PersonaPieceTintColour) (rest : buf)
  (x0 : PersonaPieceTintColour) :
  wf_PersonaPieceTintColour c ->
  SkinPieceTint (WriteSkinPieceTint c ++ rest) x0 = (None, c, rest).
Proof.
  intros (Hty & Hlen & Hcolours). destruct c as [ty colours].
  cbn [tint_PieceType Colours] in *. unfold fits_uint32 in Hlen.
  unfold SkinPieceTint, WriteSkinPieceTint, field, wrap_u.
  cbn [tint_PieceType Colours].
  rewrite Z.mod_small by lia. rewrite <- !app_assoc.
  rewrite String_Write by assumption.
  rewrite read_uint32_write by (unfold in_u; lia).
  cbn [first_err set_tint_PieceType tint_PieceType Colours].
  rewrite make_length, read_each_flat_map; [reflexivity|].
  intros c r x1 Hin. apply String_Write.
  rewrite Forall_forall in Hcolours. now apply Hcolours.
Qed.

Ltac skin_fields :=
  cbn [set_SkinID set_SkinResourcePatch set_SkinImageWidth set_SkinImageHeight
         set_SkinData set_Animations set_CapeImageWidth set_CapeImageHeight
         set_CapeData set_SkinGeometry set_AnimationData set_PremiumSkin
         set_PersonaSkin set_PersonaCapeOnClassicSkin set_CapeID
         set_FullSkinID set_SkinColour set_ArmSize set_PersonaPieces
         set_PieceTintColours set_Trusted
         SkinID SkinResourcePatch SkinImageWidth SkinImageHeight SkinData
         Animations CapeImageWidth CapeImageHeight CapeData SkinGeometry
         AnimationData PremiumSkin PersonaSkin PersonaCapeOnClassicSkin CapeID
         FullSkinID SkinColour ArmSize PersonaPieces PieceTintColours Trusted].

Ltac skin_fields_in H :=
  cbn [set_SkinID set_SkinResourcePatch set_SkinImageWidth set_SkinImageHeight
         set_SkinData set_Animations set_CapeImageWidth set_CapeImageHeight
         set_CapeData set_SkinGeometry set_AnimationData set_PremiumSkin
         set_PersonaSkin set_PersonaCapeOnClassicSkin set_CapeID
         set_FullSkinID set_SkinColour set_ArmSize set_PersonaPieces
         set_PieceTintColours set_Trusted
         SkinID SkinResourcePatch SkinImageWidth SkinImageHeight SkinData
         Animations CapeImageWidth CapeImageHeight CapeData SkinGeometry
         AnimationData PremiumSkin PersonaSkin PersonaCapeOnClassicSkin CapeID
         FullSkinID SkinColour ArmSize PersonaPieces PieceTintColours Trusted]
    in H.

Lemma SerialisedSkin_reads_written (x x0 : Skin) (b : list byte) (rest : buf) :
  wf_Skin x ->
  validate x = None ->
  WriteSerialisedSkin x = Wrote b None ->
  SerialisedSkin (b ++ rest) x0 = (None, set_Trusted (Trusted x0) x, rest).
Proof.
  intros Hwf Hvalid Hb. unfold WriteSerialisedSkin in Hb.
  rewrite Hvalid in Hb.
  apply (f_equal (fun w => match w with Wrote b' _ => b' | Panicked _ => [] end))
    in Hb.
  cbv beta iota in Hb. subst b.
  destruct Hwf as (Hid & Hpatch & Hsw & Hsh & Hsdata & Hanims & Hanim
                   & Hcw & Hch & Hcdata & Hgeo & Hadata & Hcape & Hfull
                   & Harm & Hcolour & Hpieces & Hpiece & Htints & Htint).
  destruct x as [id patch sw sh sdata anims cw ch cdata geo adata premium
                   persona classic cape full colour arm pieces tints trusted].
  skin_fields_in Hid. skin_fields_in Hpatch. skin_fields_in Hsw.
  skin_fields_in Hsh. skin_fields_in Hsdata. skin_fields_in Hanims.
  skin_fields_in Hanim. skin_fields_in Hcw. skin_fields_in Hch.
  skin_fields_in Hcdata. skin_fields_in Hgeo. skin_fields_in Hadata.
  skin_fields_in Hcape. skin_fields_in Hfull. skin_fields_in Harm.
  skin_fields_in Hcolour. skin_fields_in Hpieces. skin_fields_in Hpiece.
  skin_fields_in Htints. skin_fields_in Htint.
  unfold fits_uint32 in Hanims, Hpieces, Htints.
  unfold SerialisedSkin. cbn [chainErr]. unfold field, wrap_u. skin_fields.
  rewrite !Z.mod_small by lia.
  rewrite <- !app_assoc.
  rewrite String_Write by assumption.
  rewrite ByteSlice_Write by assumption.
  rewrite read_uint32_write by assumption.
  rewrite read_uint32_write by assumption.
  rewrite ByteSlice_Write by assumption.
  rewrite read_uint32_write by (unfold in_u; lia).
  cbn [first_err].
  rewrite make_length, read_each_flat_map
    by (intros c r x1 Hin; apply Animation_Write;
        rewrite Forall_forall in Hanim; now apply Hanim).
  rewrite read_uint32_write by assumption.
  rewrite read_uint32_write by assumption.
  rewrite ByteSlice_Write by assumption.
  rewrite ByteSlice_Write by assumption.
  rewrite ByteSlice_Write by assumption.
  rewrite !read_bool_write.
  rewrite String_Write by assumption.
  rewrite String_Write by assumption.
  rewrite String_Write by assumption.
  rewrite String_Write by assumption.
  rewrite read_uint32_write by (unfold in_u; lia).
  cbn [first_err].
  rewrite make_length, read_each_flat_map
    by (intros c r x1 Hin; apply SkinPiece_Write;
        rewrite Forall_forall in Hpiece; now apply Hpiece).
  rewrite read_uint32_write by (unfold in_u; lia).
  rewrite make_length, read_each_flat_map
    by (intros c r x1 Hin; apply SkinPieceTint_Write;
        rewrite Forall_forall in Htint; now apply Htint).
  destruct x0. skin_fields.
  unfold validate in *. skin_fields. skin_fields_in Hvalid.
  rewrite Hvalid. reflexivity.
Qed.

(** X11.  [SerialisedSkin] reads back every skin that [WriteSerialisedSkin]
    accepts, from the bytes it wrote, except for [Trusted], which is not on
    the wire and keeps the value of the output. *)
Theorem Skin_roundtrip (x x0 : Skin) (rest : buf) :
  wf_Skin x ->
  validate x = None ->
  exists b : list byte,
    WriteSerialisedSkin x = Wrote b None
    /\ SerialisedSkin (b ++ rest) x0 = (None, set_Trusted (Trusted x0) x, rest).
Proof.
  intros Hwf Hvalid.
  assert (Hb : exists b, WriteSerialisedSkin x = Wrote b None).
  { unfold WriteSerialisedSkin. rewrite Hvalid. eexists. reflexivity. }
  destruct Hb as [b Hb]. exists b. split; [exact Hb|].
  now apply SerialisedSkin_reads_written.
Qed.

Lemma Animation_wf (s0 : buf) (c0 c1 : SkinAnimation) (s1 : buf) :
  Animation s0 c0 = (None, c1, s1) -> wf_SkinAnimation c1.
Proof.
  unfold Animation, Float32. cbn [chainErr]. unfold field.
  destruct (read_uint32 s0 _) as [[e1 v1] t1] eqn:H1.
  destruct (read_uint32 t1 _) as [[e2 v2] t2] eqn:H2.
  destruct (ByteSlice t2 _) as [[e3 v3] t3] eqn:H3.
  destruct (read_uint32 t3 _) as [[e4 v4] t4] eqn:H4.
  destruct (read_uint32 t4 _) as [[e5 v5] t5] eqn:H5.
  destruct e1; [discriminate|]. destruct e2; [discriminate|].
  destruct e3; [discriminate|]. destruct e4; [discriminate|].
  destruct e5; [discriminate|].
  intros H. injection H as <- _.
  apply read_uint32_range in H1, H2, H4, H5. apply ByteSlice_fits in H3.
  unfold wf_SkinAnimation. cbn. auto.
Qed.

Lemma SkinPiece_wf (s0 : buf) (c0 c1 : PersonaPiece) (s1 : buf) :
  SkinPiece s0 c0 = (None, c1, s1) -> wf_PersonaPiece c1.
Proof.
  unfold SkinPiece. cbn [chainErr]. unfold field.
  destruct (String s0 _) as [[e1 v1] t1] eqn:H1.
  destruct (String t1 _) as [[e2 v2] t2] eqn:H2.
  destruct (String t2 _) as [[e3 v3] t3] eqn:H3.
  destruct (read_bool t3 _) as [[e4 v4] t4] eqn:H4.
  destruct (String t4 _) as [[e5 v5] t5] eqn:H5.
  destruct e1; [discriminate|]. destruct e2; [discriminate|].
  destruct e3; [discriminate|]. destruct e4; [discriminate|].
  destruct e5; [discriminate|].
  intros H. injection H as <- _.
  apply String_fits in H1, H2, H3, H5.
  unfold wf_PersonaPiece. cbn. auto.
Qed.

Lemma read_each_fits {X} (w : error -> error) (d : Decoder X) (zero : X)
  (count : Z) (src : buf) (l : list X) (s : buf) :
  in_u 32 count ->
  read_each w d (make zero count) src = (None, l, s) ->
  fits_uint32 l.
Proof.
  unfold in_u, fits_uint32. intros Hcount H.
  pose proof (read_each_length w d (make zero count) src) as Hl.
  rewrite H in Hl. cbn [dec_val fst snd] in Hl.
  rewrite Hl, make_length_Z; lia.
Qed.

Lemma SkinPieceTint_wf (s0 : buf) (c0 c1 : PersonaPieceTintColour) (s1 : buf) :
  SkinPieceTint s0 c0 = (None, c1, s1) -> wf_PersonaPieceTintColour c1.
Proof.
  unfold SkinPieceTint, field.
  destruct (String s0 _) as [[e1 v1] t1] eqn:H1.
  destruct (read_uint32 t1 0) as [[e2 c] t2] eqn:H2.
  destruct e1; [discriminate|]. destruct e2; [discriminate|].
  cbn [first_err].
  destruct (read_each _ String _ t2) as [[e3 l] t3] eqn:H3.
  intros H. injection H as -> <- _.
  apply String_fits in H1. apply read_uint32_range in H2.
  unfold wf_PersonaPieceTintColour. cbn.
  split; [exact H1|]. split.
  - eapply read_each_fits; [|exact H3]. exact H2.
  - eapply read_each_Forall; [|exact H3]. intros s c0' c1' s'. apply String_fits.
Qed.

(** What [SerialisedSkin] accepts: the checks of [validate] hold of it, and
    every integer and length of it is one the wire can carry. *)
Lemma SerialisedSkin_success (src : buf) (x0 x : Skin) (s : buf) :
  SerialisedSkin src x0 = (None, x, s) ->
  validate x = None /\ wf_Skin x.
Proof.
  unfold SerialisedSkin. cbn [chainErr]. unfold field.
  destruct (String src _) as [[e1 id] t1] eqn:H1.
  destruct (ByteSlice t1 _) as [[e2 patch] t2] eqn:H2.
  destruct (read_uint32 t2 _) as [[e3 sw] t3] eqn:H3.
  destruct (read_uint32 t3 _) as [[e4 sh] t4] eqn:H4.
  destruct (ByteSlice t4 _) as [[e5 sdata] t5] eqn:H5.
  destruct (read_uint32 t5 0) as [[e6 animationCount] t6] eqn:H6.
  destruct e1; [discriminate|]. destruct e2; [discriminate|].
  destruct e3; [discriminate|]. destruct e4; [discriminate|].
  destruct e5; [discriminate|]. destruct e6; [discriminate|].
  cbn [first_err].
  destruct (read_each _ Animation _ t6) as [[[e|] anims] t7] eqn:H7;
    [discriminate|].
  destruct (read_uint32 t7 _) as [[e8 cw] t8] eqn:H8.
  destruct (read_uint32 t8 _) as [[e9 ch] t9] eqn:H9.
  destruct (ByteSlice t9 _) as [[e10 cdata] t10] eqn:H10.
  destruct (ByteSlice t10 _) as [[e11 geo] t11] eqn:H11.
  destruct (ByteSlice t11 _) as [[e12 adata] t12] eqn:H12.
  destruct (read_bool t12 _) as [[e13 premium] t13] eqn:H13.
  destruct (read_bool t13 _) as [[e14 persona] t14] eqn:H14.
  destruct (read_bool t14 _) as [[e15 classic] t15] eqn:H15.
  destruct (String t15 _) as [[e16 cape] t16] eqn:H16.
  destruct (String t16 _) as [[e17 full] t17] eqn:H17.
  destruct (String t17 _) as [[e18 arm] t18] eqn:H18.
  destruct (String t18 _) as [[e19 colour] t19] eqn:H19.
  destruct (read_uint32 t19 0) as [[e20 c] t20] eqn:H20.
  destruct e8; [discriminate|]. destruct e9; [discriminate|].
  destruct e10; [discriminate|]. destruct e11; [discriminate|].
  destruct e12; [discriminate|]. destruct e13; [discriminate|].
  destruct e14; [discriminate|]. destruct e15; [discriminate|].
  destruct e16; [discriminate|]. destruct e17; [discriminate|].
  destruct e18; [discriminate|]. destruct e19; [discriminate|].
  destruct e20; [discriminate|].
  cbn [first_err].
  destruct (read_each _ SkinPiece _ t20) as [[[e|] pieces] t21] eqn:H21;
    [discriminate|].
  destruct (read_uint32 t21 c) as [[[e|] c'] t22] eqn:H22; [discriminate|].
  destruct (read_each _ SkinPieceTint _ t22) as [[[e|] tints] t23] eqn:H23;
    [discriminate|].
  intros H. injection H as Hvalid <- _.
  split; [exact Hvalid|].
  apply String_fits in H1, H16, H17, H18, H19.
  apply ByteSlice_fits in H2, H5, H10, H11, H12.
  apply read_uint32_range in H3, H4, H6, H8, H9, H20, H22.
  unfold wf_Skin. skin_fields.
  repeat match goal with |- _ /\ _ => split end; try assumption.
  - eapply read_each_fits; [|exact H7]. exact H6.
  - eapply read_each_Forall; [|exact H7]. apply Animation_wf.
  - eapply read_each_fits; [|exact H21]. exact H20.
  - eapply read_each_Forall; [|exact H21]. apply SkinPiece_wf.
  - eapply read_each_fits; [|exact H23]. exact H22.
  - eapply read_each_Forall; [|exact H23]. apply SkinPieceTint_wf.
Qed.

(** X12.  Every skin that [SerialisedSkin] accepts passes [validate], so
    [WriteSerialisedSkin] writes it without a panic, and the bytes it writes
    are read back as the same skin, up to [Trusted]. *)
Theorem SerialisedSkin_accepted_is_writable (src : buf) (x0 x : Skin) (s : buf) :
  SerialisedSkin src x0 = (None, x, s) ->
  validate x = None
  /\ exists b : list byte,
       WriteSerialisedSkin x = Wrote b None
       /\ forall x1 : Skin,
            SerialisedSkin b x1 = (None, set_Trusted (Trusted x1) x, []).
Proof.
  intros H. apply SerialisedSkin_success in H. destruct H as [Hvalid Hwf].
  split; [exact Hvalid|].
  assert (Hb : exists b, WriteSerialisedSkin x = Wrote b None).
  { unfold WriteSerialisedSkin. rewrite Hvalid. eexists. reflexivity. }
  destruct Hb as [b Hb]. exists b. split; [exact Hb|].
  intros x1. rewrite <- (app_nil_r b).
  now apply SerialisedSkin_reads_written.
Qed.

Lemma validate_checks (x : Skin) :
  validate x = None ->
  image_ok (SkinImageHeight x) (SkinImageWidth x) (SkinData x) = true
  /\ image_ok (CapeImageHeight x) (CapeImageWidth x) (CapeData x) = true
  /\ Forall (fun animation =>
               image_ok (ImageHeight animation) (ImageWidth animation)
                 (ImageData animation) = true)
       (Animations x).
Proof.
  unfold validate.
  destruct (image_ok _ _ (SkinData x)); [|discriminate].
  destruct (image_ok _ _ (CapeData x)); [|discriminate].
  cbn [negb].
  destruct (forallb _ (Animations x)) eqn:Hall; [|discriminate].
  intros _. split; [reflexivity|]. split; [reflexivity|].
  rewrite forallb_forall in Hall. apply Forall_forall. exact Hall.
Qed.

(** X13.  For every skin that [SerialisedSkin] accepts, an image whose
    declared size [4 * width * height] is below 2^32 has exactly that many
    bytes: the skin image, the cape image and the image of each animation. *)
Theorem SerialisedSkin_sizes_exact (src : buf) (x0 x : Skin) (s : buf) :
  SerialisedSkin src x0 = (None, x, s) ->
  (4 * SkinImageWidth x * SkinImageHeight x < 2 ^ 32 ->
   Z.of_nat (length (SkinData x)) = 4 * SkinImageWidth x * SkinImageHeight x)
  /\ (4 * CapeImageWidth x * CapeImageHeight x < 2 ^ 32 ->
      Z.of_nat (length (CapeData x)) = 4 * CapeImageWidth x * CapeImageHeight x)
  /\ Forall (fun animation =>
               4 * ImageWidth animation * ImageHeight animation < 2 ^ 32 ->
               Z.of_nat (length (ImageData animation))
               = 4 * ImageWidth animation * ImageHeight animation)
       (Animations x).
Proof.
  intros H. apply SerialisedSkin_success in H. destruct H as [Hvalid Hwf].
  apply validate_checks in Hvalid. destruct Hvalid as (Hskin & Hcape & Hanims).
  destruct Hwf as (_ & _ & Hsw & Hsh & Hsdata & _ & Hanim
                   & Hcw & Hch & Hcdata & _).
  unfold in_u, fits_uint32 in *.
  split; [|split].
  - intros Hfit. apply image_ok_exact; (assumption || lia).
  - intros Hfit. apply image_ok_exact; (assumption || lia).
  - rewrite Forall_forall in *. intros a Hin Hfit.
    destruct (Hanim a Hin) as (Hw & Hh & Hdata & _).
    unfold in_u, fits_uint32 in *.
    apply image_ok_exact; try (assumption || lia). now apply Hanims.
Qed.

(** ** Item stacks with NBT *)

(** X20.  [WriteItem] and [Item] agree on how NBT is framed (the marker -1,
    the count byte 1, then the compound): with any NBT codec whose decoder
    reads back the data of the stack from what its [Marshal] wrote, [Item]
    reads back a stack with NBT from what [WriteItem] wrote for it. *)
Theorem Item_WriteItem_roundtrip_nbt (nbt : NbtCodec) (x x0 : ItemStack)
  (nb : list byte) (rest : buf) :
  in_s 32 (NetworkID x) ->
  NetworkID x <> 0 ->
  -128 <= MetadataValue x <= 127 ->
  0 <= Count x <= 255 ->
  NBTData_of x <> [] ->
  nbt_Marshal nbt (NBTData_of x) = Some nb ->
  (forall r, nbt_Decode nbt (nb ++ r) [] = (None, NBTData_of x, r)) ->
  wf_blocks (CanBePlacedOn x) ->
  wf_blocks (CanBreak x) ->
  snd (WriteItem nbt x) = None
  /\ Item nbt (fst (WriteItem nbt x) ++ rest) x0 = (None, x, rest).
Proof.
  intros Hid Hitem Hmeta Hcount Hdata Hmarshal Hdecode Hplace Hbreak.
  destruct x as [[networkID meta] count data place brk].
  cbn [ItemStack_ItemType NetworkID MetadataValue Count NBTData_of
         CanBePlacedOn CanBreak] in *.
  destruct (aux_unpacked meta count Hmeta Hcount) as (Haux & Hm & Hc).
  set (auxValue := Z.lor (wrap_s 16 (Z.shiftl meta 8)) count) in *.
  assert (Hsteps : forall b tail,
             (if networkID =? shieldID
              then exists t, Varint64 tail 0 = (None, t, rest)
              else rest = tail) ->
             b = WriteVarint32 networkID ++ WriteVarint32 auxValue
                   ++ write_int16 (-1) ++ write_byte x01 ++ nb
                   ++ canonical_blocks place ++ canonical_blocks brk ++ tail ->
             Item nbt b x0
             = (None,
                {| ItemStack_ItemType :=
                     {| NetworkID := networkID;
                        MetadataValue := wrap_s 16 (Z.shiftr auxValue 8) |};
                   Count := wrap_s 16 (Z.land auxValue 255);
                   NBTData_of := NBTData_of (set_NBTData data ItemStack_zero);
                   CanBePlacedOn := place; CanBreak := brk |}, rest)).
  { intros b tail Htail ->.
    eapply Item_of_steps with (marker := -1).
    - apply Varint32_Write, Hid.
    - exact Hitem.
    - apply Varint32_Write, Haux.
    - apply read_fixed_le_bytes.
    - unfold Item_nbt, field. cbn [Z.eqb write_byte app read_byte].
      change (negb (byte_val x01 =? 1)) with false. cbv iota.
      cbn [set_NBTData NBTData_of]. rewrite Hdecode. reflexivity.
    - apply Item_blocks_canonical, Hplace.
    - apply Item_blocks_canonical, Hbreak.
    - exact Htail. }
  rewrite Hm, Hc in Hsteps. cbn [NBTData_of set_NBTData] in Hsteps.
  unfold canonical_blocks in Hsteps.
  unfold WriteItem. item_fields.
  destruct (Z.eqb_spec networkID 0) as [|_]; [contradiction|].
  assert (Hlen : negb (Z.of_nat (length data) =? 0) = true).
  { destruct data; [contradiction|reflexivity]. }
  rewrite Hlen, Hmarshal.
  rewrite !blocks_length_int32 by assumption.
  destruct (networkID =? shieldID) eqn:Hshield; cbn [fst snd];
    (split; [reflexivity|]).
  - apply (Hsteps _ (WriteVarint64 0 ++ rest)).
    + exists 0. apply Varint64_Write. unfold in_s. cbn. lia.
    + now rewrite <- !app_assoc.
  - apply (Hsteps _ rest); [reflexivity|]. now rewrite <- !app_assoc.
Qed.

(** X21.  When re-encoding a decoded stack loses nothing: a stack that
    [Item] has returned, that is not air, that has no NBT and whose metadata
    is within [-128, 127], is read back unchanged from what [WriteItem]
    writes for it. *)
Theorem Item_decoded_reencodes (nbt : NbtCodec) (src : buf)
  (x0 x1 x : ItemStack) (s : buf) :
  Item nbt src x0 = (None, x, s) ->
  NetworkID x <> 0 ->
  NBTData_of x = [] ->
  -128 <= MetadataValue x <= 127 ->
  snd (WriteItem nbt x) = None
  /\ Item nbt (fst (WriteItem nbt x)) x1 = (None, x, []).
Proof.
  intros H Hitem Hdata Hmeta.
  assert (Hid : in_s 32 (NetworkID x)).
  { apply Item_success_steps in H.
    destruct H as (networkID & s1 & Hread & [(_ & -> & _) | (_ & H)]).
    - unfold in_s. cbn. lia.
    - destruct H as (auxValue & marker & y & l1 & l2 & s2 & s3 & s4 & s5 & s6
                     & _ & _ & _ & _ & _ & _ & ->).
      item_fields. eapply Varint32_range, Hread. }
  apply Item_success_bounds in H. destruct H as (Hcount & _ & Hplace & Hbreak).
  assert (Hwf : wf_plain_ItemStack x)
    by exact (conj Hid (conj Hmeta (conj Hcount (conj Hdata (conj Hplace Hbreak))))).
  rewrite <- (app_nil_r (fst (WriteItem nbt x))).
  now apply Item_WriteItem_roundtrip.
Qed.

(** ** These theorems at concrete inputs *)

Ltac wf_sample :=
  repeat (unfold wf_plain_ItemStack, wf_Skin, wf_SkinAnimation, wf_PersonaPiece,
            wf_PersonaPieceTintColour, wf_blocks, wf_EntityLink, fits_uint32,
            in_s, in_u, lowerLimit, higherLimit;
          cbn;
          match goal with
          | |- _ /\ _ => split
          | |- Forall _ _ => constructor
          end);
  cbn; try lia; try reflexivity.

Lemma Item_WriteItem_roundtrip_witness :
  wf_plain_ItemStack stack_pickaxe
  /\ NetworkID stack_pickaxe <> 0
  /\ snd (WriteItem SpecNbt.codec stack_pickaxe) = None
  /\ Item SpecNbt.codec (fst (WriteItem SpecNbt.codec stack_pickaxe) ++ [xff])
       ItemStack_zero
     = (None, stack_pickaxe, [xff]).
Proof.
  assert (H1 : wf_plain_ItemStack stack_pickaxe) by wf_sample.
  assert (H2 : NetworkID stack_pickaxe <> 0) by (cbn; lia).
  split; [exact H1|]. split; [exact H2|].
  exact (Item_WriteItem_roundtrip SpecNbt.codec stack_pickaxe ItemStack_zero
           [xff] H1 H2).
Defined.

Lemma Item_success_bounds_witness :
  let src := fst (WriteItem SpecNbt.codec stack_pickaxe) in
  Item SpecNbt.codec src ItemStack_zero = (None, stack_pickaxe, [])
  /\ 0 <= Count stack_pickaxe <= 255
  /\ in_s 16 (MetadataValue stack_pickaxe)
  /\ wf_blocks (CanBePlacedOn stack_pickaxe)
  /\ wf_blocks (CanBreak stack_pickaxe).
Proof.
  intros src.
  assert (H : Item SpecNbt.codec src ItemStack_zero = (None, stack_pickaxe, []))
    by reflexivity.
  split; [exact H|].
  exact (Item_success_bounds SpecNbt.codec src ItemStack_zero stack_pickaxe [] H).
Defined.

Lemma Item_CanBePlacedOn_guard_witness :
  let src := [x02; x00; x00; x00; x82; x80; x08; x01] in
  let r := Item SpecNbt.codec src stack_pickaxe in
  Varint32 src 0 = (None, 1, [x00; x00; x00; x82; x80; x08; x01])
  /\ Varint32 [x00; x00; x00; x82; x80; x08; x01] 0
     = (None, 0, [x00; x00; x82; x80; x08; x01])
  /\ read_int16 [x00; x00; x82; x80; x08; x01] 0
     = (None, 0, [x82; x80; x08; x01])
  /\ Varint32 [x82; x80; x08; x01] 0 = (None, 65537, [x01])
  /\ dec_err r = Some (LIMIT higherLimit "item can be placed on")
  /\ dec_src r = [x01]
  /\ CanBePlacedOn (dec_val r) = CanBePlacedOn stack_pickaxe
  /\ CanBreak (dec_val r) = CanBreak stack_pickaxe.
Proof.
  intros src r.
  split; [reflexivity|]. split; [reflexivity|]. split; [reflexivity|].
  split; [reflexivity|].
  apply (Item_CanBePlacedOn_guard SpecNbt.codec src stack_pickaxe 1 0 65537
           [x00; x00; x00; x82; x80; x08; x01] [x00; x00; x82; x80; x08; x01]
           [x82; x80; x08; x01] [x01]);
    try reflexivity; [lia|].
  right. unfold higherLimit. lia.
Defined.

Lemma Item_overwrites_output_witness :
  let src := fst (WriteItem SpecNbt.codec stack_pickaxe) in
  Item SpecNbt.codec src ItemStack_zero = (None, stack_pickaxe, [])
  /\ Item SpecNbt.codec src (set_CanBePlacedOn [stone] stack_pickaxe)
     = (None, stack_pickaxe, []).
Proof.
  intros src.
  assert (H : Item SpecNbt.codec src ItemStack_zero = (None, stack_pickaxe, []))
    by reflexivity.
  split; [exact H|].
  exact (Item_overwrites_output SpecNbt.codec src ItemStack_zero
           (set_CanBePlacedOn [stone] stack_pickaxe) stack_pickaxe [] H).
Defined.

Lemma RecipeIngredient_roundtrip_witness :
  in_s 32 (NetworkID stack_pickaxe)
  /\ in_s 16 (MetadataValue stack_pickaxe)
  /\ in_s 16 (Count stack_pickaxe)
  /\ 0 <= Count stack_pickaxe
  /\ RecipeIngredient (WriteRecipeIngredient stack_pickaxe ++ []) ItemStack_zero
     = (None,
        set_Count 1 (set_MetadataValue 5 (set_NetworkID 278 ItemStack_zero)),
        []).
Proof.
  assert (H1 : in_s 32 (NetworkID stack_pickaxe)) by wf_sample.
  assert (H2 : in_s 16 (MetadataValue stack_pickaxe)) by wf_sample.
  assert (H3 : in_s 16 (Count stack_pickaxe)) by wf_sample.
  assert (H4 : 0 <= Count stack_pickaxe) by (cbn; lia).
  repeat (split; [assumption|]).
  exact (RecipeIngredient_roundtrip stack_pickaxe ItemStack_zero [] H1 H2 H3 H4).
Defined.

Lemma RecipeIngredient_rejects_negative_count_witness :
  let x := set_Count (-1) stack_pickaxe in
  in_s 32 (NetworkID x) /\ NetworkID x <> 0 /\ in_s 16 (MetadataValue x)
  /\ in_s 16 (Count x) /\ Count x < 0
  /\ dec_err (RecipeIngredient (WriteRecipeIngredient x ++ []) ItemStack_zero)
     = Some (NEGATIVE "recipe ingredient count").
Proof.
  intros x.
  assert (H1 : in_s 32 (NetworkID x)) by wf_sample.
  assert (H2 : NetworkID x <> 0) by (cbn; lia).
  assert (H3 : in_s 16 (MetadataValue x)) by wf_sample.
  assert (H4 : in_s 16 (Count x)) by wf_sample.
  assert (H5 : Count x < 0) by (cbn; lia).
  repeat (split; [assumption|]).
  exact (RecipeIngredient_rejects_negative_count x ItemStack_zero []
           H1 H2 H3 H4 H5).
Defined.

Lemma EntityLinks_limit_iff_witness :
  let src := [x81; x04; x00] in
  Varuint32 src 0 = (None, 513, [x00])
  /\ lowerLimit < 513
  /\ EntityLinks src [link_S5]
     = (Some (LIMIT lowerLimit "entity link"), [link_S5], [x00]).
Proof.
  intros src.
  assert (H1 : Varuint32 src 0 = (None, 513, [x00])) by reflexivity.
  assert (H2 : lowerLimit < 513) by (unfold lowerLimit; lia).
  split; [exact H1|]. split; [exact H2|].
  exact (proj1 (EntityLinks_limit_iff src [link_S5]) 513 [x00] H1 H2).
Defined.

Lemma EntityLinks_decoded_reencodes_witness :
  let src := [x01; x01; x04; x01; x00; x02; xff] in
  EntityLinks src [] = (None, [link_S5], [xff])
  /\ Z.of_nat (length [link_S5]) <= lowerLimit
  /\ Forall wf_EntityLink [link_S5]
  /\ EntityLinks (WriteEntityLinks [link_S5]) [] = (None, [link_S5], []).
Proof.
  intros src.
  assert (H : EntityLinks src [] = (None, [link_S5], [xff])) by reflexivity.
  split; [exact H|].
  exact (EntityLinks_decoded_reencodes src [] [] [link_S5] [xff] H).
Defined.

Lemma EnchantOption_decoded_reencodes_witness :
  let src := WriteEnchantOption option_sharpness ++ [xff] in
  EnchantOption src EnchantmentOption_zero = (None, option_sharpness, [xff])
  /\ wf_EnchantmentOption option_sharpness
  /\ EnchantOption (WriteEnchantOption option_sharpness) EnchantmentOption_zero
     = (None, option_sharpness, []).
Proof.
  intros src.
  assert (H : EnchantOption src EnchantmentOption_zero
              = (None, option_sharpness, [xff])) by reflexivity.
  split; [exact H|].
  exact (EnchantOption_decoded_reencodes src EnchantmentOption_zero
           EnchantmentOption_zero option_sharpness [xff] H).
Defined.

Lemma Skin_roundtrip_witness :
  wf_Skin skin_sample
  /\ validate skin_sample = None
  /\ exists b : list byte,
       WriteSerialisedSkin skin_sample = Wrote b None
       /\ SerialisedSkin (b ++ [xff]) (set_Trusted true Skin_zero)
          = (None, set_Trusted true skin_sample, [xff]).
Proof.
  assert (H1 : wf_Skin skin_sample) by wf_sample.
  assert (H2 : validate skin_sample = None) by reflexivity.
  split; [exact H1|]. split; [exact H2|].
  exact (Skin_roundtrip skin_sample (set_Trusted true Skin_zero) [xff] H1 H2).
Defined.

Lemma SerialisedSkin_accepted_is_writable_witness :
  SerialisedSkin skin_sample_bytes Skin_zero = (None, skin_sample, [])
  /\ validate skin_sample = None
  /\ exists b : list byte,
       WriteSerialisedSkin skin_sample = Wrote b None
       /\ forall x1 : Skin,
            SerialisedSkin b x1
            = (None, set_Trusted (Trusted x1) skin_sample, []).
Proof.
  assert (H : SerialisedSkin skin_sample_bytes Skin_zero
              = (None, skin_sample, [])) by reflexivity.
  split; [exact H|].
  exact (SerialisedSkin_accepted_is_writable skin_sample_bytes Skin_zero
           skin_sample [] H).
Defined.

Lemma SerialisedSkin_sizes_exact_witness :
  SerialisedSkin skin_sample_bytes Skin_zero = (None, skin_sample, [])
  /\ 4 * SkinImageWidth skin_sample * SkinImageHeight skin_sample < 2 ^ 32
  /\ Z.of_nat (length (SkinData skin_sample))
     = 4 * SkinImageWidth skin_sample * SkinImageHeight skin_sample.
Proof.
  assert (H : SerialisedSkin skin_sample_bytes Skin_zero
              = (None, skin_sample, [])) by reflexivity.
  assert (Hfit : 4 * SkinImageWidth skin_sample * SkinImageHeight skin_sample
                 < 2 ^ 32) by (cbn; lia).
  split; [exact H|]. split; [exact Hfit|].
  exact (proj1 (SerialisedSkin_sizes_exact skin_sample_bytes Skin_zero
                  skin_sample [] H) Hfit).
Defined.

Lemma ActorEvent_roundtrip_witness :
  let pk := {| EntityRuntimeID := 300; EventType := x02; EventData := -7 |} in
  in_u 64 (EntityRuntimeID pk) /\ in_s 32 (EventData pk)
  /\ ActorEvent_Unmarshal (ActorEvent_Marshal pk ++ [xff]) ActorEvent_zero
     = (None, pk, [xff]).
Proof.
  intros pk.
  assert (H1 : in_u 64 (EntityRuntimeID pk)) by wf_sample.
  assert (H2 : in_s 32 (EventData pk)) by wf_sample.
  split; [exact H1|]. split; [exact H2|].
  exact (ActorEvent_roundtrip pk ActorEvent_zero [xff] H1 H2).
Defined.

Lemma ActorEvent_truncated_rejected_witness :
  let pk := {| EntityRuntimeID := 300; EventType := x02; EventData := -7 |} in
  in_u 64 (EntityRuntimeID pk)
  /\ [xac; x02; x02] ++ [x0d] = ActorEvent_Marshal pk
  /\ [x0d] <> []
  /\ dec_err (ActorEvent_Unmarshal [xac; x02; x02] ActorEvent_zero) <> None.
Proof.
  intros pk.
  assert (H1 : in_u 64 (EntityRuntimeID pk)) by wf_sample.
  assert (H2 : [xac; x02; x02] ++ [x0d] = ActorEvent_Marshal pk) by reflexivity.
  assert (H3 : [x0d] <> []) by discriminate.
  split; [exact H1|]. split; [exact H2|]. split; [exact H3|].
  exact (ActorEvent_truncated_rejected pk ActorEvent_zero [xac; x02; x02] [x0d]
           H1 H2 H3).
Defined.

Lemma DebugInfo_roundtrip_witness :
  let pk := {| PlayerUniqueID := -2; Data := [x64; x62; x67] |} in
  in_s 64 (PlayerUniqueID pk) /\ fits_uint32 (Data pk)
  /\ DebugInfo_Unmarshal (DebugInfo_Marshal pk ++ [xff]) DebugInfo_zero
     = (None, pk, [xff]).
Proof.
  intros pk.
  assert (H1 : in_s 64 (PlayerUniqueID pk)) by wf_sample.
  assert (H2 : fits_uint32 (Data pk)) by wf_sample.
  split; [exact H1|]. split; [exact H2|].
  exact (DebugInfo_roundtrip pk DebugInfo_zero [xff] H1 H2).
Defined.

Lemma SetSpawnPosition_roundtrip_witness :
  let here := {| SpecBlockPos.X := 10; SpecBlockPos.Y := 64;
                 SpecBlockPos.Z_ := -3 |} in
  let pk := {| SpawnType := 1; Position := here; Dimension := 0;
               SpawnPosition := here |} in
  let pk0 := {| SpawnType := 0; Position := SpecBlockPos.set_X 1 here;
                Dimension := 2; SpawnPosition := here |} in
  (forall r x,
      SpecBlockPos.UBlockPosition (SpecBlockPos.WriteUBlockPosition here ++ r) x
      = (None, here, r))
  /\ in_s 32 (SpawnType pk) /\ in_s 32 (Dimension pk)
  /\ SetSpawnPosition_Unmarshal SpecBlockPos.UBlockPosition
       (SetSpawnPosition_Marshal SpecBlockPos.WriteUBlockPosition pk ++ [xff]) pk0
     = (None, pk, [xff]).
Proof.
  intros here pk pk0.
  assert (H1 : forall r x,
             SpecBlockPos.UBlockPosition
               (SpecBlockPos.WriteUBlockPosition here ++ r) x
             = (None, here, r)) by (intros r x; reflexivity).
  assert (H2 : in_s 32 (SpawnType pk)) by wf_sample.
  assert (H3 : in_s 32 (Dimension pk)) by wf_sample.
  split; [exact H1|]. split; [exact H2|]. split; [exact H3|].
  exact (SetSpawnPosition_roundtrip SpecBlockPos.UBlockPosition
           SpecBlockPos.WriteUBlockPosition pk pk0 [xff] H1 H1 H2 H3).
Defined.

Lemma CreativeContent_roundtrip_witness :
  let entry := fun x => fst (WriteItem SpecNbt.codec x) in
  let Items := [stack_pickaxe] in
  (forall item r x, In item Items ->
     Item SpecNbt.codec (entry item ++ r) x = (None, item, r))
  /\ fits_uint32 Items
  /\ CreativeContent_Unmarshal ItemStack_zero (Item SpecNbt.codec)
       (CreativeContent_Marshal entry Items ++ [xff]) []
     = (None, Items, [xff]).
Proof.
  intros entry Items.
  assert (H1 : forall item r x, In item Items ->
             Item SpecNbt.codec (entry item ++ r) x = (None, item, r)).
  { intros item r x [<-|[]]. reflexivity. }
  assert (H2 : fits_uint32 Items) by wf_sample.
  split; [exact H1|]. split; [exact H2|].
  exact (CreativeContent_roundtrip ItemStack_zero (Item SpecNbt.codec) entry
           Items [] [xff] H1 H2).
Defined.

Lemma Item_WriteItem_roundtrip_nbt_witness :
  let x := set_NBTData [([x6c], TagList x00 [])] stack_pickaxe in
  let nb := [x0a; x00; x00; x09; x01; x00; x6c; x00; x00; x00; x00; x00; x00] in
  in_s 32 (NetworkID x) /\ NetworkID x <> 0
  /\ -128 <= MetadataValue x <= 127 /\ 0 <= Count x <= 255
  /\ NBTData_of x <> []
  /\ nbt_Marshal SpecNbt.codec (NBTData_of x) = Some nb
  /\ (forall r, nbt_Decode SpecNbt.codec (nb ++ r) [] = (None, NBTData_of x, r))
  /\ wf_blocks (CanBePlacedOn x) /\ wf_blocks (CanBreak x)
  /\ snd (WriteItem SpecNbt.codec x) = None
  /\ Item SpecNbt.codec (fst (WriteItem SpecNbt.codec x) ++ [xff]) ItemStack_zero
     = (None, x, [xff]).
Proof.
  intros x nb.
  assert (H1 : in_s 32 (NetworkID x)) by wf_sample.
  assert (H2 : NetworkID x <> 0) by (cbn; lia).
  assert (H3 : -128 <= MetadataValue x <= 127) by (cbn; lia).
  assert (H4 : 0 <= Count x <= 255) by (cbn; lia).
  assert (H5 : NBTData_of x <> []) by (cbn; discriminate).
  assert (H6 : nbt_Marshal SpecNbt.codec (NBTData_of x) = Some nb) by reflexivity.
  assert (H7 : forall r,
             nbt_Decode SpecNbt.codec (nb ++ r) [] = (None, NBTData_of x, r))
    by (intros r; reflexivity).
  assert (H8 : wf_blocks (CanBePlacedOn x)) by wf_sample.
  assert (H9 : wf_blocks (CanBreak x)) by wf_sample.
  repeat (split; [assumption|]).
  exact (Item_WriteItem_roundtrip_nbt SpecNbt.codec x ItemStack_zero nb [xff]
           H1 H2 H3 H4 H5 H6 H7 H8 H9).
Defined.

Lemma Item_decoded_reencodes_witness :
  let src := [x02; x80; x04; x00; x00; x00; x00; xff] in
  let x := set_MetadataValue 1 (set_NetworkID 1 ItemStack_zero) in
  Item SpecNbt.codec src stack_pickaxe = (None, x, [xff])
  /\ NetworkID x <> 0 /\ NBTData_of x = []
  /\ -128 <= MetadataValue x <= 127
  /\ snd (WriteItem SpecNbt.codec x) = None
  /\ Item SpecNbt.codec (fst (WriteItem SpecNbt.codec x)) ItemStack_zero
     = (None, x, []).
Proof.
  intros src x.
  assert (H1 : Item SpecNbt.codec src stack_pickaxe = (None, x, [xff]))
    by reflexivity.
  assert (H2 : NetworkID x <> 0) by (cbn; lia).
  assert (H3 : NBTData_of x = []) by reflexivity.
  assert (H4 : -128 <= MetadataValue x <= 127) by (cbn; lia).
  repeat (split; [assumption|]).
  exact (Item_decoded_reencodes SpecNbt.codec src stack_pickaxe ItemStack_zero
           x [xff] H1 H2 H3 H4).
Defined.
